(** * openfaas-cloud: build service and build-deploy orchestrator

    A shallow embedding of [buildshiprun/handler.go] and [of-builder/main.go]
    together with the properties their specification states about them, and
    of the configuration of the router and the receiver of the events of the
    GitHub app with properties of their own.

    Go strings are byte strings: they are modelled by [string] (a list of
    8-bit [ascii] characters), [len] by [String.length]. *)

From Stdlib Require Import String Ascii List Bool Arith Lia ZArith.
From Stdlib Require Import Permutation DecimalString.
From Stdlib Require DecimalPos.
Import ListNotations.

Local Open Scope list_scope.
Local Open Scope string_scope.

Set Implicit Arguments.

(** ** Byte strings *)

Module Str.

(** [s[:n]] *)
Definition take (n : nat) (s : string) : string := substring 0 n s.

(** [s[n:]] *)
Fixpoint drop (n : nat) (s : string) : string :=
  match n, s with
  | O, _ => s
  | S _, "" => ""
  | S n', String _ s' => drop n' s'
  end.

(** Occurrence of a byte in a string. *)
Fixpoint mem (c : ascii) (s : string) : bool :=
  match s with
  | "" => false
  | String x s' => Ascii.eqb c x || mem c s'
  end.

End Str.

(** ** Regular expressions with Go's leftmost-first matching

    [regexp.MustCompile] yields Perl-like semantics: among the matches that
    start leftmost, the one a backtracking matcher finds first.  [bt] is
    that backtracking matcher, in continuation-passing style; [matches] is
    the declarative language of a regular expression, that is, a match over
    the entire length of a string. *)

Module Regexp.

(** The syntax used by [imageValidator]: character classes as lists of
    inclusive ranges, literals, concatenation and the greedy operators
    [*], [+] and [?]. *)
Inductive regex : Type :=
| Class (ranges : list (ascii * ascii))
| Lit (c : ascii)
| Cat (r1 r2 : regex)
| Star (r : regex)
| Plus (r : regex)
| Quest (r : regex).

Definition in_range (lo hi c : ascii) : bool :=
  (nat_of_ascii lo <=? nat_of_ascii c)%nat && (nat_of_ascii c <=? nat_of_ascii hi)%nat.

Definition class_mem (ranges : list (ascii * ascii)) (c : ascii) : bool :=
  existsb (fun r => in_range (fst r) (snd r) c) ranges.

(** A string matches [r] over its entire length. *)
Inductive matches : regex -> string -> Prop :=
| MClass rs c : class_mem rs c = true -> matches (Class rs) (String c "")
| MLit c : matches (Lit c) (String c "")
| MCat r1 r2 s1 s2 :
    matches r1 s1 -> matches r2 s2 -> matches (Cat r1 r2) (s1 ++ s2)
| MStar0 r : matches (Star r) ""
| MStarS r s1 s2 :
    matches r s1 -> matches (Star r) s2 -> matches (Star r) (s1 ++ s2)
| MPlus r s1 s2 :
    matches r s1 -> matches (Star r) s2 -> matches (Plus r) (s1 ++ s2)
| MQuest0 r : matches (Quest r) ""
| MQuest1 r s : matches r s -> matches (Quest r) s.

(** A continuation receives the text left after a match and either accepts
    (returning the text left at the end of the overall match) or rejects,
    which makes the matcher backtrack. *)
Definition cont : Type := string -> option string.

(** The loop of a greedy repetition: one more iteration is tried before
    leaving the loop.  An iteration has to consume input; [n] bounds the
    number of iterations and is the length of the text at loop entry. *)
Fixpoint star_loop (step : string -> cont -> option string) (k : cont)
         (n : nat) (s : string) : option string :=
  match n with
  | O => k s
  | S n' =>
      match step s (fun s1 =>
                      if (String.length s1 <? String.length s)%nat
                      then star_loop step k n' s1 else None) with
      | Some x => Some x
      | None => k s
      end
  end.

Fixpoint bt (r : regex) (s : string) (k : cont) : option string :=
  match r with
  | Class rs =>
      match s with
      | String c s' => if class_mem rs c then k s' else None
      | "" => None
      end
  | Lit x =>
      match s with
      | String c s' => if Ascii.eqb c x then k s' else None
      | "" => None
      end
  | Cat r1 r2 => bt r1 s (fun s1 => bt r2 s1 k)
  | Star r1 => star_loop (bt r1) k (String.length s) s
  | Plus r1 => bt r1 s (fun s1 => star_loop (bt r1) k (String.length s1) s1)
  | Quest r1 =>
      match bt r1 s k with
      | Some x => Some x
      | None => k s
      end
  end.

(** The leftmost match: the first start position at which the matcher
    succeeds, and the text it matched there. *)
Fixpoint find (r : regex) (s : string) : option string :=
  match bt r s Some with
  | Some rest => Some (Str.take (String.length s - String.length rest) s)
  | None =>
      match s with
      | "" => None
      | String _ s' => find r s'
      end
  end.

(** The method [FindString] of a compiled expression: the text of the leftmost match, the empty
    string when there is no match. *)
Definition FindString (r : regex) (s : string) : string :=
  match find r s with
  | Some m => m
  | None => ""
  end.

(** Static information about an expression: whether it matches the empty
    string, which bytes can start a match, which bytes can occur in a match
    and whether every match contains a given byte. *)
Fixpoint nullable (r : regex) : bool :=
  match r with
  | Class _ | Lit _ => false
  | Cat r1 r2 => nullable r1 && nullable r2
  | Star _ | Quest _ => true
  | Plus r1 => nullable r1
  end.

Fixpoint first (r : regex) (c : ascii) : bool :=
  match r with
  | Class rs => class_mem rs c
  | Lit x => Ascii.eqb c x
  | Cat r1 r2 => first r1 c || (nullable r1 && first r2 c)
  | Star r1 | Plus r1 | Quest r1 => first r1 c
  end.

Fixpoint alphabet (r : regex) (c : ascii) : bool :=
  match r with
  | Class rs => class_mem rs c
  | Lit x => Ascii.eqb c x
  | Cat r1 r2 => alphabet r1 c || alphabet r2 c
  | Star r1 | Plus r1 | Quest r1 => alphabet r1 c
  end.

Fixpoint needs (r : regex) (c : ascii) : bool :=
  match r with
  | Class _ => false
  | Lit x => Ascii.eqb c x
  | Cat r1 r2 => needs r1 c || needs r2 c
  | Plus r1 => needs r1 c
  | Star _ | Quest _ => false
  end.

(** The text is empty or starts with a byte of [Q]. *)
Definition next (Q : ascii -> bool) (s : string) : Prop :=
  match s with
  | "" => True
  | String c _ => Q c = true
  end.

(** Every byte, to settle a property of bytes by enumeration. *)
Definition all_ascii : list ascii := map ascii_of_nat (seq 0 256).

(** [commits r B]: on a match of [r] followed by a text satisfying [B], the
    continuation is first called on that text, so that the matcher returns
    what the continuation accepts there.  [fails_at r B]: the matcher finds
    no match of [r] at the start of a text satisfying [B]. *)
Definition commits (r : regex) (B : string -> Prop) : Prop :=
  forall u rest (k : cont) z,
    matches r u -> B rest -> k rest = Some z -> bt r (u ++ rest) k = Some z.

Definition fails_at (r : regex) (B : string -> Prop) : Prop :=
  forall rest (k : cont), B rest -> bt r rest k = None.

End Regexp.

(** ** The image-name validator ([buildshiprun/handler.go]) *)

Module Image.
Import Regexp.

Definition alnum : regex := Class [("a", "z"); ("A", "Z"); ("0", "9")]%char.
Definition lower : regex := Class [("a", "z"); ("0", "9")]%char.
Definition sep : regex := Class [(".", "."); ("_", "_"); ("-", "-")]%char.
Definition digit : regex := Class [("0", "9")]%char.

(** [[a-zA-Z0-9]+(?:[._-][a-z0-9]+)*] *)
Definition word : regex := Cat (Plus alnum) (Star (Cat sep (Plus lower))).

(** [(?::[0-9]+)?] *)
Definition port : regex := Quest (Cat (Lit ":") (Plus digit)).

(** One repetition of the outer group: [word port / word /]. *)
Definition group : regex :=
  Cat word (Cat port (Cat (Lit "/") (Cat word (Lit "/")))).

(** [imageValidator]: the outer group repeated, then a last [word]. *)
Definition imageValidator : regex := Cat (Star group) word.

(** Bytes that can follow a [word] in a match, and the bytes that cannot
    start a match of an expression. *)
Definition delim (c : ascii) : bool := Ascii.eqb c ":" || Ascii.eqb c "/".
Definition slash (c : ascii) : bool := Ascii.eqb c "/".
Definition outside (r : regex) (c : ascii) : bool := negb (first r c).

Definition validImage (image : string) : bool :=
  let match_ := FindString imageValidator image in
  (* image should be the whole string *)
  if (String.length match_ =? String.length image)%nat then true else false.

End Image.

(** [strings.Replace(s, old, new, 1)]: the first instance of [old] in [s]
    is replaced by [new]; an empty [old] matches at the beginning of [s];
    [s] is returned as it is when [old] does not occur in it. *)
Fixpoint strings_Replace1 (s old new : string) : string :=
  if prefix old s then new ++ Str.drop (String.length old) s
  else match s with
       | "" => ""
       | String c s' => String c (strings_Replace1 s' old new)
       end.

Definition getImageName (repositoryURL pushRepositoryURL imageName : string) : string :=
  strings_Replace1 imageName pushRepositoryURL repositoryURL.

(** [strings.HasSuffix] *)
Definition strings_HasSuffix (s suffix : string) : bool :=
  (String.length suffix <=? String.length s)%nat &&
  String.eqb (Str.drop (String.length s - String.length suffix) s) suffix.

(** ** [strings.TrimSpace]

    The white space of [unicode.IsSpace], in its UTF-8 encoding: the six
    ASCII bytes, U+0085, U+00A0, U+1680, U+2000 to U+200A, U+2028, U+2029,
    U+202F, U+205F and U+3000. *)

Module Trim.

Definition bytes (l : list nat) : string :=
  string_of_list_ascii (map ascii_of_nat l).

Definition spaces : list string :=
  map bytes
      ([[9]; [10]; [11]; [12]; [13]; [32]; [194; 133]; [194; 160]; [225; 154; 128]]
       ++ map (fun n => [226; 128; n]) (seq 128 11)
       ++ [[226; 128; 168]; [226; 128; 169]; [226; 128; 175]; [226; 129; 159];
           [227; 128; 128]])%list.

Fixpoint rev (s : string) : string :=
  match s with
  | "" => ""
  | String c s' => rev s' ++ String c ""
  end.

(** One leading white-space character removed, when there is one. *)
Fixpoint strip1 (sp : list string) (s : string) : option string :=
  match sp with
  | [] => None
  | x :: sp' =>
      if prefix x s then Some (Str.drop (String.length x) s) else strip1 sp' s
  end.

Fixpoint trimLeft (sp : list string) (n : nat) (s : string) : string :=
  match n with
  | O => s
  | S n' =>
      match strip1 sp s with
      | Some s' => trimLeft sp n' s'
      | None => s
      end
  end.

Definition TrimLeft (s : string) : string := trimLeft spaces (String.length s) s.

Definition TrimRight (s : string) : string :=
  rev (trimLeft (map rev spaces) (String.length s) (rev s)).

Definition TrimSpace (s : string) : string := TrimRight (TrimLeft s).

End Trim.

(** ** Effects

    A computation yields the events it emitted, in order, and how it ended:
    with a value, with the process exiting ([os.Exit], [log.Fatal]) or with
    a panic.  What is written to the standard streams and to the logger is
    not part of the model. *)

Module Eff.

Inductive Result (A : Type) : Type :=
| Ok (a : A)
| Exit (code : Z)
| Panic (msg : string).

Arguments Ok {A} a.
Arguments Exit {A} code.
Arguments Panic {A} msg.

Definition M (E A : Type) : Type := (list E * Result A)%type.

Definition ret {E A : Type} (a : A) : M E A := ([], Ok a).

Definition bind {E A B : Type} (m : M E A) (f : A -> M E B) : M E B :=
  match snd m with
  | Ok a => (fst m ++ fst (f a), snd (f a))%list
  | Exit c => (fst m, Exit c)
  | Panic msg => (fst m, Panic msg)
  end.

Definition emit {E : Type} (e : E) : M E unit := ([e], Ok tt).
Definition os_Exit {E A : Type} (code : Z) : M E A := ([], Exit code).
Definition panic {E A : Type} (msg : string) : M E A := ([], Panic msg).

(** [log.Fatal] prints and calls [os.Exit(1)]; [log.Panic] prints and panics. *)
Definition log_Fatal {E : Type} (msg : string) : M E unit := os_Exit 1.
Definition log_Panic {E : Type} (msg : string) : M E unit := panic msg.

(** [defer]: the deferred event happens when the function returns; when
    the process exits, or when another task panics, it ends without it. *)
Definition defer {E A : Type} (e : E) (m : M E A) : M E A :=
  match snd m with
  | Ok a => (fst m ++ [e], Ok a)%list
  | _ => m
  end.

Definition trace {E A : Type} (m : M E A) : list E := fst m.
Definition result {E A : Type} (m : M E A) : Result A := snd m.

End Eff.

Declare Scope eff_scope.
Delimit Scope eff_scope with eff.
Notation "x <- m ;; k" := (Eff.bind m (fun x => k))
  (at level 61, m at next level, right associativity) : eff_scope.
Notation "m ;; k" := (Eff.bind m (fun _ => k))
  (at level 61, right associativity) : eff_scope.

(** Decimal rendering of an integer ([%d], [strconv.FormatInt] in base 10). *)
Definition decimal (z : Z) : string := NilZero.string_of_int (Z.to_int z).

(** ** The build-deploy orchestrator ([buildshiprun/handler.go]) *)

Module Handler.
Import Eff.
Local Open Scope eff_scope.

Definition defaultPrivateKeyName : string := "private-key".

Record eventInfo : Type := {
  service : string;
  owner : string;
  repository : string;
  image : string;
  sha : string;
  url : string;
  installationID : Z;
  environment : list (string * string);
  secrets : list string
}.

Record Limits : Type := { Memory : string }.

Record deployment : Type := {
  Service : string;
  Image : string;
  Network : string;
  Labels : list (string * string);
  Limits_ : Limits;
  EnvVars : list (string * string);
  Secrets : list string
}.

Record function : Type := { Name : string }.

(** [sdk.AuditEvent] *)
Record AuditEvent : Type := {
  Message : string;
  Owner : string;
  Repo : string;
  Source : string
}.

(** [github.RepoStatus] *)
Record RepoStatus : Type := {
  State : string;
  TargetURL : string;
  Description : string;
  Context : string
}.

(** The body of an HTTP request: raw bytes, or the JSON encoding of a
    deployment ([json.Marshal(deploy)]), which stands for itself. *)
Inductive Payload : Type :=
| NoBody
| Raw (bytes : string)
| JSON (d : deployment).

Record Response : Type := {
  Status : string;
  StatusCode : Z;
  Body : string
}.

(** What a run of the handler does to the outside. *)
Inductive Event : Type :=
| EvHTTP (method url : string) (body : Payload)
| EvAudit (e : AuditEvent)
| EvMintToken (appID : string) (installation : Z) (privateKeyPath : string)
| EvCreateStatus (token owner repo sha : string) (status : RepoStatus).

(** What the outside answers: the process environment, the clock, the
    decoders of the standard library, and the outcome of each call over
    the network (an error message on the left).  A run of [Handle] sends
    no request twice (the requests differ in their method or in their
    URL), so that [Do] may be a function of the request.  The requests
    are taken to be built: what the code does when [http.NewRequest] fails
    is the matter of [Requests] below. *)
Record World : Type := {
  Getenv : string -> string;
  unixNow : Z;
  Atoi : string -> Z * option string;
  unmarshalEnv : string -> list (string * string) * option string;
  unmarshalSecrets : string -> list string * option string;
  unmarshalFunctions : string -> list function;
  Do : string -> string -> Payload -> string + Response;
  MakeAccessTokenForInstallation : string -> Z -> string -> string * option string;
  CreateStatus : string -> string -> string -> string -> RepoStatus -> option string
}.

Definition MethodGet : string := "GET".
Definition MethodPost : string := "POST".
Definition MethodPut : string := "PUT".

Section Run.

Variable w : World.

(** [info.secrets[i] = info.owner + "-" + info.secrets[i]] for every [i]. *)
Fixpoint prefixSecrets (owner : string) (secrets : list string) : list string :=
  match secrets with
  | [] => []
  | x :: rest => (owner ++ "-" ++ x) :: prefixSecrets owner rest
  end.

Definition getEvent : eventInfo * option string :=
  let service := Getenv w "Http_Service" in
  let owner := Getenv w "Http_Owner" in
  let repository := Getenv w "Http_Repo" in
  let sha := Getenv w "Http_Sha" in
  let url := Getenv w "Http_Url" in
  let image := Getenv w "Http_Image" in
  let '(installationID, err) :=
    if (0 <? String.length (Getenv w "Http_Installation_id"))%nat
    then Atoi w (Getenv w "Http_Installation_id")
    else (0%Z, None) in
  let httpEnv := Getenv w "Http_Env" in
  let environment :=
    if (0 <? String.length httpEnv)%nat then
      match unmarshalEnv w httpEnv with
      | (envVars, None) => envVars
      | (_, Some _) => []
      end
    else [] in
  let secretsStr := Getenv w "Http_Secrets" in
  let secretVars :=
    if (0 <? String.length secretsStr)%nat
    then fst (unmarshalSecrets w secretsStr)
    else [] in
  ({| service := service; owner := owner; repository := repository;
      image := image; sha := sha; url := url;
      installationID := installationID; environment := environment;
      secrets := prefixSecrets owner secretVars |}, err).

Fixpoint functionListed (functions : list function) (name : string) : bool :=
  match functions with
  | [] => false
  | function1 :: rest =>
      if String.eqb (Name function1) name then true else functionListed rest name
  end.

Definition functionExists (deploy : deployment) (gatewayURL : string)
  : M Event (bool * option string) :=
  emit (EvHTTP MethodGet (gatewayURL ++ "system/functions") NoBody) ;;
  match Do w MethodGet (gatewayURL ++ "system/functions") NoBody with
  | inl err => ret (false, Some err)
  | inr res =>
      let functions := unmarshalFunctions w (Body res) in
      if functionListed functions (Service deploy)
      then ret (true, None)
      else ret (false, None)
  end.

Definition deployFunction (deploy : deployment) (gatewayURL : string)
  : M Event (string * option string) :=
  r <- functionExists deploy gatewayURL ;;
  let exists_ := fst r in
  let method := if exists_ then MethodPut else MethodPost in
  emit (EvHTTP method (gatewayURL ++ "system/functions") (JSON deploy)) ;;
  match Do w method (gatewayURL ++ "system/functions") (JSON deploy) with
  | inl err => ret ("", Some err)
  | inr res =>
      if (StatusCode res <? 200)%Z || (299 <? StatusCode res)%Z
      then ret ("", Some ("http status code " ++ decimal (StatusCode res)))
      else ret (Body res, None)
  end.

Definition enableStatusReporting : bool :=
  String.eqb (Getenv w "report_status") "true".

Definition buildPublicStatusURL (status : string) (event : eventInfo) : string :=
  let url := url event in
  if String.eqb status "success" then
    let publicURL := Getenv w "gateway_public_url" in
    let gatewayPrettyURL := Getenv w "gateway_pretty_url" in
    if (0 <? String.length gatewayPrettyURL)%nat then
      let url := strings_Replace1 gatewayPrettyURL "user" (owner event) in
      strings_Replace1 url "function" (service event)
    else if (0 <? String.length publicURL)%nat then
      let publicURL :=
        if negb (strings_HasSuffix publicURL "/") then publicURL ++ "/" else publicURL in
      let serviceValue := owner event ++ "-" ++ service event in
      publicURL ++ "function/" ++ serviceValue
    else url
  else url.

Definition getPrivateKey : string :=
  let privateKeyName := Getenv w "private_key" in
  let privateKeyName :=
    if String.eqb privateKeyName "" then defaultPrivateKeyName else privateKeyName in
  "/var/openfaas/secrets/" ++ privateKeyName.

Definition buildStatus (status desc context url : string) : RepoStatus :=
  {| State := status; TargetURL := url; Description := desc; Context := context |}.

Definition reportStatus (status desc statusContext : string) (event : eventInfo)
  : M Event unit :=
  if negb enableStatusReporting then ret tt else
  let url := buildPublicStatusURL status event in
  let privateKeyPath := getPrivateKey in
  let repoStatus := buildStatus status desc statusContext url in
  emit (EvMintToken (Getenv w "github_app_id") (installationID event) privateKeyPath) ;;
  match MakeAccessTokenForInstallation w (Getenv w "github_app_id")
          (installationID event) privateKeyPath with
  | (_, Some tokenErr) => ret tt
  | (token, None) =>
      if String.eqb token "" then ret tt else
      emit (EvCreateStatus token (owner event) (repository event) (sha event) repoStatus) ;;
      match CreateStatus w token (owner event) (repository event) (sha event) repoStatus with
      | Some apiErr => ret tt
      | None => ret tt
      end
  end.

(** [sdk.PostAudit] *)
Definition PostAudit (e : AuditEvent) : M Event unit := emit (EvAudit e).

Definition setMessage (e : AuditEvent) (msg : string) : AuditEvent :=
  {| Message := msg; Owner := Owner e; Repo := Repo e; Source := Source e |}.

Definition Handle (req : string) : M Event string :=
  let builderURL := Getenv w "builder_url" in
  let '(event, eventErr) := getEvent in
  match eventErr with Some e => log_Panic e | None => ret tt end ;;
  let auditEvent :=
    {| Message := ""; Owner := owner event; Repo := repository event;
       Source := "buildshiprun" |} in
  emit (EvHTTP MethodPost (builderURL ++ "build") (Raw req)) ;;
  match Do w MethodPost (builderURL ++ "build") (Raw req) with
  | inl err =>
      reportStatus "failure" err "BUILD" event ;;
      let auditEvent := setMessage auditEvent ("buildshiprun failure: " ++ err) in
      PostAudit auditEvent ;;
      ret (Message auditEvent)
  | inr res =>
      let buildStatus := Body res in
      let imageName := Trim.TrimSpace buildStatus in
      let repositoryURL := Getenv w "repository_url" in
      let pushRepositoryURL := Getenv w "push_repository_url" in
      (if (String.length repositoryURL =? 0)%nat then os_Exit 1 else ret tt) ;;
      (if (String.length pushRepositoryURL =? 0)%nat then os_Exit 1 else ret tt) ;;
      let serviceValue := "" in
      if negb (Image.validImage imageName) then
        let msg := "Unable to build image, check builder logs" in
        reportStatus "failure" msg "DEPLOY" event ;;
        log_Fatal msg ;;
        let auditEvent := setMessage auditEvent ("buildshiprun failure: " ++ msg) in
        PostAudit auditEvent ;;
        ret msg
      else
        st <-
          (if (0 <? String.length imageName)%nat then
             let gatewayURL := Getenv w "gateway_url" in
             let imageName := getImageName repositoryURL pushRepositoryURL imageName in
             let serviceValue := owner event ++ "-" ++ service event in
             let defaultMemoryLimit := Getenv w "default_memory_limit" in
             let defaultMemoryLimit :=
               if (String.length defaultMemoryLimit =? 0)%nat
               then "20m" else defaultMemoryLimit in
             let deploy :=
               {| Service := serviceValue;
                  Image := imageName;
                  Network := "func_functions";
                  Labels := [("Git-Cloud", "1");
                             ("Git-Owner", owner event);
                             ("Git-Repo", repository event);
                             ("Git-DeployTime", decimal (unixNow w));
                             ("Git-SHA", sha event);
                             ("faas_function", serviceValue);
                             ("app", serviceValue)];
                  Limits_ := {| Memory := defaultMemoryLimit |};
                  EnvVars := environment event;
                  Secrets := secrets event |} in
             r <- deployFunction deploy gatewayURL ;;
             match snd r with
             | Some err =>
                 reportStatus "failure" err "DEPLOY" event ;;
                 log_Fatal err ;;
                 ret (imageName, serviceValue,
                      setMessage auditEvent ("buildshiprun failure: " ++ err))
             | None =>
                 ret (imageName, serviceValue,
                      setMessage auditEvent
                        ("buildshiprun succeeded: deployed " ++ imageName))
             end
           else ret (imageName, serviceValue, auditEvent)) ;;
        let '(imageName, serviceValue, auditEvent) := st in
        PostAudit auditEvent ;;
        reportStatus "success"
          ("function successfully deployed as: " ++ serviceValue) "DEPLOY" event ;;
        ret ("buildStatus " ++ buildStatus ++ " " ++ imageName ++ " " ++ Status res)
  end.

End Run.

(** The functions the serving platform lists, as [functionExists] decodes
    them; none when the call fails. *)
Definition listedFunctions (w : World) (gatewayURL : string) : list function :=
  match Do w MethodGet (gatewayURL ++ "system/functions") NoBody with
  | inr res => unmarshalFunctions w (Body res)
  | inl _ => []
  end.

(** The events of status reporting. *)
Definition reporting (e : Event) : bool :=
  match e with
  | EvMintToken _ _ _ | EvCreateStatus _ _ _ _ _ => true
  | _ => false
  end.

(** A deployment descriptor sent over the network carries the secrets [l]. *)
Definition carries (l : list string) (e : Event) : Prop :=
  match e with
  | EvHTTP _ _ (JSON d) => Secrets d = l
  | _ => True
  end.

(** The same world with other answers of the token service and of the
    commit-status call. *)
Definition withReporting (w : World)
    (mint : string -> Z -> string -> string * option string)
    (create : string -> string -> string -> string -> RepoStatus -> option string)
  : World :=
  {| Getenv := Getenv w; unixNow := unixNow w; Atoi := Atoi w;
     unmarshalEnv := unmarshalEnv w; unmarshalSecrets := unmarshalSecrets w;
     unmarshalFunctions := unmarshalFunctions w; Do := Do w;
     MakeAccessTokenForInstallation := mint; CreateStatus := create |}.

(** A run without the events of status reporting. *)
Definition core {A : Type} (m : M Event A) : M Event A :=
  (filter (fun e => negb (reporting e)) (trace m), result m).

End Handler.

(** ** The build log ([of-builder/main.go]) *)

Module BuildLog.

(** [Sync] tells whether the mutex is held. *)
Record buildLog : Type := { Line : list string; Sync : bool }.

(** [Append] as one producer running alone executes it. *)
Definition Append (b : buildLog) (msg : string) : buildLog :=
  {| Line := (Line b ++ [msg])%list; Sync := Sync b |}.

(** The program points of a producer that calls [b.Append(msg)]: before
    [b.Sync.Lock()], holding the lock, having read [b.Line], having written
    the appended slice back, and after [b.Sync.Unlock()]. *)
Inductive pc : Type :=
| Calling
| Locked
| Loaded (line : list string)
| Stored
| Returned.

Record producer : Type := { msg : string; at_ : pc }.

(** One step of one producer on the shared log; [None] when the producer
    cannot move (the mutex is held by another one, or it has returned). *)
Definition exec (b : buildLog) (p : producer) : option (buildLog * producer) :=
  match at_ p with
  | Calling =>
      if Sync b then None
      else Some ({| Line := Line b; Sync := true |}, {| msg := msg p; at_ := Locked |})
  | Locked => Some (b, {| msg := msg p; at_ := Loaded (Line b) |})
  | Loaded line =>
      Some ({| Line := (line ++ [msg p])%list; Sync := Sync b |},
            {| msg := msg p; at_ := Stored |})
  | Stored =>
      Some ({| Line := Line b; Sync := false |}, {| msg := msg p; at_ := Returned |})
  | Returned => None
  end.

(** The scheduler lets producer [i] take a step. *)
Fixpoint step_at (i : nat) (b : buildLog) (ps : list producer)
  : option (buildLog * list producer) :=
  match ps, i with
  | [], _ => None
  | p :: rest, O =>
      match exec b p with
      | Some (b', p') => Some (b', p' :: rest)
      | None => None
      end
  | p :: rest, S i' =>
      match step_at i' b rest with
      | Some (b', rest') => Some (b', p :: rest')
      | None => None
      end
  end.

(** An execution under a schedule, the list of the producers that move. *)
Fixpoint run (schedule : list nat) (b : buildLog) (ps : list producer)
  : option (buildLog * list producer) :=
  match schedule with
  | [] => Some (b, ps)
  | i :: rest =>
      match step_at i b ps with
      | Some (b', ps') => run rest b' ps'
      | None => None
      end
  end.

(** The log of [build] and one producer per message, all about to append. *)
Definition empty : buildLog := {| Line := []; Sync := false |}.

Definition start (msgs : list string) : list producer :=
  map (fun m => {| msg := m; at_ := Calling |}) msgs.

Definition returned (p : producer) : bool :=
  match at_ p with
  | Returned => true
  | _ => false
  end.

(** The invariant of the executions: the log holds the messages of the
    producers that have written, in some order; the mutex is held exactly
    when one producer is between [Lock] and [Unlock]; a producer that has
    read the log has read its present content. *)
Definition written (p : producer) : list string :=
  match at_ p with
  | Stored | Returned => [msg p]
  | _ => []
  end.

Definition holding (p : producer) : nat :=
  match at_ p with
  | Locked | Loaded _ | Stored => 1
  | _ => 0
  end.

Definition fresh (b : buildLog) (p : producer) : Prop :=
  match at_ p with
  | Loaded line => line = Line b
  | _ => True
  end.

Definition holders (ps : list producer) : nat := list_sum (map holding ps).

Record Inv (b : buildLog) (ps : list producer) : Prop := {
  inv_line : Permutation (Line b) (flat_map written ps);
  inv_lock : holders ps = if Sync b then 1 else 0;
  inv_fresh : Forall (fresh b) ps
}.

(** The schedule that lets the producers append one after the other,
    starting with producer [n]. *)
Fixpoint inTurn (n k : nat) : list nat :=
  match k with
  | O => []
  | S k' => n :: n :: n :: n :: inTurn (S n) k'
  end.

End BuildLog.

(** ** The build service ([of-builder/main.go]) *)

Module Builder.
Import Eff.
Local Open Scope eff_scope.

(** Instants ([time.Time]). *)
Definition Time : Type := Z.

(** The events of the engine ([client.SolveStatus]). *)
Record Vertex : Type := {
  VName : string;
  Started : option Time;
  Completed : option Time
}.

Record VertexStatus : Type := {
  SID : string;
  SVertex : string;
  STimestamp : Time;
  Current : Z
}.

Record VertexLog : Type := {
  LVertex : string;
  LTimestamp : Time;
  Data : string
}.

Record SolveStatus : Type := {
  Vertexes : list Vertex;
  Statuses : list VertexStatus;
  Logs : list VertexLog
}.

Record Config : Type := { Ref : string; Frontend : string }.

Record SolveOpt : Type := {
  Exporter : string;
  ExporterAttrs : list (string * string);
  LocalDirs : list (string * string);
  SolveFrontend : string;
  FrontendAttrs : list (string * string)
}.

(** A nil [Log] is the empty list. *)
Record BuildResult : Type := {
  Log : list string;
  ImageName : string;
  Status : string
}.

(** The response written by the handler; the body is the JSON encoding of
    a [BuildResult] ([json.Marshal]), which stands for itself, or absent. *)
Record Response : Type := {
  StatusCode : Z;
  Body : option BuildResult
}.

Inductive Event : Type :=
| EvTempDir
| EvUntar (dir : string) (noLchown : bool)
| EvReadFile (path : string)
| EvDial (address : string)
| EvSolve (opt : SolveOpt)
| EvRemoveAll (dir : string).

(** What the outside answers for one request: the process environment, the
    file system, the engine (the statuses it sends on the channel before
    [Solve] returns, and the error [Solve] returns), the successive
    readings of the clock, and the formatting of the standard library. *)
Record World : Type := {
  lchownEnabled : bool;
  LookupEnv : string -> option string;
  TempDir : string + string;
  Untar : string -> string -> bool -> option string;
  ReadFile : string -> string + string;
  unmarshalConfig : string -> string + Config;
  ToLower : string -> string;
  clientNew : string -> option string;
  Solve : SolveOpt -> list SolveStatus * option string;
  timeNow : nat -> Time;
  sprintfCompleted : Time -> string -> Time -> string;
  sprintfStarted : Time -> string -> string;
  sprintfStatus : Time -> string -> Z -> string;
  sprintfLog : Time -> string -> string
}.

Definition filepath_Join (dir name : string) : string := dir ++ "/" ++ name.

Section Run.

Variable w : World.

(** The state of the draining task: the log and the number of readings
    of the clock so far. *)
Definition Drain : Type := (BuildLog.buildLog * nat)%type.

(** The line of a vertex; [v.Completed.Sub( *v.Started )] dereferences
    [v.Started], which panics when it is nil. *)
Definition vertexLine (v : Vertex) (tick : nat) : M Event (string * nat) :=
  match Completed v with
  | Some completed =>
      match Started v with
      | Some started => ret (sprintfCompleted w started (VName v) completed, tick)
      | None => panic "invalid memory address or nil pointer dereference"
      end
  | None =>
      match Started v with
      | Some started => ret (sprintfStarted w started (VName v), tick)
      | None => ret (sprintfStarted w (timeNow w tick) (VName v), S tick)
      end
  end.

Fixpoint drainVertexes (vs : list Vertex) (st : Drain) : M Event Drain :=
  match vs with
  | [] => ret st
  | v :: rest =>
      r <- vertexLine v (snd st) ;;
      drainVertexes rest (BuildLog.Append (fst st) (fst r), snd r)
  end.

Fixpoint drainStatuses (ss : list VertexStatus) (st : Drain) : Drain :=
  match ss with
  | [] => st
  | s :: rest =>
      let msg := sprintfStatus w (STimestamp s) (SID s) (Current s) in
      drainStatuses rest (BuildLog.Append (fst st) msg, snd st)
  end.

Fixpoint drainLogs (ls : list VertexLog) (st : Drain) : Drain :=
  match ls with
  | [] => st
  | l :: rest =>
      let msg := sprintfLog w (LTimestamp l) (Data l) in
      drainLogs rest (BuildLog.Append (fst st) msg, snd st)
  end.

(** [for s := range ch]: every status the engine sent is received. *)
Fixpoint drain (ch : list SolveStatus) (st : Drain) : M Event Drain :=
  match ch with
  | [] => ret st
  | s :: rest =>
      st1 <- drainVertexes (Vertexes s) st ;;
      drain rest (drainLogs (Logs s) (drainStatuses (Statuses s) st1))
  end.

(** [build] returns the bytes of a marshalled [BuildResult], or nil, and an
    error.  The two tasks are joined by [eg.Wait()]: the draining task
    returns no error, so the error of the group is the error of [Solve]. *)
Definition build (body : string) : M Event (option BuildResult * option string) :=
  emit EvTempDir ;;
  match TempDir w with
  | inl err => ret (None, Some err)
  | inr tmpdir =>
    defer (EvRemoveAll tmpdir) (
      let noLchown := negb (lchownEnabled w) in
      emit (EvUntar tmpdir noLchown) ;;
      match Untar w body tmpdir noLchown with
      | Some err => ret (None, Some err)
      | None =>
      emit (EvReadFile (filepath_Join tmpdir "config")) ;;
      match ReadFile w (filepath_Join tmpdir "config") with
      | inl err => ret (None, Some err)
      | inr dt =>
      match unmarshalConfig w dt with
      | inl err => ret (None, Some err)
      | inr cfg =>
      if String.eqb (Ref cfg) "" then ret (None, Some "no target reference to push") else
      let cfg :=
        if String.eqb (Frontend cfg) ""
        then {| Ref := Ref cfg; Frontend := "tonistiigi/dockerfile:v0" |} else cfg in
      let insecure :=
        match LookupEnv w "insecure" with
        | Some val => val
        | None => "false"
        end in
      let contextDir := filepath_Join tmpdir "context" in
      let exporterAttrs := [("name", ToLower w (Ref cfg)); ("push", "true")] in
      let solveOpt :=
        {| Exporter := "image";
           ExporterAttrs :=
             if String.eqb insecure "true"
             then (exporterAttrs ++ [("registry.insecure", insecure)])%list
             else exporterAttrs;
           LocalDirs := [("context", contextDir); ("dockerfile", contextDir)];
           SolveFrontend := "dockerfile.v0";
           FrontendAttrs := [("source", Frontend cfg)] |} in
      emit (EvDial "tcp://of-buildkit:1234") ;;
      match clientNew w "tcp://of-buildkit:1234" with
      | Some err => ret (None, Some err)
      | None =>
      emit (EvSolve solveOpt) ;;
      let '(ch, solveErr) := Solve w solveOpt in
      st <- drain ch (BuildLog.empty, 0) ;;
      let build := fst st in
      match solveErr with
      | Some err =>
          ret (Some {| ImageName := Ref cfg;
                       Log := BuildLog.Line build;
                       Status := "failure: " ++ err |}, Some err)
      | None =>
          ret (Some {| ImageName := Ref cfg;
                       Log := BuildLog.Line build;
                       Status := "success" |}, None)
      end
      end
      end
      end
      end)
  end.

Definition buildHandler (body : string) : M Event Response :=
  r <- build body ;;
  let '(dt, err) := r in
  match err with
  | Some e =>
      let dt :=
        match dt with
        | None => Some {| ImageName := "";
                          Log := [];
                          Status := "unexpected failure: " ++ e |}
        | Some _ => dt
        end in
      ret {| StatusCode := 500; Body := dt |}
  | None => ret {| StatusCode := 200; Body := dt |}
  end.

End Run.

(** The number of lines a status of the engine stands for, and the number
    of lines in the log of the draining task. *)
Definition statusCount (s : SolveStatus) : nat :=
  List.length (Vertexes s) + List.length (Statuses s) + List.length (Logs s).

Definition lines (st : Drain) : nat := List.length (BuildLog.Line (fst st)).

(** The result [build] marshals once both tasks are joined. *)
Definition resultOf (cfg : Config) (st : Drain) (solveErr : option string) : BuildResult :=
  {| Log := BuildLog.Line (fst st);
     ImageName := Ref cfg;
     Status := match solveErr with
               | Some err => "failure: " ++ err
               | None => "success"
               end |}.

End Builder.

(** ** Concrete runs

    Worlds on which the handlers are evaluated. *)

Module Sample.

(** The environment of a run of the orchestrator for the repository
    [alexellis/kubecon-tester]. *)
Definition env (key : string) : string :=
  if String.eqb key "builder_url" then "http://of-builder:8080/"
  else if String.eqb key "gateway_url" then "http://gateway:8080/"
  else if String.eqb key "repository_url" then "docker.io/ofcommunity/"
  else if String.eqb key "push_repository_url" then "registry:5000/"
  else if String.eqb key "report_status" then "true"
  else if String.eqb key "github_app_id" then "1109"
  else if String.eqb key "Http_Owner" then "alexellis"
  else if String.eqb key "Http_Repo" then "kubecon-tester"
  else if String.eqb key "Http_Service" then "kubecon-tester"
  else if String.eqb key "Http_Sha" then "abc123"
  else if String.eqb key "Http_Installation_id" then "42"
  else if String.eqb key "Http_Secrets" then "[secret-a]"
  else "".

(** The builder answers [buildBody]; the gateway lists one function and
    accepts the deployment; the token service and the status call succeed. *)
Definition world (buildBody : string) : Handler.World :=
  {| Handler.Getenv := env;
     Handler.unixNow := 1530000000;
     Handler.Atoi := fun _ => (42%Z, None);
     Handler.unmarshalEnv := fun _ => ([], None);
     Handler.unmarshalSecrets := fun _ => (["secret-a"], None);
     Handler.unmarshalFunctions :=
       fun _ => [{| Handler.Name := "alexellis-kubecon-tester" |}];
     Handler.Do := fun method url _ =>
       if String.eqb url "http://of-builder:8080/build"
       then inr {| Handler.Status := "200 OK"; Handler.StatusCode := 200;
                   Handler.Body := buildBody |}
       else if String.eqb method Handler.MethodGet
       then inr {| Handler.Status := "200 OK"; Handler.StatusCode := 200;
                   Handler.Body := "[functions]" |}
       else inr {| Handler.Status := "202 Accepted"; Handler.StatusCode := 202;
                   Handler.Body := "" |};
     Handler.MakeAccessTokenForInstallation := fun _ _ _ => ("v1.token", None);
     Handler.CreateStatus := fun _ _ _ _ _ => None |}.

(** A request to the build service: the configuration found in the archive
    and what the engine does. *)
Definition builder (cfg : Builder.Config)
    (solve : list Builder.SolveStatus * option string) : Builder.World :=
  {| Builder.lchownEnabled := true;
     Builder.LookupEnv := fun _ => None;
     Builder.TempDir := inr "/tmp/buildctx1";
     Builder.Untar := fun _ _ _ => None;
     Builder.ReadFile := fun _ => inr "{config}";
     Builder.unmarshalConfig := fun _ => inr cfg;
     Builder.ToLower := fun s => s;
     Builder.clientNew := fun _ => None;
     Builder.Solve := fun _ => solve;
     Builder.timeNow := fun n => Z.of_nat n;
     Builder.sprintfCompleted := fun _ name _ => "v: " ++ name ++ " 0.50s";
     Builder.sprintfStarted := fun _ name => "v: " ++ name;
     Builder.sprintfStatus := fun _ id _ => "s: " ++ id;
     Builder.sprintfLog := fun _ data => "l: " ++ data |}.

Definition noRef : Builder.Config :=
  {| Builder.Ref := ""; Builder.Frontend := "" |}.

Definition someRef : Builder.Config :=
  {| Builder.Ref := "registry:5000/alexellis/kubecon-tester"; Builder.Frontend := "" |}.

(** The engine sends one status with a started vertex and a log, then fails. *)
Definition failingSolve : list Builder.SolveStatus * option string :=
  ([{| Builder.Vertexes :=
         [{| Builder.VName := "load build definition";
             Builder.Started := Some 10%Z; Builder.Completed := None |}];
       Builder.Statuses := [];
       Builder.Logs :=
         [{| Builder.LVertex := "sha256:1"; Builder.LTimestamp := 11%Z;
             Builder.Data := "step 1/4" |}] |}],
   Some "exit code 2").

End Sample.

(** ** More of the orchestrator: what a run sends *)

Module Run.
Import Eff Handler.

(** The descriptor [Handle] builds for a validated image name. *)
Definition deploymentOf (w : World) (event : eventInfo) (imageName : string) : deployment :=
  let serviceValue := owner event ++ "-" ++ service event in
  let defaultMemoryLimit := Getenv w "default_memory_limit" in
  let defaultMemoryLimit :=
    if (String.length defaultMemoryLimit =? 0)%nat then "20m" else defaultMemoryLimit in
  {| Service := serviceValue;
     Image := getImageName (Getenv w "repository_url") (Getenv w "push_repository_url")
                imageName;
     Network := "func_functions";
     Labels := [("Git-Cloud", "1");
                ("Git-Owner", owner event);
                ("Git-Repo", repository event);
                ("Git-DeployTime", decimal (unixNow w));
                ("Git-SHA", sha event);
                ("faas_function", serviceValue);
                ("app", serviceValue)];
     Limits_ := {| Memory := defaultMemoryLimit |};
     EnvVars := environment event;
     Secrets := secrets event |}.

(** The method of the second request of [deployFunction]. *)
Definition upsertMethod (w : World) (deploy : deployment) (gatewayURL : string) : string :=
  if functionListed (listedFunctions w gatewayURL) (Service deploy)
  then MethodPut else MethodPost.

(** What [deployFunction] returns, from the answer to its second request. *)
Definition deployOutcome (answer : string + Response) : string * option string :=
  match answer with
  | inl err => ("", Some err)
  | inr res =>
      if (StatusCode res <? 200)%Z || (299 <? StatusCode res)%Z
      then ("", Some ("http status code " ++ decimal (StatusCode res)))
      else (Body res, None)
  end.

(** The requests, the audit events and the commit statuses of a run. *)
Definition requests (t : list Event) : list (string * string * Payload) :=
  flat_map (fun e => match e with EvHTTP m u p => [(m, u, p)] | _ => [] end) t.

Definition audits (t : list Event) : list AuditEvent :=
  flat_map (fun e => match e with EvAudit a => [a] | _ => [] end) t.

Definition statuses (t : list Event) : list RepoStatus :=
  flat_map (fun e => match e with EvCreateStatus _ _ _ _ st => [st] | _ => [] end) t.

End Run.

(** ** More of the build service: the lines of the log, the solve request *)

Module Lines.
Import Builder.

(** The line of a vertex whose start time is set. *)
Definition startedLine (w : World) (v : Vertex) : string :=
  match Started v, Completed v with
  | Some started, Some completed => sprintfCompleted w started (VName v) completed
  | Some started, None => sprintfStarted w started (VName v)
  | None, _ => ""
  end.

(** The lines of a status whose vertexes have their start time set, in the
    order in which the draining task appends them. *)
Definition statusLines (w : World) (s : SolveStatus) : list string :=
  (map (startedLine w) (Vertexes s)
   ++ map (fun x => sprintfStatus w (STimestamp x) (SID x) (Current x)) (Statuses s)
   ++ map (fun l => sprintfLog w (LTimestamp l) (Data l)) (Logs s))%list.

Definition allStarted (s : SolveStatus) : Prop :=
  Forall (fun v => Started v <> None) (Vertexes s).

(** A vertex that is completed and has no start time. *)
Definition unstarted (v : Vertex) : Prop :=
  Completed v <> None /\ Started v = None.

(** The solve request [build] submits for a configuration. *)
Definition solveOptOf (w : World) (tmpdir : string) (cfg : Config) : SolveOpt :=
  let insecure :=
    match LookupEnv w "insecure" with
    | Some val => val
    | None => "false"
    end in
  let contextDir := filepath_Join tmpdir "context" in
  {| Exporter := "image";
     ExporterAttrs :=
       ([("name", ToLower w (Ref cfg)); ("push", "true")]
        ++ (if String.eqb insecure "true" then [("registry.insecure", "true")] else []))%list;
     LocalDirs := [("context", contextDir); ("dockerfile", contextDir)];
     SolveFrontend := "dockerfile.v0";
     FrontendAttrs :=
       [("source", if String.eqb (Frontend cfg) ""
                   then "tonistiigi/dockerfile:v0" else Frontend cfg)] |}.

(** The events between the creation and the removal of the directory. *)
Definition scoped (e : Event) : Prop :=
  match e with
  | EvTempDir | EvRemoveAll _ => False
  | _ => True
  end.

End Lines.

(** ** [strconv.Atoi], for an [int] of 64 bits *)

Module Strconv.

Inductive NumError : Type := ErrSyntax | ErrRange.

Definition maxInt : Z := 9223372036854775807.
Definition minInt : Z := -9223372036854775808.

Definition digit (c : ascii) : option Z :=
  let n := nat_of_ascii c in
  if (48 <=? n)%nat && (n <=? 57)%nat then Some (Z.of_nat (n - 48)) else None.

(** The value of a string of decimal digits, from the value [acc] of the
    digits before it. *)
Fixpoint digits (s : string) (acc : Z) : option Z :=
  match s with
  | "" => Some acc
  | String c s' =>
      match digit c with
      | Some d => digits s' (acc * 10 + d)
      | None => None
      end
  end.

(** An optional sign, then decimal digits; a value outside of the range
    of [int] is an error and is replaced by the nearest bound. *)
Definition Atoi (s : string) : Z * option NumError :=
  match s with
  | "" => (0%Z, Some ErrSyntax)
  | String c rest =>
      let neg := Ascii.eqb c "-" in
      let body := if Ascii.eqb c "-" || Ascii.eqb c "+" then rest else s in
      match body with
      | "" => (0%Z, Some ErrSyntax)
      | _ =>
          match digits body 0 with
          | None => (0%Z, Some ErrSyntax)
          | Some n =>
              let v := if neg then (- n)%Z else n in
              if (maxInt <? v)%Z then (maxInt, Some ErrRange)
              else if (v <? minInt)%Z then (minInt, Some ErrRange)
              else (v, None)
          end
      end
  end.

End Strconv.

(** ** The configuration of the router ([router/config.go]) *)

Module Router.

(** [Timeout] is a [time.Duration]: nanoseconds, in 64 bits. *)
Record RouterConfig : Type := {
  Port : string;
  UpstreamURL : string;
  Timeout : Z
}.

(** The process environment and [time.ParseDuration]. *)
Record World : Type := {
  LookupEnv : string -> option string;
  ParseDuration : string -> Z * option string
}.

Definition Getenv (w : World) (key : string) : string :=
  match LookupEnv w key with
  | Some v => v
  | None => ""
  end.

Definition Second : Z := 1000000000.

(** The result of an arithmetic operation on 64-bit integers. *)
Definition wrap64 (z : Z) : Z := ((z + 2 ^ 63) mod 2 ^ 64 - 2 ^ 63)%Z.

Definition parseIntOrDurationValue (w : World) (val : string) (fallback : Z) : Z :=
  let seconds :=
    if (0 <? String.length val)%nat then
      match Strconv.Atoi val with
      | (parsedVal, None) =>
          if (0 <=? parsedVal)%Z then Some (wrap64 (parsedVal * Second)) else None
      | (_, Some _) => None
      end
    else None in
  match seconds with
  | Some d => d
  | None =>
      match ParseDuration w val with
      | (_, Some _) => fallback
      | (duration, None) => duration
      end
  end.

Definition NewRouterConfig (w : World) : RouterConfig :=
  let port :=
    match LookupEnv w "port" with
    | Some portVal => if (0 <? String.length portVal)%nat then portVal else "8080"
    | None => "8080"
    end in
  let upstream :=
    match LookupEnv w "upstream_url" with
    | Some up =>
        if (0 <? String.length up)%nat
        then (if negb (strings_HasSuffix up "/") then up ++ "/" else up)
        else ""
    | None => ""
    end in
  {| Port := port;
     UpstreamURL := upstream;
     Timeout := parseIntOrDurationValue w (Getenv w "timeout") (wrap64 (Second * 60)) |}.

End Router.

(** ** More concrete runs *)

Module Cases.
Import Handler.

(** The environment [env] with [key] set to [value]. *)
Definition setenv (key value : string) (env : string -> string) : string -> string :=
  fun k => if String.eqb k key then value else env k.

(** The sample world with another environment, another [Atoi] and other
    answers over the network. *)
Definition worldOf (env : string -> string)
    (atoi : string -> Z * option string)
    (do : string -> string -> Payload -> string + Response) : World :=
  {| Getenv := env;
     unixNow := unixNow (Sample.world "");
     Atoi := atoi;
     unmarshalEnv := unmarshalEnv (Sample.world "");
     unmarshalSecrets := unmarshalSecrets (Sample.world "");
     unmarshalFunctions := unmarshalFunctions (Sample.world "");
     Do := do;
     MakeAccessTokenForInstallation := MakeAccessTokenForInstallation (Sample.world "");
     CreateStatus := CreateStatus (Sample.world "") |}.

(** The builder cannot be reached. *)
Definition unreachable : World :=
  worldOf Sample.env (Atoi (Sample.world ""))
    (fun _ _ _ => inl "dial tcp: connection refused").

(** The builder answers an image name; the gateway lists the function and
    answers [code] to the deployment. *)
Definition gatewayAnswers (code : Z) : World :=
  worldOf Sample.env (Atoi (Sample.world ""))
    (fun method url _ =>
       if String.eqb url "http://of-builder:8080/build"
       then inr {| Status := "200 OK"; StatusCode := 200;
                   Body := "registry:5000/alexellis/kubecon-tester" |}
       else if String.eqb method MethodGet
       then inr {| Status := "200 OK"; StatusCode := 200; Body := "[functions]" |}
       else inr {| Status := "status"; StatusCode := code; Body := "deployed" |}).

(** The public registry prefix is not set. *)
Definition noRegistry : World :=
  worldOf (setenv "repository_url" "" Sample.env) (Atoi (Sample.world ""))
    (Do (Sample.world "registry:5000/alexellis/kubecon-tester")).

(** The installation id is not a number. *)
Definition badInstallation : World :=
  worldOf (setenv "Http_Installation_id" "forty-two" Sample.env)
    (fun _ => (0%Z, Some "strconv.Atoi: invalid syntax"))
    (Do (Sample.world "registry:5000/alexellis/kubecon-tester")).

(** The status links to the gateway, or to a host per account. *)
Definition publicURL : World :=
  worldOf (setenv "gateway_public_url" "https://gw.example.com" Sample.env)
    (Atoi (Sample.world "")) (Do (Sample.world "")).

Definition prettyURL : World :=
  worldOf (setenv "gateway_pretty_url" "https://user.get-faas.com/function" Sample.env)
    (Atoi (Sample.world "")) (Do (Sample.world "")).

(** The engine completes a build: a completed vertex, a status, a log. *)
Definition completedSolve : list Builder.SolveStatus * option string :=
  ([{| Builder.Vertexes :=
         [{| Builder.VName := "exporting to image";
             Builder.Started := Some 10%Z; Builder.Completed := Some 12%Z |}];
       Builder.Statuses :=
         [{| Builder.SID := "pushing layers"; Builder.SVertex := "sha256:1";
             Builder.STimestamp := 11%Z; Builder.Current := 3%Z |}];
       Builder.Logs :=
         [{| Builder.LVertex := "sha256:1"; Builder.LTimestamp := 11%Z;
             Builder.Data := "done" |}] |}],
   None).

(** The engine sends a vertex that is completed and has no start time. *)
Definition unstartedSolve : list Builder.SolveStatus * option string :=
  ([{| Builder.Vertexes :=
         [{| Builder.VName := "cached";
             Builder.Started := None; Builder.Completed := Some 12%Z |}];
       Builder.Statuses := [];
       Builder.Logs := [] |}],
   None).

(** The environment of the router. *)
Definition router (timeout : string) : Router.World :=
  {| Router.LookupEnv := fun key =>
       if String.eqb key "timeout" then Some timeout
       else if String.eqb key "upstream_url" then Some "http://gateway:8080"
       else None;
     Router.ParseDuration := fun _ => (0%Z, Some "time: invalid duration") |}.

End Cases.

(** ** The orchestrator when a request cannot be built

    [Handler] describes the runs in which [http.NewRequest] returns a
    request.  The code never looks at the error of [http.NewRequest]: when
    the URL does not parse the request is nil, and the first use of it
    (setting a header, [c.Do]) panics.  Here [NewRequest] gives the error,
    if any, for a method and a URL, and the three functions that build a
    request are written out again with it. *)

Module Requests.
Import Eff Handler.
Local Open Scope eff_scope.

Record World : Type := {
  outside : Handler.World;
  NewRequest : string -> string -> option string
}.

Definition nilDereference : string :=
  "invalid memory address or nil pointer dereference".

Section Run.
Variable w : World.

(** The nil request goes to [sdk.AddBasicAuth] and to [c.Do], which
    dereferences it. *)
Definition functionExists (deploy : deployment) (gatewayURL : string)
  : M Event (bool * option string) :=
  match NewRequest w MethodGet (gatewayURL ++ "system/functions") with
  | Some _ => panic nilDereference
  | None =>
      emit (EvHTTP MethodGet (gatewayURL ++ "system/functions") NoBody) ;;
      match Do (outside w) MethodGet (gatewayURL ++ "system/functions") NoBody with
      | inl err => ret (false, Some err)
      | inr res =>
          let functions := unmarshalFunctions (outside w) (Body res) in
          if functionListed functions (Service deploy)
          then ret (true, None)
          else ret (false, None)
      end
  end.

(** [httpReq.Header.Set] dereferences the nil request. *)
Definition deployFunction (deploy : deployment) (gatewayURL : string)
  : M Event (string * option string) :=
  r <- functionExists deploy gatewayURL ;;
  let exists_ := fst r in
  let method := if exists_ then MethodPut else MethodPost in
  match NewRequest w method (gatewayURL ++ "system/functions") with
  | Some _ => panic nilDereference
  | None =>
      emit (EvHTTP method (gatewayURL ++ "system/functions") (JSON deploy)) ;;
      match Do (outside w) method (gatewayURL ++ "system/functions") (JSON deploy) with
      | inl err => ret ("", Some err)
      | inr res =>
          if (StatusCode res <? 200)%Z || (299 <? StatusCode res)%Z
          then ret ("", Some ("http status code " ++ decimal (StatusCode res)))
          else ret (Body res, None)
      end
  end.

(** [r.Header.Set] dereferences the nil request, after the event is read. *)
Definition Handle (req : string) : M Event string :=
  let builderURL := Getenv (outside w) "builder_url" in
  let '(event, eventErr) := getEvent (outside w) in
  match eventErr with Some e => log_Panic e | None => ret tt end ;;
  let auditEvent :=
    {| Message := ""; Owner := owner event; Repo := repository event;
       Source := "buildshiprun" |} in
  match NewRequest w MethodPost (builderURL ++ "build") with
  | Some _ => panic nilDereference
  | None =>
  emit (EvHTTP MethodPost (builderURL ++ "build") (Raw req)) ;;
  match Do (outside w) MethodPost (builderURL ++ "build") (Raw req) with
  | inl err =>
      reportStatus (outside w) "failure" err "BUILD" event ;;
      let auditEvent := setMessage auditEvent ("buildshiprun failure: " ++ err) in
      PostAudit auditEvent ;;
      ret (Message auditEvent)
  | inr res =>
      let buildStatus := Body res in
      let imageName := Trim.TrimSpace buildStatus in
      let repositoryURL := Getenv (outside w) "repository_url" in
      let pushRepositoryURL := Getenv (outside w) "push_repository_url" in
      (if (String.length repositoryURL =? 0)%nat then os_Exit 1 else ret tt) ;;
      (if (String.length pushRepositoryURL =? 0)%nat then os_Exit 1 else ret tt) ;;
      let serviceValue := "" in
      if negb (Image.validImage imageName) then
        let msg := "Unable to build image, check builder logs" in
        reportStatus (outside w) "failure" msg "DEPLOY" event ;;
        log_Fatal msg ;;
        let auditEvent := setMessage auditEvent ("buildshiprun failure: " ++ msg) in
        PostAudit auditEvent ;;
        ret msg
      else
        st <-
          (if (0 <? String.length imageName)%nat then
             let gatewayURL := Getenv (outside w) "gateway_url" in
             let imageName := getImageName repositoryURL pushRepositoryURL imageName in
             let serviceValue := owner event ++ "-" ++ service event in
             let defaultMemoryLimit := Getenv (outside w) "default_memory_limit" in
             let defaultMemoryLimit :=
               if (String.length defaultMemoryLimit =? 0)%nat
               then "20m" else defaultMemoryLimit in
             let deploy :=
               {| Service := serviceValue;
                  Image := imageName;
                  Network := "func_functions";
                  Labels := [("Git-Cloud", "1");
                             ("Git-Owner", owner event);
                             ("Git-Repo", repository event);
                             ("Git-DeployTime", decimal (unixNow (outside w)));
                             ("Git-SHA", sha event);
                             ("faas_function", serviceValue);
                             ("app", serviceValue)];
                  Limits_ := {| Memory := defaultMemoryLimit |};
                  EnvVars := environment event;
                  Secrets := secrets event |} in
             r <- deployFunction deploy gatewayURL ;;
             match snd r with
             | Some err =>
                 reportStatus (outside w) "failure" err "DEPLOY" event ;;
                 log_Fatal err ;;
                 ret (imageName, serviceValue,
                      setMessage auditEvent ("buildshiprun failure: " ++ err))
             | None =>
                 ret (imageName, serviceValue,
                      setMessage auditEvent
                        ("buildshiprun succeeded: deployed " ++ imageName))
             end
           else ret (imageName, serviceValue, auditEvent)) ;;
        let '(imageName, serviceValue, auditEvent) := st in
        PostAudit auditEvent ;;
        reportStatus (outside w) "success"
          ("function successfully deployed as: " ++ serviceValue) "DEPLOY" event ;;
        ret ("buildStatus " ++ buildStatus ++ " " ++ imageName ++ " " ++ Status res)
  end
  end.

End Run.

(** The secret names [getEvent] decodes from [Http_Secrets], before it
    prefixes them. *)
Definition decodedSecrets (w : Handler.World) : list string :=
  let secretsStr := Getenv w "Http_Secrets" in
  if (0 <? String.length secretsStr)%nat
  then fst (unmarshalSecrets w secretsStr)
  else [].

(** The request of a run of [Handle] to the builder, and the URL of its
    requests to the gateway. *)
Definition buildURL (w : World) : string := Getenv (outside w) "builder_url" ++ "build".

Definition functionsURL (w : World) : string :=
  Getenv (outside w) "gateway_url" ++ "system/functions".

(** A run of [Handle] on [req] comes to a request it cannot build: the one
    to the builder, or, once the builder has answered a valid image name
    that is not empty, one of the two requests of the deployment. *)
Definition unbuildable (w : World) (req : string) : Prop :=
  NewRequest w MethodPost (buildURL w) <> None \/
  exists res,
    NewRequest w MethodPost (buildURL w) = None /\
    Do (outside w) MethodPost (buildURL w) (Raw req) = inr res /\
    Getenv (outside w) "repository_url" <> "" /\
    Getenv (outside w) "push_repository_url" <> "" /\
    Image.validImage (Trim.TrimSpace (Body res)) = true /\
    Trim.TrimSpace (Body res) <> "" /\
    let deploy :=
      Run.deploymentOf (outside w) (fst (getEvent (outside w)))
        (Trim.TrimSpace (Body res)) in
    (NewRequest w MethodGet (functionsURL w) <> None \/
     NewRequest w (Run.upsertMethod (outside w) deploy (Getenv (outside w) "gateway_url"))
       (functionsURL w) <> None).

(** Every request can be built. *)
Definition built (w : Handler.World) : World :=
  {| outside := w; NewRequest := fun _ _ => None |}.

(** No request to a URL that starts with [bad] can be built. *)
Definition unparseable (bad : string) (w : Handler.World) : World :=
  {| outside := w;
     NewRequest := fun _ url =>
       if prefix bad url then Some "parse: invalid URL" else None |}.

End Requests.

(** ** The receiver of the events of the GitHub app ([github-event]) *)

Module GithubEvent.
Import Eff.
Local Open Scope eff_scope.

(** Source name for this function when auditing *)
Definition Source : string := "github-event".

Record GarbageRequest : Type := {
  Functions : list string;
  Repo : string;
  Owner : string
}.

Record Installation : Type := {
  Name : string;
  FullName : string
}.

(** [Login] is [Installation.Account.Login]. *)
Record InstallationRepositoriesEvent : Type := {
  Action : string;
  Login : string;
  RepositoriesRemoved : list Installation;
  RepositoriesAdded : list Installation;
  Repositories : list Installation
}.

(** An answer over HTTP: the status code, the bytes read from the body and
    the error of the read, if any. *)
Record Response : Type := {
  StatusCode : Z;
  Body : string;
  ReadErr : option string
}.

(** What a run does to the outside: audit events and HTTP requests, with
    their headers and their body.  The headers are listed in the order in
    which the code names them; the header set of a request has no order. *)
Inductive Event : Type :=
| EvAudit (e : Handler.AuditEvent)
| EvHTTP (method url : string) (headers : list (string * string)) (body : option string).

(** The environment of a run: the process environment, the switches and
    the secrets of the [sdk] package with its name of the signature header,
    the [hmac] package, the decoders and the encoder of [encoding/json],
    [http.NewRequest] (the error for a URL), the answers to the requests,
    the Unicode functions of [strings], and the text [fmt.Errorf] makes of a
    format without operands.  An error is the left injection. *)
Record World : Type := {
  Getenv : string -> string;
  ValidateCustomers : bool;
  HmacEnabled : bool;
  ReadSecret : string -> string + string;
  CloudSignatureHeader : string;
  hmac_Validate : string -> string -> string -> option string;
  hmac_Sign : string -> string -> string;
  hex_EncodeToString : string -> string;
  unmarshalCustomer : string -> string + string;
  unmarshalEvent : string -> string + InstallationRepositoriesEvent;
  marshalGarbageRequest : GarbageRequest -> string;
  NewRequest : string -> option string;
  Do : string -> string -> list (string * string) -> option string -> string + Response;
  ToLower : string -> string;
  EqualFold : string -> string -> bool;
  Errorf : string -> string
}.

Definition LF : ascii := "010"%char.
Definition CR : string := String "013"%char "".

(** [strings.Split(s, sep)] for a separator of one byte. *)
Fixpoint strings_Split (s : string) (sep : ascii) : list string :=
  match s with
  | "" => [""]
  | String c s' =>
      if Ascii.eqb c sep then "" :: strings_Split s' sep
      else match strings_Split s' sep with
           | line :: rest => String c line :: rest
           | [] => [String c ""]
           end
  end.

Definition strings_TrimSuffix (s suffix : string) : string :=
  if strings_HasSuffix s suffix
  then Str.take (String.length s - String.length suffix) s
  else s.

Section Run.
Variable w : World.

(** [sdk.PostAudit] *)
Definition PostAudit (e : Handler.AuditEvent) : M Event unit := emit (EvAudit e).

Definition signature (body payloadSecret : string) : string * string :=
  (CloudSignatureHeader w, "sha1=" ++ hex_EncodeToString w (hmac_Sign w body payloadSecret)).

(** The loop of [garbageCollect].  The request is used without a look at
    the error of [http.NewRequest]: when there is one the request is nil and
    adding the header panics. *)
Fixpoint garbageCollect_each (gatewayURL payloadSecret : string) (garbageRequests : list GarbageRequest)
  : M Event (option string) :=
  match garbageRequests with
  | [] => ret None
  | garbageRequest :: rest =>
      let body := marshalGarbageRequest w garbageRequest in
      let url := gatewayURL ++ "async-function/garbage-collect" in
      match NewRequest w url with
      | Some _ => panic "invalid memory address or nil pointer dereference"
      | None =>
          let headers := [signature body payloadSecret] in
          emit (EvHTTP Handler.MethodPost url headers (Some body)) ;;
          match Do w Handler.MethodPost url headers (Some body) with
          | inl err => ret (Some err)
          | inr res => garbageCollect_each gatewayURL payloadSecret rest
          end
      end
  end.

Definition garbageCollect (garbageRequests : list GarbageRequest) : M Event (option string) :=
  let gatewayURL := Getenv w "gateway_url" in
  match ReadSecret w "payload-secret" with
  | inl err => ret (Some err)
  | inr payloadSecret => garbageCollect_each gatewayURL payloadSecret garbageRequests
  end.

Definition forward (req function : string) (headers : list (string * string))
  : M Event (string * Z * option string) :=
  match ReadSecret w "payload-secret" with
  | inl err => ret ("", 500%Z, Some err)
  | inr payloadSecret =>
      let url := Getenv w "gateway_url" ++ "function/" ++ function in
      match NewRequest w url with
      | Some _ => panic "invalid memory address or nil pointer dereference"
      | None =>
          let headers := signature req payloadSecret :: headers in
          emit (EvHTTP Handler.MethodPost url headers (Some req)) ;;
          match Do w Handler.MethodPost url headers (Some req) with
          | inl err =>
              let msg := "cannot post to " ++ function ++ ": " ++ err in
              let auditEvent :=
                {| Handler.Message := msg; Handler.Owner := ""; Handler.Repo := "";
                   Handler.Source := Source |} in
              PostAudit auditEvent ;;
              ret ("", 500%Z, Some (Errorf w msg))
          | inr res =>
              let body := Body res in
              let err :=
                if negb (StatusCode res =? 200)%Z then Some (Errorf w body) else None in
              ret (body, StatusCode res, err)
          end
      end
  end.

Definition validCustomer (customers : list string) (owner : string) : bool :=
  existsb (fun customer => (0 <? String.length customer)%nat && EqualFold w customer owner)
    customers.

(** [getCustomers] reads a list of customers separated by new lines. *)
Definition getCustomers (customerURL : string) : M Event (list string * option string) :=
  if (String.length customerURL =? 0)%nat then ret ([], Some "customerURL was nil")
  else
    match NewRequest w customerURL with
    | Some reqErr =>
        ret ([], Some ("Error while making the request to `" ++ customerURL ++ "` : "
                       ++ reqErr))
    | None =>
        emit (EvHTTP Handler.MethodGet customerURL [] None) ;;
        match Do w Handler.MethodGet customerURL [] None with
        | inl reqErr => ret ([], Some ("Error while requesting customers: " ++ reqErr))
        | inr res =>
            match ReadErr res with
            | Some readErr =>
                ret ([], Some ("Error while reading response body for customers: "
                               ++ readErr))
            | None =>
                ret (map (fun c => ToLower w (strings_TrimSuffix c CR))
                       (strings_Split (Body res) LF), None)
            end
        end
    end.

(** The names of the repositories, each followed by a comma and a space. *)
Definition fullNames (addedVal : string) (repos : list Installation) : string :=
  fold_left (fun addedVal added => addedVal ++ FullName added ++ ", ") repos addedVal.

(** [Handle]: a block that returns from the function yields [Some] of the
    value returned, one that falls through yields [None]. *)
Definition Handle (req : string) : M Event string :=
  let eventHeader := Getenv w "Http_X_Github_Event" in
  let xHubSignature := Getenv w "Http_X_Hub_Signature" in
  if negb (String.eqb eventHeader "push") &&
     negb (String.eqb eventHeader "installation_repositories") &&
     negb (String.eqb eventHeader "integration_installation") &&
     negb (String.eqb eventHeader "installation")
  then
    let auditEvent :=
      {| Handler.Message := "bad event: " ++ eventHeader; Handler.Owner := "";
         Handler.Repo := ""; Handler.Source := Source |} in
    PostAudit auditEvent ;;
    ret (Source ++ " cannot handle event: " ++ eventHeader)
  else
    returned <-
      (if ValidateCustomers w then
         let customersURL := Getenv w "customers_url" in
         r <- getCustomers customersURL ;;
         let '(customers, getErr) := r in
         match getErr with
         | Some e => ret (Some e)
         | None =>
             match unmarshalCustomer w req with
             | inl unmarshalErr =>
                 ret (Some ("Error while un-marshaling customers: " ++ unmarshalErr))
             | inr login =>
                 if negb (validCustomer customers login) then
                   let auditEvent :=
                     {| Handler.Message := "Customer not found"; Handler.Owner := login;
                        Handler.Repo := ""; Handler.Source := Source |} in
                   PostAudit auditEvent ;;
                   ret (Some ("Customer: " ++ login ++ " not found in CUSTOMERS file via "
                              ++ customersURL))
                 else ret None
             end
         end
       else ret None) ;;
    match returned with
    | Some out => ret out
    | None =>
        if String.eqb eventHeader "push" then
          let headers :=
            [("X-Hub-Signature", xHubSignature);
             ("X-GitHub-Event", eventHeader);
             ("Content-Type", "application/json")] in
          r <- forward req "github-push" headers ;;
          let '(body, statusCode, err) := r in
          if (statusCode =? 200)%Z
          then ret ("Forwarded to function: " ++ decimal statusCode ++ ", " ++ body)
          else match err with
               | Some e => ret e
               | None => ret body
               end
        else
          returned <-
            (if String.eqb eventHeader "installation" ||
                String.eqb eventHeader "installation_repositories" ||
                String.eqb eventHeader "integration_installation"
             then
               returned <-
                 (if HmacEnabled w then
                    match ReadSecret w "github-webhook-secret" with
                    | inl secretErr => ret (Some secretErr)
                    | inr webhookSecretKey =>
                        match hmac_Validate w req xHubSignature webhookSecretKey with
                        | Some validateErr => log_Fatal validateErr ;; ret None
                        | None => ret None
                        end
                    end
                  else ret None) ;;
               match returned with
               | Some out => ret (Some out)
               | None =>
                   match unmarshalEvent w req with
                   | inl err => ret (Some err)
                   | inr event =>
                       (if String.eqb (Action event) "created" ||
                           String.eqb (Action event) "added"
                        then
                          let addedVal := "" in
                          let addedVal := fullNames addedVal (RepositoriesAdded event) in
                          let addedVal := fullNames addedVal (Repositories event) in
                          let auditEvent :=
                            {| Handler.Message :=
                                 Login event ++ " added repositories: " ++ addedVal;
                               Handler.Owner := ""; Handler.Repo := "";
                               Handler.Source := Source |} in
                          PostAudit auditEvent
                        else if String.eqb (Action event) "removed" then
                          let garbageRequests :=
                            map (fun repo =>
                                   {| Owner := Login event; Repo := Name repo;
                                      Functions := [] |})
                                (RepositoriesRemoved event) in
                          garbageCollect garbageRequests ;; ret tt
                        else if String.eqb (Action event) "deleted" then
                          let owner := Login event in
                          let garbageRequests :=
                            [{| Owner := owner; Repo := "*"; Functions := [] |}] in
                          garbageCollect garbageRequests ;; ret tt
                        else ret tt) ;;
                       ret None
                   end
               end
             else ret None) ;;
          match returned with
          | Some out => ret out
          | None => ret ("Message received with event: " ++ eventHeader)
          end
    end.

End Run.

End GithubEvent.

(** ** The blocks of the receiver and what a run may send *)

Module Receiver.
Import Eff GithubEvent.
Local Open Scope eff_scope.

(** The customers [getCustomers] makes of an answer. *)
Definition customersOf (w : World) (res : Response) : list string :=
  map (fun c => ToLower w (strings_TrimSuffix c CR)) (strings_Split (Body res) LF).

(** The block of [Handle] that checks the sender against the customers. *)
Definition checkCustomer (w : World) (req : string) : M Event (option string) :=
  if ValidateCustomers w then
    let customersURL := Getenv w "customers_url" in
    r <- getCustomers w customersURL ;;
    let '(customers, getErr) := r in
    match getErr with
    | Some e => ret (Some e)
    | None =>
        match unmarshalCustomer w req with
        | inl unmarshalErr =>
            ret (Some ("Error while un-marshaling customers: " ++ unmarshalErr))
        | inr login =>
            if negb (validCustomer w customers login) then
              let auditEvent :=
                {| Handler.Message := "Customer not found"; Handler.Owner := login;
                   Handler.Repo := ""; Handler.Source := Source |} in
              PostAudit auditEvent ;;
              ret (Some ("Customer: " ++ login ++ " not found in CUSTOMERS file via "
                         ++ customersURL))
            else ret None
        end
    end
  else ret None.

(** The headers of a forwarded push event. *)
Definition pushHeaders (w : World) : list (string * string) :=
  [("X-Hub-Signature", Getenv w "Http_X_Hub_Signature");
   ("X-GitHub-Event", Getenv w "Http_X_Github_Event");
   ("Content-Type", "application/json")].

(** The block of [Handle] for a push event. *)
Definition onPush (w : World) (req : string) : M Event string :=
  r <- forward w req "github-push" (pushHeaders w) ;;
  let '(body, statusCode, err) := r in
  if (statusCode =? 200)%Z
  then ret ("Forwarded to function: " ++ decimal statusCode ++ ", " ++ body)
  else match err with
       | Some e => ret e
       | None => ret body
       end.

(** The block of [Handle] that checks the signature of an installation
    event. *)
Definition checkHmac (w : World) (req : string) : M Event (option string) :=
  if HmacEnabled w then
    match ReadSecret w "github-webhook-secret" with
    | inl secretErr => ret (Some secretErr)
    | inr webhookSecretKey =>
        match hmac_Validate w req (Getenv w "Http_X_Hub_Signature") webhookSecretKey with
        | Some validateErr => log_Fatal validateErr ;; ret None
        | None => ret None
        end
    end
  else ret None.

(** The garbage requests of an installation event. *)
Definition garbageOf (event : InstallationRepositoriesEvent) : list GarbageRequest :=
  if String.eqb (Action event) "removed" then
    map (fun repo => {| Owner := Login event; Repo := Name repo; Functions := [] |})
      (RepositoriesRemoved event)
  else if String.eqb (Action event) "deleted" then
    [{| Owner := Login event; Repo := "*"; Functions := [] |}]
  else [].

(** The [switch] of [Handle] on the action of an installation event. *)
Definition onAction (w : World) (event : InstallationRepositoriesEvent) : M Event unit :=
  if String.eqb (Action event) "created" || String.eqb (Action event) "added" then
    PostAudit
      {| Handler.Message :=
           Login event ++ " added repositories: "
           ++ fullNames (fullNames "" (RepositoriesAdded event)) (Repositories event);
         Handler.Owner := ""; Handler.Repo := ""; Handler.Source := Source |}
  else if String.eqb (Action event) "removed" then
    garbageCollect w
      (map (fun repo => {| Owner := Login event; Repo := Name repo; Functions := [] |})
         (RepositoriesRemoved event)) ;;
    ret tt
  else if String.eqb (Action event) "deleted" then
    garbageCollect w [{| Owner := Login event; Repo := "*"; Functions := [] |}] ;; ret tt
  else ret tt.

(** The block of [Handle] for an installation event. *)
Definition onInstallation (w : World) (req : string) : M Event (option string) :=
  returned <- checkHmac w req ;;
  match returned with
  | Some out => ret (Some out)
  | None =>
      match unmarshalEvent w req with
      | inl err => ret (Some err)
      | inr event => onAction w event ;; ret None
      end
  end.

Definition installationEvent (eventHeader : string) : bool :=
  String.eqb eventHeader "installation" ||
  String.eqb eventHeader "installation_repositories" ||
  String.eqb eventHeader "integration_installation".

Definition knownEvent (eventHeader : string) : bool :=
  String.eqb eventHeader "push" || installationEvent eventHeader.

(** The request [garbageCollect] sends for a garbage request. *)
Definition collectRequest (w : World) (payloadSecret : string) (g : GarbageRequest) : Event :=
  EvHTTP Handler.MethodPost (Getenv w "gateway_url" ++ "async-function/garbage-collect")
    [signature w (marshalGarbageRequest w g) payloadSecret]
    (Some (marshalGarbageRequest w g)).

(** The request [forward] sends for a push event. *)
Definition pushRequest (w : World) (payloadSecret req : string) : Event :=
  EvHTTP Handler.MethodPost (Getenv w "gateway_url" ++ "function/github-push")
    (signature w req payloadSecret :: pushHeaders w) (Some req).

(** The answer to a garbage request is an error of the transport. *)
Definition refused (w : World) (payloadSecret : string) (g : GarbageRequest) : Prop :=
  exists err,
    Do w Handler.MethodPost (Getenv w "gateway_url" ++ "async-function/garbage-collect")
      [signature w (marshalGarbageRequest w g) payloadSecret]
      (Some (marshalGarbageRequest w g)) = inl err.

(** The sender of the event is a customer, when customers are validated. *)
Definition accepted (w : World) (req : string) : Prop :=
  ValidateCustomers w = true ->
  exists res login,
    Do w Handler.MethodGet (Getenv w "customers_url") [] None = inr res /\
    ReadErr res = None /\
    unmarshalCustomer w req = inr login /\
    validCustomer w (customersOf w res) login = true.

(** The signature of the event is valid, when signatures are checked. *)
Definition validated (w : World) (req : string) : Prop :=
  HmacEnabled w = true ->
  exists webhookSecretKey,
    ReadSecret w "github-webhook-secret" = inr webhookSecretKey /\
    hmac_Validate w req (Getenv w "Http_X_Hub_Signature") webhookSecretKey = None.

(** What a request of a run of [Handle] on [req] can be: the read of the
    customers, the push event forwarded, or a garbage request of the
    installation event. *)
Definition expected (w : World) (req : string) (e : Event) : Prop :=
  match e with
  | EvAudit _ => True
  | EvHTTP method url headers body =>
      (method = Handler.MethodGet /\ ValidateCustomers w = true /\
       url = Getenv w "customers_url" /\ headers = [] /\ body = None) \/
      (accepted w req /\
       exists payloadSecret,
         ReadSecret w "payload-secret" = inr payloadSecret /\
         ((Getenv w "Http_X_Github_Event" = "push" /\ e = pushRequest w payloadSecret req) \/
          (installationEvent (Getenv w "Http_X_Github_Event") = true /\
           validated w req /\
           exists event g,
             unmarshalEvent w req = inr event /\
             In g (garbageOf event) /\
             e = collectRequest w payloadSecret g)))
  end.

End Receiver.

(** ** Concrete events of the GitHub app *)

Module Hooks.
Import GithubEvent.

Definition env (eventHeader key : string) : string :=
  if String.eqb key "Http_X_Github_Event" then eventHeader
  else if String.eqb key "Http_X_Hub_Signature" then "sha1=5e9c"
  else if String.eqb key "gateway_url" then "http://gateway:8080/"
  else if String.eqb key "customers_url" then "https://example.com/CUSTOMERS"
  else "".

(** Two repositories are removed from the installation of [alexellis]. *)
Definition removed : InstallationRepositoriesEvent :=
  {| Action := "removed";
     Login := "alexellis";
     RepositoriesRemoved :=
       [{| Name := "kubecon-tester"; FullName := "alexellis/kubecon-tester" |};
        {| Name := "fn2"; FullName := "alexellis/fn2" |}];
     RepositoriesAdded := [];
     Repositories := [] |}.

(** The file of the customers: two lines, the first one ended by CR LF. *)
Definition customers : string :=
  "alexellis" ++ CR ++ String LF ("rgee0" ++ String LF "").

(** An event of kind [eventHeader] sent by [login]; [validate] switches the
    validation of the customers on, [genuine] tells whether the signature of
    the event is valid, and [gateway] is what the requests to the gateway are
    answered. *)
Definition world (eventHeader : string) (validate genuine : bool) (login : string)
    (gateway : string + Response) : World :=
  {| Getenv := env eventHeader;
     ValidateCustomers := validate;
     HmacEnabled := true;
     ReadSecret := fun name => inr ("secret of " ++ name);
     CloudSignatureHeader := "X-Cloud-Signature";
     hmac_Validate := fun _ _ _ => if genuine then None else Some "invalid hmac";
     hmac_Sign := fun body key => "digest";
     hex_EncodeToString := fun digest => digest;
     unmarshalCustomer := fun _ => inr login;
     unmarshalEvent := fun _ => inr removed;
     marshalGarbageRequest := fun g => Owner g ++ "/" ++ Repo g;
     NewRequest := fun _ => None;
     Do := fun method _ _ _ =>
       if String.eqb method Handler.MethodGet
       then inr {| StatusCode := 200; Body := customers; ReadErr := None |}
       else gateway;
     ToLower := fun s => s;
     EqualFold := String.eqb;
     Errorf := fun format => format |}.

Definition accepted202 : string + Response :=
  inr {| StatusCode := 202; Body := ""; ReadErr := None |}.

End Hooks.

(** * Properties *)

Module StrFacts.
Import Str.

Lemma append_nil_r (s : string) : s ++ "" = s.
Proof. induction s as [|c s IH]; simpl; [reflexivity | now rewrite IH]. Qed.

Lemma append_assoc (a b c : string) : (a ++ b) ++ c = a ++ (b ++ c).
Proof. induction a as [|x a IH]; simpl; [reflexivity | now rewrite IH]. Qed.

Lemma length_append (a b : string) :
  String.length (a ++ b) = String.length a + String.length b.
Proof. induction a as [|x a IH]; simpl; [reflexivity | now rewrite IH]. Qed.

Lemma length_zero (s : string) : String.length s = 0 -> s = "".
Proof. destruct s; simpl; [reflexivity | discriminate]. Qed.

Lemma length_take (n : nat) (s : string) :
  String.length (take n s) = Nat.min n (String.length s).
Proof.
  unfold take. revert n.
  induction s as [|c s IH]; intros [|n]; simpl; try reflexivity.
  now rewrite IH.
Qed.

Lemma take_all (s : string) : take (String.length s) s = s.
Proof. unfold take. induction s as [|c s IH]; simpl; [reflexivity | now rewrite IH]. Qed.

Lemma drop_append (a b : string) : drop (String.length a) (a ++ b) = b.
Proof. induction a as [|x a IH]; simpl; [now destruct b | exact IH]. Qed.

Lemma prefix_append (a b : string) : prefix a (a ++ b) = true.
Proof.
  induction a as [|x a IH]; simpl; [now destruct b |].
  destruct (ascii_dec x x) as [_|N]; [exact IH | now elim N].
Qed.

Lemma mem_append (c : ascii) (a b : string) : mem c (a ++ b) = mem c a || mem c b.
Proof. induction a as [|x a IH]; simpl; [reflexivity | now rewrite IH, orb_assoc]. Qed.

End StrFacts.

(** ** The backtracking matcher *)

Module RegexpFacts.
Import Str StrFacts Regexp.

Lemma ascii_forall (P : ascii -> bool) :
  forallb P all_ascii = true -> forall c, P c = true.
Proof.
  intros H c. rewrite forallb_forall in H. apply H.
  unfold all_ascii. rewrite <- (ascii_nat_embedding c).
  apply in_map, in_seq. pose proof (nat_ascii_bounded c). lia.
Qed.

(** *** Soundness: what the matcher accepts is a match *)

Section Sound.

Variable r : regex.
Hypothesis step_sound : forall s (k : cont) y,
  bt r s k = Some y ->
  exists u rest, s = u ++ rest /\ matches r u /\ k rest = Some y.

Lemma star_loop_sound (k : cont) n : forall s y,
  star_loop (bt r) k n s = Some y ->
  exists u rest, s = u ++ rest /\ matches (Star r) u /\ k rest = Some y.
Proof.
  induction n as [|n IH]; intros s y H; simpl in H.
  - exists "", s. repeat split; [constructor | exact H].
  - destruct (bt r s _) as [x|] eqn:E.
    + injection H as ->.
      apply step_sound in E. destruct E as (u & rest & -> & Hu & Hk).
      destruct (String.length rest <? String.length (u ++ rest))%nat; [|discriminate].
      apply IH in Hk. destruct Hk as (u' & rest' & -> & Hu' & Hk).
      exists (u ++ u'), rest'. rewrite append_assoc.
      repeat split; [now constructor | exact Hk].
    + exists "", s. repeat split; [constructor | exact H].
Qed.

End Sound.

Lemma bt_sound (r : regex) : forall s (k : cont) y,
  bt r s k = Some y ->
  exists u rest, s = u ++ rest /\ matches r u /\ k rest = Some y.
Proof.
  induction r as [rs|x|r1 IH1 r2 IH2|r IH|r IH|r IH]; intros s k y H; simpl in H.
  - destruct s as [|c s]; [discriminate|].
    destruct (class_mem rs c) eqn:E; [|discriminate].
    exists (String c ""), s. repeat split; [now constructor | exact H].
  - destruct s as [|c s]; [discriminate|].
    destruct (Ascii.eqb c x) eqn:E; [|discriminate].
    apply Ascii.eqb_eq in E. subst c.
    exists (String x ""), s. repeat split; [constructor | exact H].
  - apply IH1 in H. destruct H as (u1 & rest1 & -> & Hu1 & H).
    apply IH2 in H. destruct H as (u2 & rest2 & -> & Hu2 & H).
    exists (u1 ++ u2), rest2. rewrite append_assoc.
    repeat split; [now constructor | exact H].
  - now apply (star_loop_sound IH) in H.
  - apply IH in H. destruct H as (u1 & rest1 & -> & Hu1 & H).
    apply (star_loop_sound IH) in H. destruct H as (u2 & rest2 & -> & Hu2 & H).
    exists (u1 ++ u2), rest2. rewrite append_assoc.
    repeat split; [now constructor | exact H].
  - destruct (bt r s k) as [x|] eqn:E.
    + injection H as ->. apply IH in E. destruct E as (u & rest & -> & Hu & Hk).
      exists u, rest. repeat split; [now constructor | exact Hk].
    + exists "", s. repeat split; [constructor | exact H].
Qed.

(** *** Static information *)

Lemma matches_first (r : regex) (u : string) :
  matches r u ->
  match u with
  | "" => nullable r = true
  | String c _ => first r c = true
  end.
Proof.
  induction 1 as [rs c H|c|r1 r2 s1 s2 _ IH1 _ IH2| r |r s1 s2 _ IH1 _ IH2
                 |r s1 s2 _ IH1 _ IH2|r|r s _ IH]; simpl in *;
    try reflexivity; try assumption.
  - apply Ascii.eqb_refl.
  - destruct s1 as [|c s1]; simpl.
    + destruct s2; rewrite IH1; simpl; [now rewrite IH2 | now rewrite IH2, orb_true_r].
    + now rewrite IH1.
  - destruct s1 as [|c s1]; simpl; [destruct s2; [reflexivity | exact IH2] | exact IH1].
  - destruct s1 as [|c s1]; simpl; [destruct s2; [exact IH1 | exact IH2] | exact IH1].
  - destruct s; [reflexivity | exact IH].
Qed.

Lemma matches_alphabet (r : regex) (u : string) (c : ascii) :
  matches r u -> mem c u = true -> alphabet r c = true.
Proof.
  induction 1 as [rs x H|x|r1 r2 s1 s2 _ IH1 _ IH2| r |r s1 s2 _ IH1 _ IH2
                 |r s1 s2 _ IH1 _ IH2|r|r s _ IH]; simpl in *;
    rewrite ?mem_append, ?orb_false_r; intros E; try discriminate; auto.
  - apply Ascii.eqb_eq in E. now subst.
  - apply orb_true_iff. apply orb_true_iff in E. destruct E; auto.
  - apply orb_true_iff in E. destruct E; auto.
  - apply orb_true_iff in E. destruct E; auto.
Qed.

Lemma matches_needs (r : regex) (u : string) (c : ascii) :
  matches r u -> needs r c = true -> mem c u = true.
Proof.
  induction 1 as [rs x H|x|r1 r2 s1 s2 _ IH1 _ IH2| r |r s1 s2 _ IH1 _ IH2
                 |r s1 s2 _ IH1 _ IH2|r|r s _ IH]; simpl in *;
    rewrite ?mem_append, ?orb_false_r; intros E; try discriminate; auto.
  - apply orb_true_iff. apply orb_true_iff in E. destruct E; auto.
  - apply orb_true_iff. auto.
Qed.

Lemma matches_nonempty (r : regex) (u : string) :
  nullable r = false -> matches r u -> u <> "".
Proof.
  intros N H ->. apply matches_first in H. congruence.
Qed.

(** The matcher fails on a text that no match of [r] can start. *)
Lemma bt_fails (r : regex) (s : string) (k : cont) :
  nullable r = false -> next (fun c => negb (first r c)) s -> bt r s k = None.
Proof.
  intros N H. destruct (bt r s k) as [y|] eqn:E; [exfalso | reflexivity].
  apply bt_sound in E. destruct E as (u & rest & -> & Hu & _).
  apply matches_first in Hu. destruct u as [|c u]; simpl in H; [congruence|].
  rewrite Hu in H. discriminate.
Qed.

Lemma ascii_impl (P Q : ascii -> bool) :
  forallb (fun c => implb (P c) (Q c)) all_ascii = true ->
  forall c, P c = true -> Q c = true.
Proof.
  intros H c Hp. pose proof (ascii_forall _ H c) as E. simpl in E.
  now rewrite Hp in E.
Qed.

Lemma ascii_excl (P Q : ascii -> bool) :
  forallb (fun c => implb (P c) (negb (Q c))) all_ascii = true ->
  forall c, P c = true -> Q c = false.
Proof.
  intros H c Hp. apply negb_true_iff. revert c Hp. now apply ascii_impl.
Qed.

Lemma next_weaken (Q Q' : ascii -> bool) (s : string) :
  (forall c, Q c = true -> Q' c = true) -> next Q s -> next Q' s.
Proof. destruct s; simpl; auto. Qed.

Lemma next_append_nonnull (r : regex) (Q1 : ascii -> bool) (u rest : string) :
  matches r u -> nullable r = false ->
  (forall c, first r c = true -> Q1 c = true) ->
  next Q1 (u ++ rest).
Proof.
  intros Hu N Hf. apply matches_first in Hu.
  destruct u as [|c u]; simpl; [congruence | now apply Hf].
Qed.

Lemma next_append (r : regex) (Q1 Q : ascii -> bool) (u rest : string) :
  matches r u ->
  (forall c, first r c = true -> Q1 c = true) ->
  (nullable r = true -> forall c, Q c = true -> Q1 c = true) ->
  next Q rest -> next Q1 (u ++ rest).
Proof.
  intros Hu Hf Hn Hrest. apply matches_first in Hu.
  destruct u as [|c u]; simpl; [|now apply Hf].
  destruct rest as [|c rest]; simpl in *; [exact I | now apply Hn].
Qed.

(** *** Priority: when the first match the matcher tries is the one at hand *)

Lemma commits_weaken (r : regex) (B B' : string -> Prop) :
  commits r B -> (forall s, B' s -> B s) -> commits r B'.
Proof. intros H W u rest k z Hu Hb Hk. apply H; auto. Qed.

Lemma commits_class rs (B : string -> Prop) : commits (Class rs) B.
Proof.
  intros u rest k z Hu _ Hk. inversion Hu as [rs' c Hc| | | | | | |]; subst.
  simpl. now rewrite Hc.
Qed.

Lemma commits_lit x (B : string -> Prop) : commits (Lit x) B.
Proof.
  intros u rest k z Hu _ Hk. inversion Hu; subst.
  simpl. now rewrite Ascii.eqb_refl.
Qed.

Lemma commits_cat r1 r2 (B1 B : string -> Prop) :
  commits r1 B1 -> commits r2 B ->
  (forall u rest, matches r2 u -> B rest -> B1 (u ++ rest)) ->
  commits (Cat r1 r2) B.
Proof.
  intros H1 H2 Hside u rest k z Hu Hb Hk.
  inversion Hu as [| |r1' r2' s1 s2 Hs1 Hs2| | | | |]; subst.
  simpl. rewrite append_assoc. apply H1; auto.
Qed.

Section Loop.

Variables (r : regex) (B1 B : string -> Prop).
Hypothesis body_commits : commits r B1.
Hypothesis body_fails : fails_at r B.
Hypothesis body_nonempty : nullable r = false.
Hypothesis body_next : forall u rest, matches (Star r) u -> B rest -> B1 (u ++ rest).

Lemma star_loop_commits (u : string) :
  matches (Star r) u ->
  forall rest (k : cont) z n,
    B rest -> k rest = Some z -> String.length (u ++ rest) <= n ->
    star_loop (bt r) k n (u ++ rest) = Some z.
Proof.
  intros Hu. remember (Star r) as sr eqn:E.
  induction Hu as [| | | r' |r' s1 s2 Hs1 _ Hs2 IH| | |]; try discriminate;
    injection E as ->; intros rest k z n Hb Hk Hn.
  - simpl. destruct n as [|n]; simpl; [exact Hk|].
    now rewrite body_fails.
  - pose proof (matches_nonempty body_nonempty Hs1) as Hne.
    rewrite append_assoc in *. rewrite length_append in Hn.
    destruct n as [|n]; [destruct s1; [now elim Hne | simpl in Hn; lia]|].
    assert (L : (String.length (s2 ++ rest) <? String.length (s1 ++ s2 ++ rest))%nat = true).
    { apply Nat.ltb_lt. rewrite (length_append s1).
      destruct s1; [now elim Hne | simpl; lia]. }
    simpl.
    match goal with
    | |- match ?e with _ => _ end = _ => assert (X : e = Some z)
    end.
    { apply body_commits; auto. rewrite L. apply IH; auto.
      destruct s1; [now elim Hne | simpl in Hn; lia]. }
    now rewrite X.
Qed.

Lemma commits_star : commits (Star r) B.
Proof.
  intros u rest k z Hu Hb Hk. simpl. now apply star_loop_commits.
Qed.

Lemma commits_plus : commits (Plus r) B.
Proof.
  intros u rest k z Hu Hb Hk.
  inversion Hu as [| | | | |r' s1 s2 Hs1 Hs2| |]; subst.
  simpl. rewrite append_assoc. apply body_commits; auto.
  now apply star_loop_commits.
Qed.

End Loop.

Lemma commits_quest r (B : string -> Prop) :
  commits r B -> fails_at r B -> commits (Quest r) B.
Proof.
  intros H F u rest k z Hu Hb Hk.
  inversion Hu as [| | | | | |r'|r' s Hs]; subst; simpl.
  - now rewrite F.
  - now rewrite (H u rest k z).
Qed.

Lemma fails_at_first (r : regex) (Q : ascii -> bool) :
  nullable r = false ->
  (forall c, Q c = true -> first r c = false) ->
  fails_at r (next Q).
Proof.
  intros N H rest k Hb. apply bt_fails; [exact N|].
  destruct rest as [|c rest]; simpl in *; [exact I | now rewrite H].
Qed.

Lemma fails_at_needs (r : regex) (c : ascii) :
  needs r c = true -> fails_at r (fun rest => mem c rest = false).
Proof.
  intros N rest k Hb. destruct (bt r rest k) as [y|] eqn:E; [exfalso | reflexivity].
  apply bt_sound in E. destruct E as (u & rest' & -> & Hu & _).
  rewrite mem_append, (matches_needs c Hu N) in Hb. discriminate.
Qed.

(** *** The leftmost match *)

Lemma find_length (r : regex) : forall s m,
  find r s = Some m -> String.length m <= String.length s.
Proof.
  induction s as [|c s IH]; intros m H; simpl in H.
  - destruct (bt r "" Some); [|discriminate].
    injection H as <-. rewrite length_take. simpl. lia.
  - destruct (bt r (String c s) Some).
    + injection H as <-. rewrite length_take. simpl. lia.
    + apply IH in H. simpl. lia.
Qed.

(** A leftmost match as long as the text is a match of the whole text. *)
Lemma find_whole (r : regex) (s m : string) :
  find r s = Some m -> String.length m = String.length s -> matches r s.
Proof.
  intros H L.
  assert (E : exists rest, bt r s Some = Some rest /\ m = take (String.length s - String.length rest) s).
  { destruct s as [|c s]; simpl in H.
    - destruct (bt r "" Some) as [rest|]; [|discriminate].
      exists rest. injection H as <-. now split.
    - destruct (bt r (String c s) Some) as [rest|].
      + exists rest. injection H as <-. now split.
      + apply find_length in H. simpl in L. lia. }
  destruct E as (rest & E & ->).
  apply bt_sound in E. destruct E as (u & rest' & -> & Hu & [= <-]).
  rewrite length_take, length_append in L.
  assert (rest' = "") as -> by (apply length_zero; lia).
  now rewrite append_nil_r.
Qed.

Lemma find_eq (r : regex) (s : string) :
  find r s =
  match bt r s Some with
  | Some rest => Some (take (String.length s - String.length rest) s)
  | None => match s with "" => None | String _ s' => find r s' end
  end.
Proof. destruct s; reflexivity. Qed.

Lemma find_commits (r : regex) (s : string) :
  commits r (fun rest => rest = "") -> matches r s -> find r s = Some s.
Proof.
  intros C H.
  assert (E : bt r s Some = Some "").
  { rewrite <- (append_nil_r s) at 1. now apply C. }
  rewrite find_eq, E. cbn [String.length]. now rewrite Nat.sub_0_r, take_all.
Qed.

End RegexpFacts.

(** ** The image-name validator *)

Module ImageFacts.
Import Str StrFacts Regexp RegexpFacts Image.

Ltac bytes := (apply ascii_impl || apply ascii_excl); vm_compute; reflexivity.

(** A greedy run over a class takes every byte of the class. *)
Lemma commits_run rs : commits (Plus (Class rs)) (next (outside (Class rs))).
Proof.
  apply commits_plus with (B1 := fun _ => True); auto.
  - apply commits_class.
  - apply fails_at_first; [reflexivity|].
    intros c H. now apply negb_true_iff in H.
Qed.

Lemma commits_seg : commits (Cat sep (Plus lower)) (next (outside lower)).
Proof.
  apply commits_cat with (B1 := fun _ => True); auto.
  - apply commits_class.
  - apply commits_run.
Qed.

Lemma commits_word : commits word (next delim).
Proof.
  apply commits_cat with (B1 := next (outside alnum)).
  - apply commits_run.
  - apply commits_star with (B1 := next (outside lower)).
    + apply commits_seg.
    + apply fails_at_first; [reflexivity | bytes].
    + reflexivity.
    + intros u rest Hu Hb.
      eapply (@next_append _ _ delim); [exact Hu | bytes | intros _; bytes | exact Hb].
  - intros u rest Hu Hb.
      eapply (@next_append _ _ delim); [exact Hu | bytes | intros _; bytes | exact Hb].
Qed.

Lemma commits_port : commits port (next slash).
Proof.
  apply commits_quest.
  - apply commits_cat with (B1 := fun _ => True); auto.
    + apply commits_lit.
    + apply commits_weaken with (B := next (outside digit)); [apply commits_run|].
      intros s. apply next_weaken. bytes.
  - apply fails_at_first; [reflexivity | bytes].
Qed.

Lemma commits_group : commits group (fun _ => True).
Proof.
  apply commits_cat with (B1 := next delim); [apply commits_word| |].
  - apply commits_cat with (B1 := next slash); [apply commits_port| |].
    + apply commits_cat with (B1 := fun _ => True); auto; [apply commits_lit|].
      apply commits_cat with (B1 := next delim); [apply commits_word|apply commits_lit|].
      intros u rest Hu _.
      eapply next_append_nonnull; [exact Hu | reflexivity | bytes].
    + intros u rest Hu _.
      eapply next_append_nonnull; [exact Hu | reflexivity | bytes].
  - intros u rest Hu _.
      eapply next_append_nonnull; [exact Hu | reflexivity | bytes].
Qed.

(** A word has no slash in it; every repetition of the group has one. *)
Lemma word_no_slash (w : string) : matches word w -> mem "/" w = false.
Proof.
  intros H. destruct (mem "/" w) eqn:E; [|reflexivity].
  now apply (matches_alphabet _ H) in E.
Qed.

(** On a text that matches [imageValidator] over its entire length, the
    first match the backtracking matcher finds is that text. *)
Lemma commits_imageValidator : commits imageValidator (fun rest => rest = "").
Proof.
  apply commits_cat with (B1 := fun rest => mem "/" rest = false).
  - apply commits_star with (B1 := fun _ => True); auto.
    + apply commits_group.
    + now apply fails_at_needs.
  - apply commits_weaken with (B := next delim); [apply commits_word|].
    now intros s ->.
  - intros u rest Hu ->. rewrite append_nil_r. now apply word_no_slash.
Qed.

Lemma validImage_true (image : string) :
  validImage image = true <->
  String.length (FindString imageValidator image) = String.length image.
Proof.
  unfold validImage.
  destruct (Nat.eqb_spec (String.length (FindString imageValidator image))
                         (String.length image)); split; congruence.
Qed.

End ImageFacts.

(** ** Claims about the image name *)

Module ImageClaims.
Import Str StrFacts Regexp RegexpFacts Image ImageFacts.

(** C1, as stated, fails on the empty string: [FindString] returns the
    empty string when nothing matches, which is as long as the empty image
    name, so [validImage] accepts it although the grammar has no empty
    reference. *)
Lemma validImage_accepts_empty :
  validImage "" = true /\ ~ matches imageValidator "".
Proof.
  split; [reflexivity|].
  intros H. now apply (matches_nonempty (r := imageValidator)) in H.
Qed.

(** C1 (amended): for every string [s], [validImage] accepts [s] if and
    only if [s] is empty or [s] matches the grammar of [imageValidator]
    over its entire length; a non-empty string of which only a part matches
    is rejected. *)
Theorem validImage_iff (s : string) :
  validImage s = true <-> s = "" \/ matches imageValidator s.
Proof.
  rewrite validImage_true. unfold FindString. split.
  - destruct (find imageValidator s) as [m|] eqn:F; intros L.
    + right. now apply find_whole with (m := m).
    + left. apply length_zero. simpl in L. lia.
  - intros [->|H]; [reflexivity|].
    now rewrite (find_commits commits_imageValidator H).
Qed.

(** A trailing byte outside the grammar makes the validator reject: the
    match is not cut short and accepted. *)
Example validImage_trailing_byte :
  validImage "registry:5000/acct/svc" = true /\
  validImage "registry:5000/acct/svc!" = false.
Proof. split; reflexivity. Qed.

(** The expression has a port but no tag: a tagged reference is rejected,
    the leftmost match being the text before the first slash. *)
Example validImage_tag :
  FindString imageValidator "acct/svc:abc123" = "acct" /\
  validImage "acct/svc:abc123" = false.
Proof. split; reflexivity. Qed.

(** C5: [getImageName] turns the reference made of the push-registry prefix
    and any remainder into the public prefix followed by that remainder: the
    first occurrence of the prefix, the one at the start, is the only one
    replaced, whatever the remainder contains.  The spec's
    [rewrite(internalPrefix, publicPrefix, ref)] is
    [getImageName publicPrefix internalPrefix ref], as [Handle] calls it. *)
Theorem getImageName_prefix (publicPrefix internalPrefix rest : string) :
  getImageName publicPrefix internalPrefix (internalPrefix ++ rest)
  = publicPrefix ++ rest.
Proof.
  unfold getImageName.
  destruct internalPrefix as [|c p]; [now destruct rest|].
  cbn [strings_Replace1 append].
  change (String c (p ++ rest)) with (String c p ++ rest).
  now rewrite prefix_append, drop_append.
Qed.

(** The prefix occurring again later in the reference is left as it is. *)
Example getImageName_once :
  getImageName "docker.io/acct" "registry:5000" "registry:5000/registry:5000/fn:tag"
  = "docker.io/acct/registry:5000/fn:tag".
Proof. reflexivity. Qed.

End ImageClaims.

(** ** Effects *)

Module EffFacts.
Import Eff.

Lemma bind_ok {E A B : Type} (m : M E A) (f : A -> M E B) (a : A) :
  result m = Ok a ->
  bind m f = (trace m ++ trace (f a), result (f a))%list.
Proof. unfold bind, result, trace. now intros ->. Qed.

Lemma trace_bind {E A B : Type} (P : E -> Prop) (m : M E A) (f : A -> M E B) :
  Forall P (trace m) -> (forall a, Forall P (trace (f a))) ->
  Forall P (trace (bind m f)).
Proof.
  unfold bind, trace. intros Hm Hf.
  destruct (snd m); simpl; auto. apply Forall_app. auto.
Qed.

Lemma trace_ret {E A : Type} (P : E -> Prop) (a : A) : Forall P (trace (ret a)).
Proof. constructor. Qed.

Lemma trace_emit {E : Type} (P : E -> Prop) (e : E) : P e -> Forall P (trace (emit e)).
Proof. intros H. now repeat constructor. Qed.

Lemma trace_exit {E A : Type} (P : E -> Prop) (c : Z) :
  Forall P (trace (os_Exit (E := E) (A := A) c)).
Proof. constructor. Qed.

Lemma trace_panic {E A : Type} (P : E -> Prop) (msg : string) :
  Forall P (trace (panic (E := E) (A := A) msg)).
Proof. constructor. Qed.

End EffFacts.

(** ** The orchestrator *)

Module HandlerFacts.
Import Eff EffFacts Handler.
Local Open Scope eff_scope.

Lemma prefixSecrets_map (owner : string) (l : list string) :
  prefixSecrets owner l = map (fun x => owner ++ "-" ++ x) l.
Proof. induction l as [|x l IH]; simpl; [reflexivity | now rewrite IH]. Qed.

Lemma functionListed_In (functions : list function) (name : string) :
  functionListed functions name = true <-> In name (map Name functions).
Proof.
  induction functions as [|f l IH]; simpl; [split; [discriminate | tauto]|].
  destruct (String.eqb_spec (Name f) name) as [E|N]; [tauto|].
  rewrite IH. split; [tauto | intros [E|H]; [contradiction | exact H]].
Qed.

(** Status reporting returns to its caller, whatever the token service
    and the status call answer. *)
Lemma reportStatus_returns w status desc ctx event :
  result (reportStatus w status desc ctx event) = Ok tt.
Proof.
  unfold reportStatus. destruct (enableStatusReporting w); simpl; [|reflexivity].
  destruct (MakeAccessTokenForInstallation w _ _ _) as [token [e|]]; [reflexivity|].
  destruct (String.eqb token ""); [reflexivity|].
  destruct (CreateStatus w _ _ _ _ _); reflexivity.
Qed.

Lemma reportStatus_trace w status desc ctx event :
  Forall (fun e => reporting e = true) (trace (reportStatus w status desc ctx event)).
Proof.
  unfold reportStatus. destruct (enableStatusReporting w); simpl; [|constructor].
  destruct (MakeAccessTokenForInstallation w _ _ _) as [token [e|]];
    [repeat constructor|].
  destruct (String.eqb token ""); [repeat constructor|].
  destruct (CreateStatus w _ _ _ _ _); repeat constructor.
Qed.

Lemma bind_reportStatus {B : Type} w status desc ctx event (f : unit -> M Event B) :
  bind (reportStatus w status desc ctx event) f
  = (trace (reportStatus w status desc ctx event) ++ trace (f tt), result (f tt))%list.
Proof. apply bind_ok, reportStatus_returns. Qed.

(** With reporting enabled and a token minted, the status is posted. *)
Lemma reportStatus_posts w status desc ctx event token :
  enableStatusReporting w = true ->
  MakeAccessTokenForInstallation w (Getenv w "github_app_id")
    (installationID event) (getPrivateKey w) = (token, None) ->
  token <> "" ->
  trace (reportStatus w status desc ctx event) =
    [EvMintToken (Getenv w "github_app_id") (installationID event) (getPrivateKey w);
     EvCreateStatus token (owner event) (repository event) (sha event)
       (buildStatus status desc ctx (buildPublicStatusURL w status event))].
Proof.
  intros He Hm Ht. unfold reportStatus. rewrite He, Hm. simpl.
  destruct (String.eqb_spec token "") as [E|_]; [contradiction|].
  destruct (CreateStatus w _ _ _ _ _); reflexivity.
Qed.

Lemma reportStatus_carries l w status desc ctx event :
  Forall (carries l) (trace (reportStatus w status desc ctx event)).
Proof.
  eapply Forall_impl; [|apply reportStatus_trace].
  intros [] H; try discriminate; exact I.
Qed.

Lemma core_reportStatus w status desc ctx event :
  core (reportStatus w status desc ctx event) = ([], Ok tt).
Proof.
  unfold core. rewrite reportStatus_returns. f_equal.
  pose proof (reportStatus_trace w status desc ctx event) as H.
  induction H as [|e l He _ IH]; simpl; [reflexivity | now rewrite He].
Qed.

Lemma core_bind_cong {A B : Type} (m m' : M Event A) (f f' : A -> M Event B) :
  core m = core m' -> (forall a, core (f a) = core (f' a)) ->
  core (bind m f) = core (bind m' f').
Proof.
  unfold core, bind, trace, result. intros [= Ht Hr] Hf. rewrite <- Hr.
  destruct (snd m) as [a| |]; simpl; rewrite ?filter_app, ?Ht; try reflexivity.
  specialize (Hf a). injection Hf as -> ->. reflexivity.
Qed.

(** The two requests of a deployment: the list of functions, then the
    update or the creation. *)
Lemma deployFunction_requests w deploy gatewayURL :
  trace (deployFunction w deploy gatewayURL) =
    [EvHTTP MethodGet (gatewayURL ++ "system/functions") NoBody;
     EvHTTP (if functionListed (listedFunctions w gatewayURL) (Service deploy)
             then MethodPut else MethodPost)
            (gatewayURL ++ "system/functions") (JSON deploy)].
Proof.
  unfold deployFunction, functionExists, listedFunctions.
  destruct (Do w MethodGet _ NoBody) as [err|res]; [|destruct (functionListed _ _)]; cbn;
  match goal with |- context [Do w ?m ?u ?b] => destruct (Do w m u b) as [e|r] end; cbn;
    try reflexivity; destruct (_ || _); reflexivity.
Qed.

Ltac trace_step :=
  match goal with
  | |- Forall _ (trace (bind _ _)) => apply trace_bind; [|intros]
  | |- Forall _ (trace (ret _)) => apply trace_ret
  | |- Forall _ (trace (emit _)) => apply trace_emit; simpl; auto
  | |- Forall _ (trace (os_Exit _)) => apply trace_exit
  | |- Forall _ (trace (log_Fatal _)) => apply trace_exit
  | |- Forall _ (trace (log_Panic _)) => apply trace_panic
  | |- Forall _ (trace (PostAudit _)) => apply trace_emit; simpl; auto
  | |- Forall _ (trace (reportStatus _ _ _ _ _)) => apply reportStatus_carries
  | |- Forall _ (trace (deployFunction _ _ _)) =>
      rewrite deployFunction_requests; repeat constructor
  | |- Forall _ (trace (match ?x with _ => _ end)) => destruct x
  end.

(** Every deployment descriptor a run sends carries the secrets of the
    trigger event. *)
Lemma Handle_carries w req :
  Forall (carries (secrets (fst (getEvent w)))) (trace (Handle w req)).
Proof.
  unfold Handle. destruct (getEvent w) as [event eventErr]. simpl fst.
  repeat trace_step.
Qed.

Lemma getEvent_secrets w :
  secrets (fst (getEvent w)) =
  map (fun x => owner (fst (getEvent w)) ++ "-" ++ x)
      (if (0 <? String.length (Getenv w "Http_Secrets"))%nat
       then fst (unmarshalSecrets w (Getenv w "Http_Secrets")) else []).
Proof.
  unfold getEvent.
  destruct (if (0 <? _)%nat then Atoi w _ else _) as [i e]. simpl.
  apply prefixSecrets_map.
Qed.

Ltac core_step :=
  match goal with
  | |- core (bind _ _) = core (bind _ _) => apply core_bind_cong; [|intros]
  | |- core (reportStatus _ _ _ _ _) = core (reportStatus _ _ _ _ _) =>
      rewrite !core_reportStatus; reflexivity
  | |- core (match ?x with _ => _ end) = _ => destruct x
  | |- core ?a = core ?b => reflexivity
  end.

(** The result of a run and what it does besides reporting do not depend
    on the answers of the token service and of the status call. *)
Lemma Handle_core w mint create req :
  core (Handle (withReporting w mint create) req) = core (Handle w req).
Proof.
  unfold Handle. change (getEvent (withReporting w mint create)) with (getEvent w).
  destruct (getEvent w) as [event eventErr].
  cbn [Getenv Do unixNow withReporting].
  repeat core_step.
Qed.

Lemma length_eqb_0 (s : string) : s <> "" -> (String.length s =? 0)%nat = false.
Proof. destruct s; [congruence | reflexivity]. Qed.

Ltac eff_simpl :=
  cbn [bind ret emit fst snd trace result log_Fatal log_Panic os_Exit panic
       PostAudit app].

End HandlerFacts.

(** ** Claims about the orchestrator *)

Module HandlerClaims.
Import Eff EffFacts Handler HandlerFacts StrFacts.
Local Open Scope eff_scope.

(** C3 (what the code does): when the image name the builder returned
    fails validation (the event and the two registry prefixes being set),
    [Handle] reports the failure status for stage [DEPLOY] and then
    [log.Fatal] ends the process with exit code 1: nothing is deployed, but
    no audit event is emitted and no message is returned either.  The
    statements that post the audit event and return the message come after
    [log.Fatal] and are never reached. *)
Theorem Handle_invalid_image_exits w req res :
  snd (getEvent w) = None ->
  Do w MethodPost (Getenv w "builder_url" ++ "build") (Raw req) = inr res ->
  Getenv w "repository_url" <> "" ->
  Getenv w "push_repository_url" <> "" ->
  Image.validImage (Trim.TrimSpace (Body res)) = false ->
  Handle w req =
    (EvHTTP MethodPost (Getenv w "builder_url" ++ "build") (Raw req)
     :: trace (reportStatus w "failure" "Unable to build image, check builder logs"
                 "DEPLOY" (fst (getEvent w))),
     Exit 1) /\
  forall e, ~ In (EvAudit e) (trace (Handle w req)).
Proof.
  intros He Hd Hr Hp Hv.
  assert (E : Handle w req =
    (EvHTTP MethodPost (Getenv w "builder_url" ++ "build") (Raw req)
     :: trace (reportStatus w "failure" "Unable to build image, check builder logs"
                 "DEPLOY" (fst (getEvent w))),
     Exit 1)).
  { unfold Handle.
    destruct (getEvent w) as [event eventErr]. simpl in He. subst eventErr. simpl fst.
    rewrite Hd, (length_eqb_0 Hr), (length_eqb_0 Hp), Hv.
    cbn [negb]. rewrite bind_reportStatus. eff_simpl.
    now rewrite app_nil_r. }
  split; [exact E|]. rewrite E. cbn [trace fst].
  intros e [H|H]; [discriminate|].
  pose proof (reportStatus_trace w "failure" "Unable to build image, check builder logs"
                "DEPLOY" (fst (getEvent w))) as F.
  rewrite Forall_forall in F. apply F in H. discriminate.
Qed.

(** The builder answers an error message instead of an image name. *)
Lemma Handle_invalid_image_exits_witness :
  Image.validImage "failed to solve: exit code 2" = false /\
  Handle (Sample.world "failed to solve: exit code 2") "archive" =
    ([EvHTTP MethodPost "http://of-builder:8080/build" (Raw "archive");
      EvMintToken "1109" 42 "/var/openfaas/secrets/private-key";
      EvCreateStatus "v1.token" "alexellis" "kubecon-tester" "abc123"
        {| State := "failure"; TargetURL := "";
           Description := "Unable to build image, check builder logs";
           Context := "DEPLOY" |}],
     Exit 1).
Proof.
  split; [reflexivity|].
  assert (H : snd (getEvent (Sample.world "failed to solve: exit code 2")) = None)
    by reflexivity.
  assert (Hr : Getenv (Sample.world "failed to solve: exit code 2") "repository_url" <> "")
    by discriminate.
  assert (Hp : Getenv (Sample.world "failed to solve: exit code 2") "push_repository_url" <> "")
    by discriminate.
  exact (proj1 (@Handle_invalid_image_exits
                  (Sample.world "failed to solve: exit code 2") "archive"
                  {| Status := "200 OK"; StatusCode := 200;
                     Body := "failed to solve: exit code 2" |}
                  H eq_refl Hr Hp eq_refl)).
Defined.

(** Both branches of the upsert, on a gateway that lists the function
    [alexellis-kubecon-tester]. *)
Example deployFunction_update_and_create :
  let deploy name :=
    {| Service := name; Image := "img"; Network := "func_functions"; Labels := [];
       Limits_ := {| Memory := "20m" |}; EnvVars := []; Secrets := [] |} in
  map (fun e => match e with EvHTTP m _ _ => m | _ => "" end)
      (trace (deployFunction (Sample.world "") (deploy "alexellis-kubecon-tester") "gw/"))
    = ["GET"; "PUT"] /\
  map (fun e => match e with EvHTTP m _ _ => m | _ => "" end)
      (trace (deployFunction (Sample.world "") (deploy "alexellis-other") "gw/"))
    = ["GET"; "POST"].
Proof. split; reflexivity. Qed.

(** The descriptor sent for the sample event, whose secret is [secret-a]. *)
Example secrets_sent :
  exists d,
    In (EvHTTP "PUT" "http://gateway:8080/system/functions" (JSON d))
       (trace (Handle (Sample.world "registry:5000/alexellis/kubecon-tester") "archive")) /\
    Secrets d = ["alexellis-secret-a"].
Proof. eexists. split; [right; right; left; reflexivity | reflexivity]. Qed.

(** C8: status reporting always returns to its caller, whatever the token
    service and the status call answer, and does nothing but mint a token
    and post a status; the result of [Handle] and everything it does apart
    from reporting (the build, the deployment, the audit) are the same
    whatever these two calls answer, so that their failure undoes nothing. *)
Theorem reporting_failures_swallowed w status desc ctx event mint create req :
  result (reportStatus w status desc ctx event) = Ok tt /\
  Forall (fun e => reporting e = true) (trace (reportStatus w status desc ctx event)) /\
  core (Handle (withReporting w mint create) req) = core (Handle w req).
Proof.
  split; [apply reportStatus_returns|].
  split; [apply reportStatus_trace | apply Handle_core].
Qed.

(** A deployment that succeeded while the token service fails: the run
    returns its summary and the deployment stays the last request. *)
Example deployed_but_not_reported :
  let w := withReporting (Sample.world "registry:5000/alexellis/kubecon-tester")
             (fun _ _ _ => ("", Some "could not sign the token"))
             (fun _ _ _ _ _ => Some "unreachable") in
  result (Handle w "archive") =
    Ok "buildStatus registry:5000/alexellis/kubecon-tester docker.io/ofcommunity/alexellis/kubecon-tester 200 OK" /\
  map (fun e => match e with EvHTTP m _ _ => m | EvAudit _ => "audit" | _ => "report" end)
      (trace (Handle w "archive")) = ["POST"; "GET"; "PUT"; "audit"; "report"].
Proof. split; vm_compute; reflexivity. Qed.

(** C10: the validator accepts the empty image name.  When the builder
    answers a body that trims to the empty string (the event and the two
    registry prefixes being set), [Handle] does not take the branch of the
    validation failure, sends no request besides the build request, posts
    the audit event, reports the status [success] for stage [DEPLOY] with
    the description [function successfully deployed as: ] (no service name)
    and returns its summary. *)
Theorem Handle_empty_image w req res :
  snd (getEvent w) = None ->
  Do w MethodPost (Getenv w "builder_url" ++ "build") (Raw req) = inr res ->
  Getenv w "repository_url" <> "" ->
  Getenv w "push_repository_url" <> "" ->
  Trim.TrimSpace (Body res) = "" ->
  let event := fst (getEvent w) in
  let report :=
    reportStatus w "success" "function successfully deployed as: " "DEPLOY" event in
  Image.validImage (Trim.TrimSpace (Body res)) = true /\
  Handle w req =
    (EvHTTP MethodPost (Getenv w "builder_url" ++ "build") (Raw req)
     :: EvAudit {| Message := ""; Owner := owner event; Repo := repository event;
                   Source := "buildshiprun" |}
     :: trace report,
     Ok ("buildStatus " ++ Body res ++ " " ++ "" ++ " " ++ Status res)) /\
  (forall token,
      enableStatusReporting w = true ->
      MakeAccessTokenForInstallation w (Getenv w "github_app_id")
        (installationID event) (getPrivateKey w) = (token, None) ->
      token <> "" ->
      trace report =
        [EvMintToken (Getenv w "github_app_id") (installationID event) (getPrivateKey w);
         EvCreateStatus token (owner event) (repository event) (sha event)
           {| State := "success";
              TargetURL := buildPublicStatusURL w "success" event;
              Description := "function successfully deployed as: ";
              Context := "DEPLOY" |}]).
Proof.
  intros He Hd Hr Hp Ht event report. rewrite Ht.
  split; [reflexivity|]. split.
  - unfold Handle. subst report event.
    destruct (getEvent w) as [event eventErr]. simpl in He. subst eventErr. simpl fst.
    rewrite Hd, (length_eqb_0 Hr), (length_eqb_0 Hp), Ht.
    change (Image.validImage "") with true. eff_simpl. cbn [negb String.length Nat.ltb Nat.leb].
    eff_simpl. rewrite bind_reportStatus. eff_simpl.
    now rewrite app_nil_r.
  - intros token E M T. now apply reportStatus_posts.
Qed.

(** The builder answers two spaces; reporting is enabled and a token is
    minted, so that the status [success] is posted. *)
Lemma Handle_empty_image_witness :
  let w := Sample.world "  " in
  Trim.TrimSpace "  " = "" /\
  Handle w "archive" =
    ([EvHTTP MethodPost "http://of-builder:8080/build" (Raw "archive");
      EvAudit {| Message := ""; Owner := "alexellis"; Repo := "kubecon-tester";
                 Source := "buildshiprun" |};
      EvMintToken "1109" 42 "/var/openfaas/secrets/private-key";
      EvCreateStatus "v1.token" "alexellis" "kubecon-tester" "abc123"
        {| State := "success"; TargetURL := "";
           Description := "function successfully deployed as: ";
           Context := "DEPLOY" |}],
     Ok ("buildStatus " ++ "  " ++ " " ++ "" ++ " " ++ "200 OK")).
Proof.
  split; [reflexivity|].
  assert (H : snd (getEvent (Sample.world "  ")) = None) by reflexivity.
  assert (Hr : Getenv (Sample.world "  ") "repository_url" <> "") by discriminate.
  assert (Hp : Getenv (Sample.world "  ") "push_repository_url" <> "") by discriminate.
  exact (proj1 (proj2 (@Handle_empty_image (Sample.world "  ") "archive"
           {| Status := "200 OK"; StatusCode := 200; Body := "  " |}
           H eq_refl Hr Hp eq_refl))).
Defined.

End HandlerClaims.

(** ** The build service *)

Module BuilderFacts.
Import Eff EffFacts Builder StrFacts.
Local Open Scope eff_scope.

(** Draining emits nothing and appends one line for each vertex, status
    and log it receives. *)
Lemma drainVertexes_ok w vs : forall st t st',
  drainVertexes w vs st = (t, Ok st') ->
  t = [] /\ lines st' = lines st + List.length vs.
Proof.
  induction vs as [|v vs IH]; intros st t st' H; simpl in H.
  - injection H as <- <-. split; [reflexivity | simpl; lia].
  - unfold vertexLine in H.
    destruct (Completed v), (Started v); cbn in H; try discriminate;
      rewrite <- surjective_pairing in H; apply IH in H; destruct H as [-> E];
      (split; [reflexivity|]); rewrite E; unfold lines; simpl;
      rewrite length_app; simpl; lia.
Qed.

Lemma drainStatuses_ok w ss : forall st,
  lines (drainStatuses w ss st) = lines st + List.length ss.
Proof.
  induction ss as [|s ss IH]; intros st; simpl; [lia|].
  rewrite IH. unfold lines. simpl. rewrite length_app. simpl. lia.
Qed.

Lemma drainLogs_ok w ls : forall st,
  lines (drainLogs w ls st) = lines st + List.length ls.
Proof.
  induction ls as [|l ls IH]; intros st; simpl; [lia|].
  rewrite IH. unfold lines. simpl. rewrite length_app. simpl. lia.
Qed.

Lemma drain_ok w ch : forall st t st',
  drain w ch st = (t, Ok st') ->
  t = [] /\ lines st' = lines st + list_sum (map statusCount ch).
Proof.
  induction ch as [|s ch IH]; intros st t st' H; simpl in H.
  - injection H as <- <-. split; [reflexivity | simpl; lia].
  - destruct (drainVertexes w (Vertexes s) st) as [t1 [st1| |]] eqn:E;
      cbn in H; try discriminate.
    apply drainVertexes_ok in E. destruct E as [-> E].
    destruct (drain w ch _) as [t2 r2] eqn:E2. cbn in H. injection H as <- ->.
    apply IH in E2. destruct E2 as [-> E2]. split; [reflexivity|].
    rewrite E2, drainLogs_ok, drainStatuses_ok, E. simpl. unfold statusCount. lia.
Qed.

(** How [build] returns: without a result and before any solve request, or
    with the result made of the target reference, of the lines drained
    from the engine and of the error of the solve. *)
Lemma build_cases w body dt err :
  result (build w body) = Ok (dt, err) ->
  (exists msg, dt = None /\ err = Some msg /\
               forall opt, ~ In (EvSolve opt) (trace (build w body))) \/
  (exists tmpdir bytes cfg opt ch st,
      TempDir w = inr tmpdir /\
      ReadFile w (filepath_Join tmpdir "config") = inr bytes /\
      unmarshalConfig w bytes = inr cfg /\
      Ref cfg <> "" /\
      In (EvSolve opt) (trace (build w body)) /\
      Solve w opt = (ch, err) /\
      drain w ch (BuildLog.empty, 0) = ([], Ok st) /\
      dt = Some (resultOf cfg st err)).
Proof.
  unfold build.
  destruct (TempDir w) as [e|tmpdir] eqn:Ht; cbn.
  { intros [= <- <-]. left. exists e. repeat split; auto.
    intros opt [H|[]]; discriminate. }
  destruct (Untar w body tmpdir _) as [e|] eqn:Hu; cbn.
  { intros [= <- <-]. left. exists e. repeat split; auto.
    intros opt [H|[H|[H|[]]]]; discriminate. }
  destruct (ReadFile w _) as [e|bytes] eqn:Hr; cbn.
  { intros [= <- <-]. left. exists e. repeat split; auto.
    intros opt [H|[H|[H|[H|[]]]]]; discriminate. }
  destruct (unmarshalConfig w bytes) as [e|cfg] eqn:Hc; cbn.
  { intros [= <- <-]. left. exists e. repeat split; auto.
    intros opt [H|[H|[H|[H|[]]]]]; discriminate. }
  destruct (String.eqb_spec (Ref cfg) "") as [E|N]; cbn.
  { intros [= <- <-]. left. eexists. repeat split; auto.
    intros opt [H|[H|[H|[H|[]]]]]; discriminate. }
  destruct (clientNew w _) as [e|] eqn:Hn; cbn.
  { intros [= <- <-]. left. exists e. repeat split; auto.
    intros opt [H|[H|[H|[H|[H|[]]]]]]; discriminate. }
  match goal with |- context [Solve w ?o] => set (opt := o) end.
  destruct (Solve w opt) as [ch solveErr] eqn:Hs.
  destruct (drain w ch (BuildLog.empty, 0)) as [td [st| |]] eqn:Hd; cbn;
    try discriminate.
  pose proof Hd as Hd'. apply drain_ok in Hd'. destruct Hd' as [-> _].
  intros H. right. exists tmpdir, bytes, cfg, opt, ch, st.
  destruct solveErr as [e|]; cbn in H; injection H as <- <-;
    repeat split; auto; simpl; auto 10;
    destruct (String.eqb (Frontend cfg) ""); reflexivity.
Qed.

End BuilderFacts.

(** ** Claims about the build service *)

Module BuilderClaims.
Import Eff EffFacts Builder BuilderFacts StrFacts.
Local Open Scope eff_scope.

(** C2, as stated, fails when the build fails before the solve: with an
    empty target reference in the configuration [build] fails, the response
    has status 500, but the status field of its body is
    [unexpected failure: no target reference to push], which is not of the
    form [failure: <message>]. *)
Lemma buildHandler_unexpected_failure :
  result (build (Sample.builder Sample.noRef ([], None)) "archive") =
    Ok (None, Some "no target reference to push") /\
  result (buildHandler (Sample.builder Sample.noRef ([], None)) "archive") =
    Ok {| StatusCode := 500;
          Body := Some {| Log := []; ImageName := "";
                          Status := "unexpected failure: no target reference to push" |} |} /\
  forall msg, "unexpected failure: no target reference to push" <> "failure: " ++ msg.
Proof. split; [reflexivity | split; [reflexivity | discriminate]]. Qed.

(** C2 (amended): whenever [build] fails, with the error [msg], the
    response has status 500 and a serialized [BuildResult] as its body.
    When the build failed before the solve request (temporary directory,
    unpacking, reading or parsing the configuration, empty target
    reference, connection to the engine), the status field is
    [unexpected failure: msg], the image name is empty and the log is
    empty.  When the solve failed, the status field is [failure: msg], the
    image name is the target reference of the configuration, and the log
    is the log of the draining task once it has received every status the
    engine sent: one line for each vertex, status and log, not more, not
    fewer. *)
Theorem buildHandler_failure w body dt msg :
  result (build w body) = Ok (dt, Some msg) ->
  exists r,
    result (buildHandler w body) = Ok {| StatusCode := 500; Body := Some r |} /\
    ((r = {| Log := []; ImageName := ""; Status := "unexpected failure: " ++ msg |} /\
      forall opt, ~ In (EvSolve opt) (trace (buildHandler w body))) \/
     (exists tmpdir bytes cfg opt ch st,
        TempDir w = inr tmpdir /\
        ReadFile w (filepath_Join tmpdir "config") = inr bytes /\
        unmarshalConfig w bytes = inr cfg /\
        In (EvSolve opt) (trace (buildHandler w body)) /\
        Solve w opt = (ch, Some msg) /\
        drain w ch (BuildLog.empty, 0) = ([], Ok st) /\
        r = {| Log := BuildLog.Line (fst st);
               ImageName := Ref cfg;
               Status := "failure: " ++ msg |} /\
        List.length (BuildLog.Line (fst st)) = list_sum (map statusCount ch))).
Proof.
  intros R.
  assert (E : buildHandler w body =
            (trace (build w body),
             Ok {| StatusCode := 500;
                   Body := match dt with
                           | Some _ => dt
                           | None => Some {| Log := []; ImageName := "";
                                             Status := "unexpected failure: " ++ msg |}
                           end |})).
  { unfold buildHandler. rewrite (@bind_ok _ _ _ _ _ _ R).
    cbn [ret trace result fst snd]. now rewrite app_nil_r. }
  rewrite E. cbn [trace result fst snd].
  apply build_cases in R.
  destruct R as [(m & -> & [= <-] & Hn)|(tmpdir & bytes & cfg & opt & ch & st & R)].
  - eexists. split; [reflexivity|]. left. now split.
  - destruct R as (Ht & Hr & Hc & _ & Hi & Hs & Hd & ->).
    eexists. split; [reflexivity|]. right.
    exists tmpdir, bytes, cfg, opt, ch, st. repeat split; auto.
    apply drain_ok in Hd. destruct Hd as [_ Hd]. exact Hd.
Qed.

(** A solve that fails after the engine has sent a vertex and a log: the
    two lines are in the log of the result. *)
Lemma buildHandler_failure_witness :
  result (build (Sample.builder Sample.someRef Sample.failingSolve) "archive") =
    Ok (Some {| Log := ["v: load build definition"; "l: step 1/4"];
                ImageName := "registry:5000/alexellis/kubecon-tester";
                Status := "failure: exit code 2" |},
        Some "exit code 2") /\
  exists r,
    result (buildHandler (Sample.builder Sample.someRef Sample.failingSolve) "archive") =
      Ok {| StatusCode := 500; Body := Some r |}.
Proof.
  split; [reflexivity|].
  destruct (@buildHandler_failure
              (Sample.builder Sample.someRef Sample.failingSolve) "archive"
              (Some {| Log := ["v: load build definition"; "l: step 1/4"];
                       ImageName := "registry:5000/alexellis/kubecon-tester";
                       Status := "failure: exit code 2" |})
              "exit code 2" eq_refl) as (r & H & _).
  now exists r.
Defined.

(** C9: when the parsed configuration has an empty target reference,
    [build] returns the error [no target reference to push] and no result;
    it has created, filled and removed its directory and read the
    configuration, and has neither connected to the engine nor submitted a
    solve request. *)
Theorem build_empty_ref w body tmpdir bytes cfg :
  TempDir w = inr tmpdir ->
  Untar w body tmpdir (negb (lchownEnabled w)) = None ->
  ReadFile w (filepath_Join tmpdir "config") = inr bytes ->
  unmarshalConfig w bytes = inr cfg ->
  Ref cfg = "" ->
  build w body =
    ([EvTempDir; EvUntar tmpdir (negb (lchownEnabled w));
      EvReadFile (filepath_Join tmpdir "config"); EvRemoveAll tmpdir],
     Ok (None, Some "no target reference to push")) /\
  forall opt, ~ In (EvSolve opt) (trace (build w body)).
Proof.
  intros Ht Hu Hr Hc He.
  assert (B : build w body =
    ([EvTempDir; EvUntar tmpdir (negb (lchownEnabled w));
      EvReadFile (filepath_Join tmpdir "config"); EvRemoveAll tmpdir],
     Ok (None, Some "no target reference to push"))).
  { unfold build. rewrite Ht. cbn. rewrite Hu. cbn. rewrite Hr. cbn.
    rewrite Hc, He. reflexivity. }
  split; [exact B|]. rewrite B.
  intros opt [H|[H|[H|[H|[]]]]]; discriminate.
Qed.

(** The archive of the request holds a configuration without reference. *)
Lemma build_empty_ref_witness :
  let w := Sample.builder Sample.noRef Sample.failingSolve in
  build w "archive" =
    ([EvTempDir; EvUntar "/tmp/buildctx1" false;
      EvReadFile "/tmp/buildctx1/config"; EvRemoveAll "/tmp/buildctx1"],
     Ok (None, Some "no target reference to push")) /\
  forall opt, ~ In (EvSolve opt) (trace (build w "archive")).
Proof.
  exact (@build_empty_ref (Sample.builder Sample.noRef Sample.failingSolve)
           "archive" "/tmp/buildctx1" "{config}" Sample.noRef
           eq_refl eq_refl eq_refl eq_refl eq_refl).
Defined.

End BuilderClaims.

(** ** The build log under concurrent producers *)

Module BuildLogFacts.
Import BuildLog.

Lemma step_at_split i : forall b ps b' ps',
  step_at i b ps = Some (b', ps') ->
  exists l1 p p' l2,
    ps = (l1 ++ p :: l2)%list /\ ps' = (l1 ++ p' :: l2)%list /\
    exec b p = Some (b', p').
Proof.
  induction i as [|i IH]; intros b [|p ps] b' ps' H; simpl in H; try discriminate.
  - destruct (exec b p) as [[b1 p1]|] eqn:E; [|discriminate].
    injection H as <- <-. now exists [], p, p1, ps.
  - destruct (step_at i b ps) as [[b1 ps1]|] eqn:E; [|discriminate].
    injection H as <- <-. apply IH in E.
    destruct E as (l1 & q & q' & l2 & -> & -> & E).
    now exists (p :: l1)%list, q, q', l2.
Qed.

Lemma holders_app l1 l2 : holders (l1 ++ l2) = holders l1 + holders l2.
Proof. unfold holders. now rewrite map_app, list_sum_app. Qed.

Lemma holders_middle l1 p l2 :
  holders (l1 ++ p :: l2) = holders l1 + holding p + holders l2.
Proof. rewrite holders_app. unfold holders. simpl. lia. Qed.

(** Producers outside the critical section hold no stale copy of the log. *)
Lemma fresh_idle b b' ps : holders ps = 0 -> Forall (fresh b) ps -> Forall (fresh b') ps.
Proof.
  induction ps as [|p ps IH]; intros H F; constructor; inversion F; subst.
  - unfold holders in H. simpl in H. unfold fresh, holding in *.
    destruct (at_ p); auto; lia.
  - apply IH; auto. unfold holders in *. simpl in H. lia.
Qed.

Lemma fresh_same_line b b' ps :
  Line b' = Line b -> Forall (fresh b) ps -> Forall (fresh b') ps.
Proof.
  intros E. apply Forall_impl. intros p. unfold fresh. now rewrite E.
Qed.

Lemma exec_msg b p b' p' : exec b p = Some (b', p') -> msg p' = msg p.
Proof.
  unfold exec. destruct (at_ p); try destruct (Sync b); intros [= <- <-]; reflexivity.
Qed.

(** Every step of every producer keeps the invariant. *)
Lemma exec_inv b l1 p l2 b' p' :
  exec b p = Some (b', p') ->
  Inv b (l1 ++ p :: l2) -> Inv b' (l1 ++ p' :: l2).
Proof.
  intros E [HL HK HF].
  rewrite flat_map_app in HL. simpl in HL.
  rewrite holders_middle in HK.
  apply Forall_app in HF. destruct HF as [HF1 HF2].
  inversion HF2 as [|? ? Hp HF2']; subst.
  unfold exec in E. destruct p as [m a]. simpl in *.
  destruct a as [| |line| |]; unfold holding in HK; simpl in *.
  - destruct (Sync b) eqn:S; [discriminate|]. injection E as <- <-.
    split; simpl.
    + now rewrite flat_map_app.
    + rewrite holders_middle. unfold holding. simpl. lia.
    + apply Forall_app. split; [|constructor; [exact I|]];
        eapply fresh_same_line; eauto.
  - injection E as <- <-. split; simpl.
    + now rewrite flat_map_app.
    + rewrite holders_middle. unfold holding. simpl. lia.
    + apply Forall_app. split; [|constructor; [reflexivity|]]; auto.
  - injection E as <- <-. unfold fresh in Hp. simpl in Hp. subst line.
    assert (Sync b = true /\ holders l1 = 0 /\ holders l2 = 0) as (S & H1 & H2).
    { destruct (Sync b); [repeat split; lia | lia]. }
    split; simpl.
    + rewrite flat_map_app. simpl.
      apply Permutation_trans with (m :: Line b)%list.
      * apply Permutation_sym, Permutation_cons_append.
      * apply Permutation_cons_app. exact HL.
    + rewrite holders_middle. unfold holding. simpl. rewrite S. lia.
    + apply Forall_app. split; [|constructor; [exact I|]];
        eapply fresh_idle; eauto.
  - injection E as <- <-.
    assert (Sync b = true /\ holders l1 = 0 /\ holders l2 = 0) as (S & H1 & H2).
    { destruct (Sync b); [repeat split; lia | lia]. }
    split; simpl.
    + rewrite flat_map_app. exact HL.
    + rewrite holders_middle. unfold holding. simpl. lia.
    + apply Forall_app. split; [|constructor; [exact I|]];
        eapply fresh_same_line; eauto.
  - discriminate.
Qed.

Lemma run_inv schedule : forall b ps b' ps',
  run schedule b ps = Some (b', ps') ->
  Inv b ps -> Inv b' ps' /\ map msg ps' = map msg ps.
Proof.
  induction schedule as [|i rest IH]; intros b ps b' ps' H I; simpl in H.
  - injection H as <- <-. now split.
  - destruct (step_at i b ps) as [[b1 ps1]|] eqn:E; [|discriminate].
    apply step_at_split in E. destruct E as (l1 & p & p' & l2 & -> & -> & E).
    apply IH in H; [|eapply exec_inv; eauto].
    destruct H as [H ->]. split; [exact H|].
    rewrite !map_app. simpl. erewrite exec_msg; [reflexivity | eassumption].
Qed.

Lemma start_inv msgs : Inv empty (start msgs).
Proof.
  split; simpl.
  - induction msgs; simpl; auto.
  - induction msgs; simpl; auto.
  - induction msgs; simpl; constructor; auto. exact I.
Qed.

Lemma written_returned ps :
  forallb returned ps = true -> flat_map written ps = map msg ps.
Proof.
  induction ps as [|p ps IH]; simpl; [reflexivity|].
  intros H. apply andb_true_iff in H. destruct H as [Hp H].
  rewrite IH by assumption. unfold returned in Hp. unfold written.
  destruct (at_ p); try discriminate. reflexivity.
Qed.

(** *** Executions that end exist: the producers can append in turn *)

Lemma step_at_middle l1 : forall b p l2,
  step_at (List.length l1) b (l1 ++ p :: l2) =
  match exec b p with
  | Some (b', p') => Some (b', (l1 ++ p' :: l2)%list)
  | None => None
  end.
Proof.
  induction l1 as [|q l1 IH]; intros b p l2; simpl.
  - destruct (exec b p) as [[b' p']|]; reflexivity.
  - rewrite IH. destruct (exec b p) as [[b' p']|]; reflexivity.
Qed.

Lemma run_inTurn msgs : forall done line,
  forallb returned done = true ->
  exists b ps,
    run (inTurn (List.length done) (List.length msgs))
        {| Line := line; Sync := false |} (done ++ start msgs) = Some (b, ps) /\
    forallb returned ps = true.
Proof.
  induction msgs as [|m msgs IH]; intros done line D; simpl.
  - eexists _, _. split; [reflexivity|]. now rewrite app_nil_r.
  - rewrite step_at_middle. simpl.
    rewrite step_at_middle. simpl.
    rewrite step_at_middle. simpl.
    rewrite step_at_middle. simpl.
    specialize (IH (done ++ [{| msg := m; at_ := Returned |}])%list (line ++ [m])%list).
    rewrite length_app, Nat.add_1_r, <- app_assoc in IH. simpl in IH.
    apply IH. rewrite forallb_app, D. reflexivity.
Qed.

End BuildLogFacts.

(** ** Claims about the build log *)

Module BuildLogClaims.
Import BuildLog BuildLogFacts.

(** C6: in every execution of producers that each call [Append] once on
    the empty log, whatever the order in which the scheduler lets them take
    their steps, once all of them have returned the log holds the appended
    messages, each one once, in some order; it has as many lines as there
    were producers. *)
Theorem Append_concurrent msgs schedule b ps :
  run schedule empty (start msgs) = Some (b, ps) ->
  forallb returned ps = true ->
  Permutation (Line b) msgs /\ List.length (Line b) = List.length msgs.
Proof.
  intros H R. apply run_inv in H; [|apply start_inv].
  destruct H as [[HL _ _] Hm].
  rewrite written_returned in HL by assumption. rewrite Hm in HL.
  unfold start in HL. rewrite map_map, map_id in HL. simpl in HL.
  split; [exact HL | now apply Permutation_length].
Qed.

(** Three producers; the scheduler runs the second one first, then the
    third, then the first. *)
Lemma Append_concurrent_witness :
  run [1; 1; 1; 1; 2; 2; 2; 2; 0; 0; 0; 0] empty (start ["b"; "c"; "a"]) =
    Some ({| Line := ["c"; "a"; "b"]; Sync := false |},
          [{| msg := "b"; at_ := Returned |}; {| msg := "c"; at_ := Returned |};
           {| msg := "a"; at_ := Returned |}]) /\
  Permutation ["c"; "a"; "b"] ["b"; "c"; "a"] /\
  List.length ["c"; "a"; "b"] = 3.
Proof.
  split; [reflexivity|].
  apply (@Append_concurrent ["b"; "c"; "a"]
           [1; 1; 1; 1; 2; 2; 2; 2; 0; 0; 0; 0]
           {| Line := ["c"; "a"; "b"]; Sync := false |}
           [{| msg := "b"; at_ := Returned |}; {| msg := "c"; at_ := Returned |};
            {| msg := "a"; at_ := Returned |}]);
    reflexivity.
Defined.

(** Executions in which every producer returns exist for every list of
    messages: the mutex does not block the producers for ever. *)
Lemma Append_terminates msgs :
  exists schedule b ps,
    run schedule empty (start msgs) = Some (b, ps) /\ forallb returned ps = true.
Proof.
  destruct (@run_inTurn msgs [] [] eq_refl) as (b & ps & H & R).
  now exists (inTurn 0 (List.length msgs)), b, ps.
Qed.

End BuildLogClaims.

(** ** More facts on byte strings: [strings.Replace], [strings.HasSuffix] *)

Module ReplaceFacts.
Import StrFacts.

Lemma prefix_split (a s : string) :
  prefix a s = true -> s = a ++ Str.drop (String.length a) s.
Proof.
  revert a. induction s as [|c s IH]; intros [|x a]; simpl; try reflexivity; try discriminate.
  destruct (ascii_dec x c) as [->|N]; [|discriminate].
  intros H. now rewrite <- (IH a H).
Qed.

Lemma take_drop n : forall s, s = Str.take n s ++ Str.drop n s.
Proof.
  unfold Str.take. induction n as [|n IH]; intros [|c s]; simpl; try reflexivity.
  now rewrite <- IH.
Qed.

Lemma HasSuffix_split s suffix :
  strings_HasSuffix s suffix = true -> exists base, s = base ++ suffix.
Proof.
  unfold strings_HasSuffix. intros H. apply andb_true_iff in H. destruct H as [_ H].
  apply String.eqb_eq in H.
  exists (Str.take (String.length s - String.length suffix) s).
  pose proof (take_drop (String.length s - String.length suffix) s) as T.
  now rewrite H in T.
Qed.

Lemma HasSuffix_append base suffix : strings_HasSuffix (base ++ suffix) suffix = true.
Proof.
  unfold strings_HasSuffix. rewrite length_append. apply andb_true_iff. split.
  - apply Nat.leb_le. lia.
  - replace (String.length base + String.length suffix - String.length suffix)
      with (String.length base) by lia.
    rewrite drop_append. apply String.eqb_refl.
Qed.

Lemma append_same_length a : forall a' b b',
  a ++ b = a' ++ b' -> String.length a = String.length a' -> a = a' /\ b = b'.
Proof.
  induction a as [|x a IH]; intros [|y a'] b b' E L; simpl in *; try discriminate.
  - now split.
  - injection E as -> E. injection L as L. destruct (IH _ _ _ E L) as [-> ->]. now split.
Qed.

(** [strings.Replace(s, old, new, 1)] leaves [s] as it is when [old] does
    not occur in it, and replaces the leftmost instance otherwise. *)
Lemma Replace1_spec s old new :
  (strings_Replace1 s old new = s /\ forall pre post, s <> pre ++ old ++ post) \/
  (exists pre post,
     s = pre ++ old ++ post /\ strings_Replace1 s old new = pre ++ new ++ post /\
     forall pre' post', s = pre' ++ old ++ post' ->
                        (String.length pre <= String.length pre')%nat).
Proof.
  induction s as [|c s IH]; cbn [strings_Replace1].
  - destruct (prefix old "") eqn:P.
    + right. exists "", "". destruct old; [|discriminate].
      repeat split. intros. simpl. lia.
    + left. split; [reflexivity|]. intros pre post E.
      destruct pre; [|discriminate]. destruct old; discriminate.
  - destruct (prefix old (String c s)) eqn:P.
    + right. exists "", (Str.drop (String.length old) (String c s)).
      split; [now apply prefix_split|]. split; [reflexivity|]. intros. simpl. lia.
    + destruct IH as [[E N]|(pre & post & E & R & M)].
      * left. split; [now rewrite E|]. intros pre post H.
        destruct pre as [|x pre]; simpl in H.
        -- rewrite H, prefix_append in P. discriminate.
        -- injection H as _ H. now apply N in H.
      * right. exists (String c pre), post. simpl. rewrite <- E, R.
        repeat split. intros pre' post' H.
        destruct pre' as [|x pre']; simpl in H.
        -- rewrite H, prefix_append in P. discriminate.
        -- injection H as _ H. apply M in H. simpl. lia.
Qed.

(** The first instance of [old] starts after [pre]. *)
Lemma Replace1_first s old new pre post :
  s = pre ++ old ++ post ->
  (forall pre' post', s = pre' ++ old ++ post' ->
                      (String.length pre <= String.length pre')%nat) ->
  strings_Replace1 s old new = pre ++ new ++ post.
Proof.
  intros E M. destruct (Replace1_spec s old new) as [[_ N]|(p & q & E' & R & M')].
  - now apply N in E.
  - assert (L : String.length p = String.length pre).
    { apply Nat.le_antisymm; [now apply (M' pre post) | now apply (M p q)]. }
    rewrite E in E'. symmetry in E'.
    destruct (append_same_length _ _ _ _ E' L) as [-> H].
    assert (L2 : String.length old = String.length old) by reflexivity.
    destruct (append_same_length _ _ _ _ H L2) as [_ ->]. exact R.
Qed.

(** No instance of [old] starts in the first [n] bytes of [s]. *)
Ltac no_instance_before p H :=
  repeat (destruct p as [|? p]; simpl in H; [discriminate | injection H as _ H]);
  simpl; lia.

End ReplaceFacts.

(** ** The runs of the orchestrator *)

Module RunFacts.
Import Eff EffFacts Handler HandlerFacts StrFacts Run.
Local Open Scope eff_scope.

Lemma deployFunction_eq w deploy gatewayURL :
  deployFunction w deploy gatewayURL =
    ([EvHTTP MethodGet (gatewayURL ++ "system/functions") NoBody;
      EvHTTP (upsertMethod w deploy gatewayURL) (gatewayURL ++ "system/functions")
        (JSON deploy)],
     Ok (deployOutcome (Do w (upsertMethod w deploy gatewayURL)
                          (gatewayURL ++ "system/functions") (JSON deploy)))).
Proof.
  unfold deployFunction, functionExists, upsertMethod, listedFunctions, deployOutcome.
  destruct (Do w MethodGet _ NoBody) as [err|res]; [|destruct (functionListed _ _)]; cbn;
  match goal with |- context [Do w ?m ?u ?b] => destruct (Do w m u b) as [e|r] end; cbn;
    try reflexivity; destruct (_ || _); reflexivity.
Qed.

Lemma deployOutcome_ok answer body :
  deployOutcome answer = (body, None) <->
  exists res, answer = inr res /\ (200 <= StatusCode res <= 299)%Z /\ body = Body res.
Proof.
  unfold deployOutcome. destruct answer as [e|res].
  - split; [discriminate | intros (r & H & _); discriminate].
  - destruct (Z.ltb_spec (StatusCode res) 200), (Z.ltb_spec 299 (StatusCode res)); simpl;
      (split; [try discriminate; intros [= <-]; exists res; repeat split; lia
              | intros (r & [= <-] & H' & ->); try lia; reflexivity]).
Qed.

Lemma getEvent_error w :
  snd (getEvent w) =
  if (0 <? String.length (Getenv w "Http_Installation_id"))%nat
  then snd (Atoi w (Getenv w "Http_Installation_id")) else None.
Proof.
  unfold getEvent.
  destruct (0 <? _)%nat; [destruct (Atoi w _)|]; reflexivity.
Qed.

Lemma Handle_event_error w req e :
  snd (getEvent w) = Some e -> Handle w req = ([], Panic e).
Proof.
  intros H. unfold Handle. destruct (getEvent w) as [ev err]. simpl in H. now subst.
Qed.

Lemma Handle_build_error w req err :
  snd (getEvent w) = None ->
  Do w MethodPost (Getenv w "builder_url" ++ "build") (Raw req) = inl err ->
  Handle w req =
    (app (EvHTTP MethodPost (Getenv w "builder_url" ++ "build") (Raw req)
          :: trace (reportStatus w "failure" err "BUILD" (fst (getEvent w))))
         [EvAudit {| Message := "buildshiprun failure: " ++ err;
                     Owner := owner (fst (getEvent w));
                     Repo := repository (fst (getEvent w));
                     Source := "buildshiprun" |}],
     Ok ("buildshiprun failure: " ++ err)).
Proof.
  intros He Hd. unfold Handle.
  destruct (getEvent w) as [ev eventErr]. simpl in He. subst eventErr. simpl fst.
  rewrite Hd. rewrite bind_reportStatus. eff_simpl. reflexivity.
Qed.

Lemma Handle_no_registry w req res :
  snd (getEvent w) = None ->
  Do w MethodPost (Getenv w "builder_url" ++ "build") (Raw req) = inr res ->
  Getenv w "repository_url" = "" \/ Getenv w "push_repository_url" = "" ->
  Handle w req =
    ([EvHTTP MethodPost (Getenv w "builder_url" ++ "build") (Raw req)], Exit 1).
Proof.
  intros He Hd Hr. unfold Handle.
  destruct (getEvent w) as [ev eventErr]. simpl in He. subst eventErr. simpl fst.
  rewrite Hd.
  destruct (Getenv w "repository_url") as [|c r] eqn:R; [reflexivity|].
  destruct Hr as [Hr|Hr]; [discriminate|]. rewrite Hr. reflexivity.
Qed.

Lemma Handle_invalid_path w req res :
  snd (getEvent w) = None ->
  Do w MethodPost (Getenv w "builder_url" ++ "build") (Raw req) = inr res ->
  Getenv w "repository_url" <> "" ->
  Getenv w "push_repository_url" <> "" ->
  Image.validImage (Trim.TrimSpace (Body res)) = false ->
  Handle w req =
    (EvHTTP MethodPost (Getenv w "builder_url" ++ "build") (Raw req)
     :: trace (reportStatus w "failure" "Unable to build image, check builder logs"
                 "DEPLOY" (fst (getEvent w))),
     Exit 1).
Proof.
  intros He Hd Hr Hp Hv. unfold Handle.
  destruct (getEvent w) as [event eventErr]. simpl in He. subst eventErr. simpl fst.
  rewrite Hd, (length_eqb_0 Hr), (length_eqb_0 Hp), Hv.
  cbn [negb]. rewrite bind_reportStatus. eff_simpl.
  now rewrite app_nil_r.
Qed.

Lemma Handle_empty_path w req res :
  snd (getEvent w) = None ->
  Do w MethodPost (Getenv w "builder_url" ++ "build") (Raw req) = inr res ->
  Getenv w "repository_url" <> "" ->
  Getenv w "push_repository_url" <> "" ->
  Trim.TrimSpace (Body res) = "" ->
  Handle w req =
    (EvHTTP MethodPost (Getenv w "builder_url" ++ "build") (Raw req)
     :: EvAudit {| Message := ""; Owner := owner (fst (getEvent w));
                   Repo := repository (fst (getEvent w)); Source := "buildshiprun" |}
     :: trace (reportStatus w "success" "function successfully deployed as: " "DEPLOY"
                 (fst (getEvent w))),
     Ok ("buildStatus " ++ Body res ++ " " ++ "" ++ " " ++ Status res)).
Proof.
  intros He Hd Hr Hp Ht. unfold Handle.
  destruct (getEvent w) as [event eventErr]. simpl in He. subst eventErr. simpl fst.
  rewrite Hd, (length_eqb_0 Hr), (length_eqb_0 Hp), Ht.
  change (Image.validImage "") with true. eff_simpl.
  cbn [negb String.length Nat.ltb Nat.leb].
  eff_simpl. rewrite bind_reportStatus. eff_simpl.
  now rewrite app_nil_r.
Qed.

(** [Handle] once the builder has answered a validated, non-empty name. *)
Lemma Handle_deploy_path w req res :
  snd (getEvent w) = None ->
  Do w MethodPost (Getenv w "builder_url" ++ "build") (Raw req) = inr res ->
  Getenv w "repository_url" <> "" ->
  Getenv w "push_repository_url" <> "" ->
  Image.validImage (Trim.TrimSpace (Body res)) = true ->
  Trim.TrimSpace (Body res) <> "" ->
  let event := fst (getEvent w) in
  let deploy := deploymentOf w event (Trim.TrimSpace (Body res)) in
  let gatewayURL := Getenv w "gateway_url" in
  let sent :=
    [EvHTTP MethodPost (Getenv w "builder_url" ++ "build") (Raw req);
     EvHTTP MethodGet (gatewayURL ++ "system/functions") NoBody;
     EvHTTP (upsertMethod w deploy gatewayURL)
       (gatewayURL ++ "system/functions") (JSON deploy)] in
  Handle w req =
    match snd (deployOutcome (Do w (upsertMethod w deploy gatewayURL)
                                (gatewayURL ++ "system/functions") (JSON deploy))) with
    | Some err =>
        (app sent (trace (reportStatus w "failure" err "DEPLOY" event)), Exit 1)
    | None =>
        (app (app sent
                [EvAudit {| Message := "buildshiprun succeeded: deployed " ++ Image deploy;
                            Owner := owner event; Repo := repository event;
                            Source := "buildshiprun" |}])
             (trace (reportStatus w "success"
                       ("function successfully deployed as: " ++ Service deploy)
                       "DEPLOY" event)),
         Ok ("buildStatus " ++ Body res ++ " " ++ Image deploy ++ " " ++ Status res))
    end.
Proof.
  intros Hevent Hbuild Hrepo Hpush Hv Hn event deploy gatewayURL sent.
  subst sent deploy gatewayURL event. unfold Handle.
  destruct (getEvent w) as [ev eventErr]. simpl in Hevent. subst eventErr. simpl fst.
  rewrite Hbuild, (length_eqb_0 Hrepo), (length_eqb_0 Hpush), Hv.
  cbn [negb].
  assert (L : (0 <? String.length (Trim.TrimSpace (Body res)))%nat = true).
  { destruct (Trim.TrimSpace (Body res)); [congruence | reflexivity]. }
  rewrite L.
  change (deployFunction w _ (Getenv w "gateway_url"))
    with (deployFunction w (deploymentOf w ev (Trim.TrimSpace (Body res)))
            (Getenv w "gateway_url")).
  rewrite deployFunction_eq.
  destruct (deployOutcome _) as [body [err|]]; eff_simpl.
  - rewrite bind_reportStatus. eff_simpl. now rewrite app_nil_r.
  - rewrite bind_reportStatus. eff_simpl. now rewrite app_nil_r.
Qed.

(** The ways [reportStatus] goes. *)
Lemma reportStatus_cases w status desc ctx event :
  let mint := EvMintToken (Getenv w "github_app_id") (installationID event)
                (getPrivateKey w) in
  (enableStatusReporting w = false /\ trace (reportStatus w status desc ctx event) = []) \/
  (enableStatusReporting w = true /\
   trace (reportStatus w status desc ctx event) = [mint] /\
   (snd (MakeAccessTokenForInstallation w (Getenv w "github_app_id")
           (installationID event) (getPrivateKey w)) <> None \/
    fst (MakeAccessTokenForInstallation w (Getenv w "github_app_id")
           (installationID event) (getPrivateKey w)) = "")) \/
  (exists token,
     enableStatusReporting w = true /\
     MakeAccessTokenForInstallation w (Getenv w "github_app_id")
       (installationID event) (getPrivateKey w) = (token, None) /\
     token <> "" /\
     trace (reportStatus w status desc ctx event) =
       [mint;
        EvCreateStatus token (owner event) (repository event) (sha event)
          (buildStatus status desc ctx (buildPublicStatusURL w status event))]).
Proof.
  intros mint. subst mint. unfold reportStatus.
  destruct (enableStatusReporting w); [|left; split; reflexivity]. right. simpl.
  destruct (MakeAccessTokenForInstallation w _ _ _) as [token [e|]] eqn:M.
  - left. repeat split. left. discriminate.
  - destruct (String.eqb_spec token "") as [->|N].
    + left. repeat split. now right.
    + right. exists token. repeat split; auto.
      destruct (CreateStatus w _ _ _ _ _); reflexivity.
Qed.

Lemma reportStatus_requests w status desc ctx event :
  requests (trace (reportStatus w status desc ctx event)) = [] /\
  audits (trace (reportStatus w status desc ctx event)) = [].
Proof.
  destruct (reportStatus_cases w status desc ctx event)
    as [[_ ->]|[(_ & -> & _)|(token & _ & _ & _ & ->)]]; split; reflexivity.
Qed.

Lemma reportStatus_statuses w status desc ctx event st :
  In st (statuses (trace (reportStatus w status desc ctx event))) ->
  st = buildStatus status desc ctx (buildPublicStatusURL w status event).
Proof.
  destruct (reportStatus_cases w status desc ctx event)
    as [[_ ->]|[(_ & -> & _)|(token & _ & _ & _ & ->)]]; simpl; intros H;
    try contradiction.
  destruct H as [<-|[]]. reflexivity.
Qed.

Lemma requests_app t1 t2 : requests (t1 ++ t2) = (requests t1 ++ requests t2)%list.
Proof. apply flat_map_app. Qed.

Lemma audits_app t1 t2 : audits (t1 ++ t2) = (audits t1 ++ audits t2)%list.
Proof. apply flat_map_app. Qed.

Lemma statuses_app t1 t2 : statuses (t1 ++ t2) = (statuses t1 ++ statuses t2)%list.
Proof. apply flat_map_app. Qed.

Ltac project :=
  repeat (rewrite ?requests_app, ?audits_app, ?statuses_app;
          cbn [requests audits statuses flat_map app]);
  rewrite ?(proj1 (reportStatus_requests _ _ _ _ _)),
          ?(proj2 (reportStatus_requests _ _ _ _ _)), ?app_nil_r.

(** The six ways a run goes. *)
Lemma Handle_paths w req :
  let event := fst (getEvent w) in
  let build := EvHTTP MethodPost (Getenv w "builder_url" ++ "build") (Raw req) in
  (exists e, snd (getEvent w) = Some e /\ Handle w req = ([], Panic e)) \/
  (exists err, Handle w req =
     (app (build :: trace (reportStatus w "failure" err "BUILD" event))
          [EvAudit {| Message := "buildshiprun failure: " ++ err; Owner := owner event;
                      Repo := repository event; Source := "buildshiprun" |}],
      Ok ("buildshiprun failure: " ++ err))) \/
  Handle w req = ([build], Exit 1) \/
  Handle w req =
    (build :: trace (reportStatus w "failure" "Unable to build image, check builder logs"
                       "DEPLOY" event), Exit 1) \/
  (exists res, Handle w req =
     (build :: EvAudit {| Message := ""; Owner := owner event; Repo := repository event;
                          Source := "buildshiprun" |}
      :: trace (reportStatus w "success" "function successfully deployed as: " "DEPLOY"
                  event),
      Ok ("buildStatus " ++ Body res ++ " " ++ "" ++ " " ++ Status res))) \/
  (exists res,
     Do w MethodPost (Getenv w "builder_url" ++ "build") (Raw req) = inr res /\
     Image.validImage (Trim.TrimSpace (Body res)) = true /\
     Trim.TrimSpace (Body res) <> "" /\
     let deploy := deploymentOf w event (Trim.TrimSpace (Body res)) in
     let gatewayURL := Getenv w "gateway_url" in
     let sent :=
       [build;
        EvHTTP MethodGet (gatewayURL ++ "system/functions") NoBody;
        EvHTTP (upsertMethod w deploy gatewayURL)
          (gatewayURL ++ "system/functions") (JSON deploy)] in
     (exists err, Handle w req =
        (app sent (trace (reportStatus w "failure" err "DEPLOY" event)), Exit 1)) \/
     Handle w req =
       (app (app sent
               [EvAudit {| Message := "buildshiprun succeeded: deployed " ++ Image deploy;
                           Owner := owner event; Repo := repository event;
                           Source := "buildshiprun" |}])
            (trace (reportStatus w "success"
                      ("function successfully deployed as: " ++ Service deploy)
                      "DEPLOY" event)),
        Ok ("buildStatus " ++ Body res ++ " " ++ Image deploy ++ " " ++ Status res))).
Proof.
  intros event build. subst event build.
  destruct (snd (getEvent w)) as [e|] eqn:He.
  { left. exists e. split; [reflexivity | now apply Handle_event_error]. }
  right.
  destruct (Do w MethodPost (Getenv w "builder_url" ++ "build") (Raw req))
    as [err|res] eqn:Hd.
  { left. exists err. now apply Handle_build_error. }
  right.
  destruct (string_dec (Getenv w "repository_url") "") as [Hr|Hr].
  { left. apply Handle_no_registry with (res := res); auto. }
  destruct (string_dec (Getenv w "push_repository_url") "") as [Hp|Hp].
  { left. apply Handle_no_registry with (res := res); auto. }
  right.
  destruct (Image.validImage (Trim.TrimSpace (Body res))) eqn:Hv.
  2:{ left. now apply Handle_invalid_path with (res := res). }
  right.
  destruct (string_dec (Trim.TrimSpace (Body res)) "") as [Hn|Hn].
  { left. exists res. now apply Handle_empty_path. }
  right. exists res. repeat split; auto.
  intros deploy gatewayURL sent. subst deploy gatewayURL sent.
  rewrite (@Handle_deploy_path w req res He Hd Hr Hp Hv Hn).
  destruct (snd (deployOutcome _)) as [err|].
  - left. exists err. reflexivity.
  - right. reflexivity.
Qed.

End RunFacts.

(** ** Properties of the runs of the orchestrator *)

Module RunProperties.
Import Eff EffFacts Handler HandlerFacts StrFacts Run ReplaceFacts RunFacts.
Local Open Scope eff_scope.

(** A run on a request whose installation id is [forty-two]. *)
Example Handle_panics :
  Handle Cases.badInstallation "archive" = ([], Panic "strconv.Atoi: invalid syntax").
Proof. reflexivity. Qed.

(** X2: when the request to the builder fails in transport, [Handle]
    returns [buildshiprun failure: <error>]; the build request is the only
    request of the run, one audit event carries the same message, and the
    only commit status the run can set is the failure of the BUILD context
    with the error as description and the URL of the event. *)
Theorem Handle_build_unreachable w req err :
  snd (getEvent w) = None ->
  Do w MethodPost (Getenv w "builder_url" ++ "build") (Raw req) = inl err ->
  let event := fst (getEvent w) in
  result (Handle w req) = Ok ("buildshiprun failure: " ++ err) /\
  requests (trace (Handle w req)) =
    [(MethodPost, Getenv w "builder_url" ++ "build", Raw req)] /\
  audits (trace (Handle w req)) =
    [{| Message := "buildshiprun failure: " ++ err; Owner := owner event;
        Repo := repository event; Source := "buildshiprun" |}] /\
  forall st, In st (statuses (trace (Handle w req))) ->
             st = {| State := "failure"; TargetURL := url event;
                     Description := err; Context := "BUILD" |}.
Proof.
  intros He Hd event. rewrite (@Handle_build_error w req err He Hd).
  cbn [result trace fst snd]. subst event.
  split; [reflexivity|]. split; [|split].
  - change (?a :: ?l ++ ?r)%list with ([a] ++ l ++ r)%list. project. reflexivity.
  - change (?a :: ?l ++ ?r)%list with ([a] ++ l ++ r)%list. project. reflexivity.
  - intros st H.
    change (?a :: ?l ++ ?r)%list with ([a] ++ l ++ r)%list in H.
    rewrite !statuses_app in H. cbn [statuses flat_map app] in H.
    rewrite app_nil_r in H. apply reportStatus_statuses in H. exact H.
Qed.

Lemma Handle_build_unreachable_witness :
  snd (getEvent Cases.unreachable) = None /\
  result (Handle Cases.unreachable "archive") =
    Ok "buildshiprun failure: dial tcp: connection refused" /\
  requests (trace (Handle Cases.unreachable "archive")) =
    [(MethodPost, "http://of-builder:8080/build", Raw "archive")].
Proof.
  split; [reflexivity|].
  pose proof (@Handle_build_unreachable Cases.unreachable "archive"
                "dial tcp: connection refused" eq_refl eq_refl) as H.
  split; [exact (proj1 H) | exact (proj1 (proj2 H))].
Defined.

(** X3: when the builder has answered and one of the two registry prefixes
    ([repository_url], [push_repository_url]) is not set, the process exits
    with code 1; the build request is the only effect of the run: nothing is
    deployed, no audit event is posted and no commit status is set. *)
Theorem Handle_registry_unset w req res :
  snd (getEvent w) = None ->
  Do w MethodPost (Getenv w "builder_url" ++ "build") (Raw req) = inr res ->
  Getenv w "repository_url" = "" \/ Getenv w "push_repository_url" = "" ->
  result (Handle w req) = Exit 1 /\
  trace (Handle w req) =
    [EvHTTP MethodPost (Getenv w "builder_url" ++ "build") (Raw req)].
Proof.
  intros He Hd Hr. rewrite (@Handle_no_registry w req res He Hd Hr). now split.
Qed.

Lemma Handle_registry_unset_witness :
  Getenv Cases.noRegistry "repository_url" = "" /\
  result (Handle Cases.noRegistry "archive") = Exit 1 /\
  trace (Handle Cases.noRegistry "archive") =
    [EvHTTP MethodPost "http://of-builder:8080/build" (Raw "archive")].
Proof.
  split; [reflexivity|].
  apply (@Handle_registry_unset Cases.noRegistry "archive"
           {| Status := "200 OK"; StatusCode := 200;
              Body := "registry:5000/alexellis/kubecon-tester" |});
    [reflexivity | reflexivity | left; reflexivity].
Defined.

(** X4: when the builder has answered a valid, non-empty image name and
    the deployment fails (the request fails in transport, or the gateway
    answers a status code outside of 200..299), the process exits with
    code 1 after the three requests (build, list, deploy); no audit event is
    posted, and the only commit status the run can set is the failure of the
    DEPLOY context with the error as description. *)
Theorem Handle_deploy_failure w req res err :
  snd (getEvent w) = None ->
  Do w MethodPost (Getenv w "builder_url" ++ "build") (Raw req) = inr res ->
  Getenv w "repository_url" <> "" ->
  Getenv w "push_repository_url" <> "" ->
  Image.validImage (Trim.TrimSpace (Body res)) = true ->
  Trim.TrimSpace (Body res) <> "" ->
  let event := fst (getEvent w) in
  let deploy := deploymentOf w event (Trim.TrimSpace (Body res)) in
  let gatewayURL := Getenv w "gateway_url" in
  snd (deployOutcome (Do w (upsertMethod w deploy gatewayURL)
                        (gatewayURL ++ "system/functions") (JSON deploy))) = Some err ->
  result (Handle w req) = Exit 1 /\
  requests (trace (Handle w req)) =
    [(MethodPost, Getenv w "builder_url" ++ "build", Raw req);
     (MethodGet, gatewayURL ++ "system/functions", NoBody);
     (upsertMethod w deploy gatewayURL, gatewayURL ++ "system/functions", JSON deploy)] /\
  audits (trace (Handle w req)) = [] /\
  forall st, In st (statuses (trace (Handle w req))) ->
             st = {| State := "failure"; TargetURL := url event;
                     Description := err; Context := "DEPLOY" |}.
Proof.
  intros Hevent Hbuild Hrepo Hpush Hvalid Hname event deploy gatewayURL Ho.
  rewrite (@Handle_deploy_path w req res Hevent Hbuild Hrepo Hpush Hvalid Hname).
  fold event deploy gatewayURL. rewrite Ho. cbn [result trace fst snd].
  split; [reflexivity|]. split; [|split].
  - project. reflexivity.
  - project. reflexivity.
  - intros st H. rewrite statuses_app in H. cbn [statuses flat_map app] in H.
    apply reportStatus_statuses in H. exact H.
Qed.

Lemma Handle_deploy_failure_witness :
  result (Handle (Cases.gatewayAnswers 500) "archive") = Exit 1 /\
  audits (trace (Handle (Cases.gatewayAnswers 500) "archive")) = [].
Proof.
  assert (N1 : Getenv (Cases.gatewayAnswers 500) "repository_url" <> "") by discriminate.
  assert (N2 : Getenv (Cases.gatewayAnswers 500) "push_repository_url" <> "")
    by discriminate.
  assert (N3 : Trim.TrimSpace "registry:5000/alexellis/kubecon-tester" <> "")
    by discriminate.
  pose proof (@Handle_deploy_failure (Cases.gatewayAnswers 500) "archive"
                {| Status := "200 OK"; StatusCode := 200;
                   Body := "registry:5000/alexellis/kubecon-tester" |}
                "http status code 500" eq_refl eq_refl N1 N2 eq_refl N3 eq_refl) as H.
  split; [exact (proj1 H) | exact (proj1 (proj2 (proj2 H)))].
Defined.

(** X5: when the builder has answered a valid, non-empty image name and
    the gateway answers the deployment with a status code in 200..299,
    [Handle] returns the summary with the public image name; the run sends
    the three requests (build, list, deploy), posts one audit event
    [buildshiprun succeeded: deployed <image>], and the only commit status it
    can set is the success of the DEPLOY context for the deployed service. *)
Theorem Handle_deploy_success w req res res2 :
  snd (getEvent w) = None ->
  Do w MethodPost (Getenv w "builder_url" ++ "build") (Raw req) = inr res ->
  Getenv w "repository_url" <> "" ->
  Getenv w "push_repository_url" <> "" ->
  Image.validImage (Trim.TrimSpace (Body res)) = true ->
  Trim.TrimSpace (Body res) <> "" ->
  let event := fst (getEvent w) in
  let deploy := deploymentOf w event (Trim.TrimSpace (Body res)) in
  let gatewayURL := Getenv w "gateway_url" in
  Do w (upsertMethod w deploy gatewayURL) (gatewayURL ++ "system/functions") (JSON deploy)
    = inr res2 ->
  (200 <= StatusCode res2 <= 299)%Z ->
  result (Handle w req) =
    Ok ("buildStatus " ++ Body res ++ " " ++ Image deploy ++ " " ++ Status res) /\
  requests (trace (Handle w req)) =
    [(MethodPost, Getenv w "builder_url" ++ "build", Raw req);
     (MethodGet, gatewayURL ++ "system/functions", NoBody);
     (upsertMethod w deploy gatewayURL, gatewayURL ++ "system/functions", JSON deploy)] /\
  audits (trace (Handle w req)) =
    [{| Message := "buildshiprun succeeded: deployed " ++ Image deploy;
        Owner := owner event; Repo := repository event; Source := "buildshiprun" |}] /\
  forall st, In st (statuses (trace (Handle w req))) ->
             st = {| State := "success";
                     TargetURL := buildPublicStatusURL w "success" event;
                     Description := "function successfully deployed as: " ++ Service deploy;
                     Context := "DEPLOY" |}.
Proof.
  intros Hevent Hbuild Hrepo Hpush Hvalid Hname event deploy gatewayURL Ha Hc.
  assert (Ho : deployOutcome (Do w (upsertMethod w deploy gatewayURL)
                                (gatewayURL ++ "system/functions") (JSON deploy))
               = (Body res2, None)).
  { apply deployOutcome_ok. exists res2. auto. }
  rewrite (@Handle_deploy_path w req res Hevent Hbuild Hrepo Hpush Hvalid Hname).
  fold event deploy gatewayURL. rewrite Ho. cbn [result trace fst snd].
  split; [reflexivity|]. split; [|split].
  - project. reflexivity.
  - project. reflexivity.
  - intros st H. rewrite statuses_app in H. cbn [statuses flat_map app] in H.
    apply reportStatus_statuses in H. exact H.
Qed.

Lemma Handle_deploy_success_witness :
  result (Handle (Cases.gatewayAnswers 202) "archive") =
    Ok ("buildStatus registry:5000/alexellis/kubecon-tester "
        ++ "docker.io/ofcommunity/alexellis/kubecon-tester 200 OK") /\
  audits (trace (Handle (Cases.gatewayAnswers 202) "archive")) =
    [{| Message := "buildshiprun succeeded: deployed "
                   ++ "docker.io/ofcommunity/alexellis/kubecon-tester";
        Owner := "alexellis"; Repo := "kubecon-tester"; Source := "buildshiprun" |}].
Proof.
  assert (N1 : Getenv (Cases.gatewayAnswers 202) "repository_url" <> "") by discriminate.
  assert (N2 : Getenv (Cases.gatewayAnswers 202) "push_repository_url" <> "")
    by discriminate.
  assert (N3 : Trim.TrimSpace "registry:5000/alexellis/kubecon-tester" <> "")
    by discriminate.
  assert (C : (200 <= 202 <= 299)%Z) by lia.
  pose proof (@Handle_deploy_success (Cases.gatewayAnswers 202) "archive"
                {| Status := "200 OK"; StatusCode := 200;
                   Body := "registry:5000/alexellis/kubecon-tester" |}
                {| Status := "status"; StatusCode := 202; Body := "deployed" |}
                eq_refl eq_refl N1 N2 eq_refl N3 eq_refl C) as H.
  split; [exact (proj1 H) | exact (proj1 (proj2 (proj2 H)))].
Defined.

(** X6: a run of [Handle] sends no request, or the build request only, or
    the build request followed by the list request and one deployment
    request to the gateway; in the last case the builder has answered a
    non-empty image name that passes the validation, and the descriptor sent
    is the one built from this name. Nothing is deployed from an answer that
    fails the validation. *)
Theorem Handle_requests w req :
  let build := (MethodPost, Getenv w "builder_url" ++ "build", Raw req) in
  requests (trace (Handle w req)) = [] \/
  requests (trace (Handle w req)) = [build] \/
  exists res,
    Do w MethodPost (Getenv w "builder_url" ++ "build") (Raw req) = inr res /\
    Image.validImage (Trim.TrimSpace (Body res)) = true /\
    Trim.TrimSpace (Body res) <> "" /\
    let deploy := deploymentOf w (fst (getEvent w)) (Trim.TrimSpace (Body res)) in
    let gatewayURL := Getenv w "gateway_url" in
    requests (trace (Handle w req)) =
      [build;
       (MethodGet, gatewayURL ++ "system/functions", NoBody);
       (upsertMethod w deploy gatewayURL, gatewayURL ++ "system/functions", JSON deploy)].
Proof.
  intros build. subst build.
  destruct (Handle_paths w req)
    as [(e & _ & ->)|[(err & ->)|[->|[->|[(res & ->)|(res & Hd & Hv & Hn & H)]]]]];
    cbn [trace fst].
  - now left.
  - right. left. change (?a :: ?l)%list with ([a] ++ l)%list. project. reflexivity.
  - right. left. reflexivity.
  - right. left. change (?a :: ?l)%list with ([a] ++ l)%list. project. reflexivity.
  - right. left.
    change (?a :: ?b :: ?l)%list with ([a; b] ++ l)%list. project. reflexivity.
  - right. right. exists res. repeat split; auto.
    cbv zeta in H |- *. destruct H as [(err & ->)| ->]; cbn [trace fst]; project;
      reflexivity.
Qed.

(** X8: [reportStatus] sets a commit status only when [report_status] is
    [true] and the token service has answered a non-empty token without an
    error; the status is set with this token on the owner, the repository
    and the commit of the event, and carries the state, the description and
    the context given, with the URL of [buildPublicStatusURL]. *)
Theorem reportStatus_needs_token w status desc ctx event token o r s st :
  In (EvCreateStatus token o r s st) (trace (reportStatus w status desc ctx event)) ->
  enableStatusReporting w = true /\
  MakeAccessTokenForInstallation w (Getenv w "github_app_id")
    (installationID event) (getPrivateKey w) = (token, None) /\
  token <> "" /\
  o = owner event /\ r = repository event /\ s = sha event /\
  st = {| State := status; TargetURL := buildPublicStatusURL w status event;
          Description := desc; Context := ctx |}.
Proof.
  destruct (reportStatus_cases w status desc ctx event)
    as [[_ ->]|[(_ & -> & _)|(token' & He & Hm & Hn & ->)]]; simpl.
  - intros [].
  - intros [H|[]]. discriminate.
  - intros [H|[H|[]]]; [discriminate|]. injection H as <- <- <- <- <-.
    repeat split; auto.
Qed.

Lemma reportStatus_needs_token_witness :
  let event := fst (getEvent (Sample.world "")) in
  enableStatusReporting (Sample.world "") = true /\
  MakeAccessTokenForInstallation (Sample.world "") "1109" 42 "/var/openfaas/secrets/private-key"
    = ("v1.token", None).
Proof.
  intros event.
  pose proof (@reportStatus_needs_token (Sample.world "") "failure" "exit code 2" "BUILD"
                event "v1.token" "alexellis" "kubecon-tester" "abc123"
                {| State := "failure"; TargetURL := ""; Description := "exit code 2";
                   Context := "BUILD" |}
                (or_intror (or_introl eq_refl))) as H.
  split; [exact (proj1 H) | exact (proj1 (proj2 H))].
Defined.

(** X9: with [gateway_pretty_url] unset and [gateway_public_url] set, the
    URL of a success status is the public URL followed by
    [function/<owner>-<service>] when the public URL ends with a slash, and
    the public URL, a slash and [function/<owner>-<service>] when it does
    not. *)
Theorem buildPublicStatusURL_public w event :
  Getenv w "gateway_pretty_url" = "" ->
  Getenv w "gateway_public_url" <> "" ->
  let publicURL := Getenv w "gateway_public_url" in
  let path := "function/" ++ owner event ++ "-" ++ service event in
  ((exists base, publicURL = base ++ "/") ->
   buildPublicStatusURL w "success" event = publicURL ++ path) /\
  ((forall base, publicURL <> base ++ "/") ->
   buildPublicStatusURL w "success" event = publicURL ++ "/" ++ path).
Proof.
  intros Hp Hn publicURL path. subst publicURL path.
  unfold buildPublicStatusURL. cbn [String.eqb Ascii.eqb Bool.eqb].
  rewrite Hp. simpl.
  destruct (Getenv w "gateway_public_url") as [|c p] eqn:E; [congruence|].
  cbn [String.length Nat.ltb Nat.leb].
  destruct (strings_HasSuffix (String c p) "/") eqn:S; cbn [negb]; split.
  - intros _. reflexivity.
  - intros H. apply HasSuffix_split in S. destruct S as [base S]. now elim (H base).
  - intros [base H]. rewrite H, HasSuffix_append in S. discriminate.
  - intros _. now rewrite append_assoc.
Qed.

Lemma buildPublicStatusURL_public_witness :
  buildPublicStatusURL Cases.publicURL "success" (fst (getEvent Cases.publicURL)) =
    "https://gw.example.com" ++ "/" ++ "function/" ++ "alexellis" ++ "-" ++ "kubecon-tester".
Proof.
  assert (N : Getenv Cases.publicURL "gateway_public_url" <> "") by discriminate.
  refine (proj2 (@buildPublicStatusURL_public Cases.publicURL
                   (fst (getEvent Cases.publicURL)) eq_refl N) _).
  intros base H. pose proof (HasSuffix_append base "/") as S.
  rewrite <- H in S. discriminate S.
Defined.

(** X10: with [gateway_pretty_url] set to a template in which [user]
    occurs first after [pre] and, once the owner is substituted, [function]
    occurs first after [mid], the URL of a success status is the template
    with the owner in the place of [user] and the service in the place of
    [function]. *)
Theorem buildPublicStatusURL_pretty w event pre mid post :
  Getenv w "gateway_pretty_url" = pre ++ "user" ++ mid ++ "function" ++ post ->
  (forall p q, pre ++ "user" ++ mid ++ "function" ++ post = p ++ "user" ++ q ->
               (String.length pre <= String.length p)%nat) ->
  (forall p q, pre ++ owner event ++ mid ++ "function" ++ post = p ++ "function" ++ q ->
               (String.length (pre ++ owner event ++ mid) <= String.length p)%nat) ->
  buildPublicStatusURL w "success" event =
    pre ++ owner event ++ mid ++ service event ++ post.
Proof.
  intros E M1 M2. unfold buildPublicStatusURL. cbn [String.eqb Ascii.eqb Bool.eqb]. simpl.
  rewrite E.
  assert (L : (0 <? String.length (pre ++ "user" ++ mid ++ "function" ++ post))%nat = true).
  { apply Nat.ltb_lt. rewrite length_append. simpl. lia. }
  rewrite L.
  rewrite (@Replace1_first _ "user" (owner event) pre (mid ++ "function" ++ post) eq_refl M1).
  assert (A : pre ++ owner event ++ mid ++ "function" ++ post
              = (pre ++ owner event ++ mid) ++ "function" ++ post).
  { now rewrite !append_assoc. }
  rewrite A in M2 |- *.
  rewrite (@Replace1_first _ "function" (service event) _ post eq_refl M2).
  now rewrite !append_assoc.
Qed.

Lemma buildPublicStatusURL_pretty_witness :
  buildPublicStatusURL Cases.prettyURL "success" (fst (getEvent Cases.prettyURL)) =
    "https://" ++ "alexellis" ++ ".get-faas.com/" ++ "kubecon-tester" ++ "".
Proof.
  apply (@buildPublicStatusURL_pretty Cases.prettyURL (fst (getEvent Cases.prettyURL))
           "https://" ".get-faas.com/" "").
  - reflexivity.
  - intros p q H. no_instance_before p H.
  - intros p q H. change (owner (fst (getEvent Cases.prettyURL))) with "alexellis" in *.
    no_instance_before p H.
Defined.

(** X11: [getImageName] leaves a name in which the push prefix does not
    occur as it is; otherwise it replaces the leftmost instance of the push
    prefix, and only this one, by the public prefix. *)
Theorem getImageName_first_instance repositoryURL pushRepositoryURL imageName :
  (getImageName repositoryURL pushRepositoryURL imageName = imageName /\
   forall pre post, imageName <> pre ++ pushRepositoryURL ++ post) \/
  (exists pre post,
     imageName = pre ++ pushRepositoryURL ++ post /\
     getImageName repositoryURL pushRepositoryURL imageName = pre ++ repositoryURL ++ post /\
     forall pre' post', imageName = pre' ++ pushRepositoryURL ++ post' ->
                        (String.length pre <= String.length pre')%nat).
Proof. unfold getImageName. apply Replace1_spec. Qed.

End RunProperties.

(** ** The draining task and the runs of the build service *)

Module LinesFacts.
Import Eff EffFacts Builder BuilderFacts StrFacts Lines.
Local Open Scope eff_scope.

Lemma drainStatuses_lines w ss : forall st,
  drainStatuses w ss st =
    ({| BuildLog.Line := BuildLog.Line (fst st)
          ++ map (fun x => sprintfStatus w (STimestamp x) (SID x) (Current x)) ss;
        BuildLog.Sync := BuildLog.Sync (fst st) |}, snd st).
Proof.
  induction ss as [|s ss IH]; intros [b n]; simpl.
  - rewrite app_nil_r. now destruct b.
  - rewrite IH. simpl. now rewrite <- app_assoc.
Qed.

Lemma drainLogs_lines w ls : forall st,
  drainLogs w ls st =
    ({| BuildLog.Line := BuildLog.Line (fst st)
          ++ map (fun l => sprintfLog w (LTimestamp l) (Data l)) ls;
        BuildLog.Sync := BuildLog.Sync (fst st) |}, snd st).
Proof.
  induction ls as [|l ls IH]; intros [b n]; simpl.
  - rewrite app_nil_r. now destruct b.
  - rewrite IH. simpl. now rewrite <- app_assoc.
Qed.

Lemma vertexLine_started w v tick :
  Started v <> None -> vertexLine w v tick = ret (startedLine w v, tick).
Proof.
  unfold vertexLine, startedLine. intros H.
  destruct (Started v); [|congruence]. now destruct (Completed v).
Qed.

Lemma drainVertexes_lines w vs : forall st,
  Forall (fun v => Started v <> None) vs ->
  drainVertexes w vs st =
    ([], Ok ({| BuildLog.Line := BuildLog.Line (fst st) ++ map (startedLine w) vs;
                BuildLog.Sync := BuildLog.Sync (fst st) |}, snd st)).
Proof.
  induction vs as [|v vs IH]; intros [b n] F; simpl.
  - rewrite app_nil_r. now destruct b.
  - inversion F as [|? ? Hv F']; subst.
    rewrite vertexLine_started by assumption. cbn.
    rewrite IH by assumption. simpl. now rewrite <- app_assoc.
Qed.

Lemma drain_lines w ch : forall st,
  Forall allStarted ch ->
  drain w ch st =
    ([], Ok ({| BuildLog.Line := BuildLog.Line (fst st) ++ flat_map (statusLines w) ch;
                BuildLog.Sync := BuildLog.Sync (fst st) |}, snd st)).
Proof.
  induction ch as [|s ch IH]; intros [b n] F; simpl.
  - rewrite app_nil_r. now destruct b.
  - inversion F as [|? ? Hs F']; subst.
    rewrite drainVertexes_lines by assumption. cbn.
    rewrite drainStatuses_lines, drainLogs_lines. simpl.
    rewrite IH by assumption. simpl. unfold statusLines.
    now rewrite <- !app_assoc.
Qed.

(** Draining emits no event, however it ends, and ends with its state or
    with the panic of a nil dereference. *)
Lemma drainVertexes_trace w vs : forall st,
  trace (drainVertexes w vs st) = [] /\
  (forall c, result (drainVertexes w vs st) <> Exit c).
Proof.
  induction vs as [|v vs IH]; intros st; simpl; [split; [reflexivity | discriminate]|].
  unfold vertexLine, trace, result in *.
  destruct (Completed v), (Started v); cbn; try (split; [reflexivity | discriminate]);
    rewrite (proj1 (IH _)); (split; [reflexivity | apply IH]).
Qed.

Lemma drain_trace w ch : forall st,
  trace (drain w ch st) = [] /\ (forall c, result (drain w ch st) <> Exit c).
Proof.
  induction ch as [|s ch IH]; intros st; simpl; [split; [reflexivity | discriminate]|].
  unfold bind.
  destruct (drainVertexes_trace w (Vertexes s) st) as [T R].
  unfold trace, result in *.
  destruct (snd (drainVertexes w (Vertexes s) st)) as [st1|c|m] eqn:E; cbn.
  - rewrite T. simpl. apply IH.
  - now elim (R c).
  - rewrite T. split; [reflexivity | discriminate].
Qed.

Lemma drainVertexes_panics w vs : forall st,
  Exists unstarted vs -> exists msg, result (drainVertexes w vs st) = Panic msg.
Proof.
  induction vs as [|v vs IH]; intros st E; [inversion E|]. simpl. unfold vertexLine.
  inversion E as [? ? [Hc Hs]|? ? E']; subst.
  - rewrite Hs. destruct (Completed v); [|congruence]. cbn. eauto.
  - destruct (Completed v), (Started v); cbn; eauto; apply IH; assumption.
Qed.

Lemma drain_panics w ch : forall st,
  Exists (fun s => Exists unstarted (Vertexes s)) ch ->
  exists msg, result (drain w ch st) = Panic msg.
Proof.
  induction ch as [|s ch IH]; intros st E; [inversion E|]. simpl.
  unfold bind, result in *.
  destruct (snd (drainVertexes w (Vertexes s) st)) as [st1|c|m] eqn:R; cbn.
  - inversion E as [? ? Hs|? ? E']; subst.
    + destruct (drainVertexes_panics w st Hs) as [msg H]. unfold result in H. congruence.
    + apply IH. assumption.
  - now elim (proj2 (drainVertexes_trace w (Vertexes s) st) c).
  - eauto.
Qed.

(** [build] once the engine is connected: the solve request, then the
    result of the draining task decides. *)
Lemma build_at_solve w body tmpdir bytes cfg :
  TempDir w = inr tmpdir ->
  Untar w body tmpdir (negb (lchownEnabled w)) = None ->
  ReadFile w (filepath_Join tmpdir "config") = inr bytes ->
  unmarshalConfig w bytes = inr cfg ->
  Ref cfg <> "" ->
  clientNew w "tcp://of-buildkit:1234" = None ->
  let opt := solveOptOf w tmpdir cfg in
  let t := [EvTempDir; EvUntar tmpdir (negb (lchownEnabled w));
            EvReadFile (filepath_Join tmpdir "config");
            EvDial "tcp://of-buildkit:1234"; EvSolve opt] in
  (exists st,
     drain w (fst (Solve w opt)) (BuildLog.empty, 0) = ([], Ok st) /\
     build w body =
       ((t ++ [EvRemoveAll tmpdir])%list,
        Ok (Some (resultOf cfg st (snd (Solve w opt))), snd (Solve w opt)))) \/
  (exists msg,
     drain w (fst (Solve w opt)) (BuildLog.empty, 0) = ([], Panic msg) /\
     build w body = (t, Panic msg)).
Proof.
  intros Ht Hu Hr Hc N Hn. unfold build.
  rewrite Ht. cbn. rewrite Hu. cbn. rewrite Hr. cbn. rewrite Hc.
  destruct (String.eqb_spec (Ref cfg) "") as [E|_]; [contradiction|]. cbn.
  rewrite Hn. cbn.
  match goal with
  | |- context [Solve w {| Exporter := ?a; ExporterAttrs := ?b; LocalDirs := ?c;
                           SolveFrontend := ?d; FrontendAttrs := ?e |}] =>
      set (opt := {| Exporter := a; ExporterAttrs := b; LocalDirs := c;
                     SolveFrontend := d; FrontendAttrs := e |})
  end.
  assert (O : opt = solveOptOf w tmpdir cfg).
  { subst opt. unfold solveOptOf.
    destruct (String.eqb_spec (match LookupEnv w "insecure" with
                               | Some val => val | None => "false" end) "true") as [->|_];
      destruct (String.eqb (Frontend cfg) ""); reflexivity. }
  clearbody opt. subst opt.
  destruct (Solve w (solveOptOf w tmpdir cfg)) as [ch solveErr]. cbn [fst snd].
  destruct (drain_trace w ch (BuildLog.empty, 0)) as [T R].
  destruct (drain w ch (BuildLog.empty, 0)) as [td [st|c|m]] eqn:Hd;
    cbn [trace result fst snd] in T, R; subst td.
  - left. exists st. split; [reflexivity|].
    destruct solveErr; destruct (String.eqb (Frontend cfg) ""); reflexivity.
  - now elim (R c).
  - right. exists m. split; [reflexivity|].
    destruct solveErr; destruct (String.eqb (Frontend cfg) ""); reflexivity.
Qed.

(** The ways [build] goes: the events up to the failing step, or the solve. *)
Lemma build_paths w body :
  let untar dir := EvUntar dir (negb (lchownEnabled w)) in
  let read dir := EvReadFile (filepath_Join dir "config") in
  let dial := EvDial "tcp://of-buildkit:1234" in
  (exists msg, TempDir w = inl msg /\ build w body = ([EvTempDir], Ok (None, Some msg))) \/
  (exists tmpdir, TempDir w = inr tmpdir /\
    ((exists msg t,
        build w body = ((EvTempDir :: t) ++ [EvRemoveAll tmpdir], Ok (None, Some msg))%list /\
        (t = [untar tmpdir] \/ t = [untar tmpdir; read tmpdir]
         \/ t = [untar tmpdir; read tmpdir; dial])) \/
     (exists bytes cfg,
        ReadFile w (filepath_Join tmpdir "config") = inr bytes /\
        unmarshalConfig w bytes = inr cfg /\
        Ref cfg <> "" /\
        let opt := solveOptOf w tmpdir cfg in
        let t := [EvTempDir; untar tmpdir; read tmpdir; dial; EvSolve opt] in
        (exists st,
           drain w (fst (Solve w opt)) (BuildLog.empty, 0) = ([], Ok st) /\
           build w body =
             ((t ++ [EvRemoveAll tmpdir])%list,
              Ok (Some (resultOf cfg st (snd (Solve w opt))), snd (Solve w opt)))) \/
        (exists msg,
           drain w (fst (Solve w opt)) (BuildLog.empty, 0) = ([], Panic msg) /\
           build w body = (t, Panic msg))))).
Proof.
  intros untar read dial. subst untar read dial.
  destruct (TempDir w) as [e|tmpdir] eqn:Ht.
  { left. exists e. split; [reflexivity|]. unfold build. now rewrite Ht. }
  right. exists tmpdir. split; [reflexivity|].
  destruct (Untar w body tmpdir (negb (lchownEnabled w))) as [e|] eqn:Hu.
  { left. exists e, [EvUntar tmpdir (negb (lchownEnabled w))].
    split; [|now left]. unfold build. rewrite Ht. cbn. now rewrite Hu. }
  destruct (ReadFile w (filepath_Join tmpdir "config")) as [e|bytes] eqn:Hr.
  { left. exists e, [EvUntar tmpdir (negb (lchownEnabled w));
                     EvReadFile (filepath_Join tmpdir "config")].
    split; [|right; now left].
    unfold build. rewrite Ht. cbn. rewrite Hu. cbn. now rewrite Hr. }
  destruct (unmarshalConfig w bytes) as [e|cfg] eqn:Hc.
  { left. exists e, [EvUntar tmpdir (negb (lchownEnabled w));
                     EvReadFile (filepath_Join tmpdir "config")].
    split; [|right; now left].
    unfold build. rewrite Ht. cbn. rewrite Hu. cbn. rewrite Hr. cbn. now rewrite Hc. }
  destruct (String.eqb_spec (Ref cfg) "") as [E|N].
  { left. exists "no target reference to push",
                 [EvUntar tmpdir (negb (lchownEnabled w));
                  EvReadFile (filepath_Join tmpdir "config")].
    split; [|right; now left].
    unfold build. rewrite Ht. cbn. rewrite Hu. cbn. rewrite Hr. cbn. now rewrite Hc, E. }
  destruct (clientNew w "tcp://of-buildkit:1234") as [e|] eqn:Hn.
  { left. exists e, [EvUntar tmpdir (negb (lchownEnabled w));
                     EvReadFile (filepath_Join tmpdir "config");
                     EvDial "tcp://of-buildkit:1234"].
    split; [|right; now right].
    unfold build. rewrite Ht. cbn. rewrite Hu. cbn. rewrite Hr. cbn. rewrite Hc.
    destruct (String.eqb_spec (Ref cfg) "") as [E|_]; [contradiction|]. cbn.
    now rewrite Hn. }
  right. exists bytes, cfg. repeat split; auto.
  now apply build_at_solve with (bytes := bytes).
Qed.

Lemma buildHandler_of w body t dt err :
  build w body = (t, Ok (dt, err)) ->
  buildHandler w body =
    (t, Ok match err with
           | Some e =>
               {| StatusCode := 500;
                  Body := match dt with
                          | Some _ => dt
                          | None => Some {| Log := []; ImageName := "";
                                            Status := "unexpected failure: " ++ e |}
                          end |}
           | None => {| StatusCode := 200; Body := dt |}
           end).
Proof.
  intros B. unfold buildHandler. rewrite B. unfold bind. cbn [fst snd].
  destruct err; cbn [ret fst snd]; now rewrite app_nil_r.
Qed.

Lemma buildHandler_panic w body t msg :
  build w body = (t, Panic msg) -> buildHandler w body = (t, Panic msg).
Proof. intros B. unfold buildHandler. now rewrite B. Qed.

End LinesFacts.

(** ** Properties of the build service *)

Module BuildProperties.
Import Eff EffFacts Builder BuilderFacts StrFacts Lines LinesFacts.
Local Open Scope eff_scope.

(** X12: every response of [buildHandler] carries a build result; its
    status code is 200 or 500; it is 200 exactly when the status of the
    result is [success], and 500 exactly when the status is [failure: ...]
    or [unexpected failure: ...]. *)
Theorem buildHandler_response w body resp :
  result (buildHandler w body) = Ok resp ->
  exists r,
    Body resp = Some r /\
    (StatusCode resp = 200%Z <-> Status r = "success") /\
    (StatusCode resp = 500%Z <->
     exists msg, Status r = "failure: " ++ msg \/ Status r = "unexpected failure: " ++ msg) /\
    (StatusCode resp = 200%Z \/ StatusCode resp = 500%Z).
Proof.
  destruct (build_paths w body)
    as [(msg & _ & B)|(tmpdir & _ & [(msg & t & B & _)|(bytes & cfg & _ & _ & _ & H)])].
  - rewrite (buildHandler_of B). cbn [result snd]. intros [= <-].
    eexists. split; [reflexivity|]. cbn. repeat split; try discriminate; eauto.
  - rewrite (buildHandler_of B). cbn [result snd]. intros [= <-].
    eexists. split; [reflexivity|]. cbn. repeat split; try discriminate; eauto.
  - cbv zeta in H. destruct H as [(st & _ & B)|(msg & _ & B)].
    + rewrite (buildHandler_of B). cbn [result snd].
      destruct (snd (Solve w _)) as [e|]; intros [= <-];
        (eexists; split; [reflexivity|]); cbn;
        repeat split; try discriminate; eauto.
      intros (msg & [H|H]); discriminate.
    + rewrite (buildHandler_panic B). discriminate.
Qed.

Lemma buildHandler_response_witness :
  exists r,
    Body {| StatusCode := 500;
            Body := Some {| Log := ["v: load build definition"; "l: step 1/4"];
                            ImageName := "registry:5000/alexellis/kubecon-tester";
                            Status := "failure: exit code 2" |} |} = Some r /\
    (500%Z = 200%Z <-> Status r = "success") /\
    (500%Z = 500%Z <->
     exists msg, Status r = "failure: " ++ msg \/ Status r = "unexpected failure: " ++ msg) /\
    (500%Z = 200%Z \/ 500%Z = 500%Z).
Proof.
  exact (@buildHandler_response (Sample.builder Sample.someRef Sample.failingSolve)
           "archive" _ eq_refl).
Defined.

(** X13: [build] returns no error only when the archive was unpacked, its
    configuration read and parsed with a non-empty target reference, and the
    engine solved the request without an error; the response is then 200
    with status [success], the target reference as image name and the
    drained log, which has one line per vertex, status and log event the
    engine sent. *)
Theorem build_success w body dt :
  result (build w body) = Ok (dt, None) ->
  exists tmpdir bytes cfg st,
    TempDir w = inr tmpdir /\
    ReadFile w (filepath_Join tmpdir "config") = inr bytes /\
    unmarshalConfig w bytes = inr cfg /\
    Ref cfg <> "" /\
    snd (Solve w (solveOptOf w tmpdir cfg)) = None /\
    drain w (fst (Solve w (solveOptOf w tmpdir cfg))) (BuildLog.empty, 0) = ([], Ok st) /\
    result (buildHandler w body) =
      Ok {| StatusCode := 200;
            Body := Some {| Log := BuildLog.Line (fst st);
                            ImageName := Ref cfg;
                            Status := "success" |} |} /\
    List.length (BuildLog.Line (fst st)) =
      list_sum (map statusCount (fst (Solve w (solveOptOf w tmpdir cfg)))).
Proof.
  destruct (build_paths w body)
    as [(msg & _ & B)|(tmpdir & Ht & [(msg & t & B & _)|(bytes & cfg & Hr & Hc & Hn & H)])].
  - rewrite B. discriminate.
  - rewrite B. discriminate.
  - cbv zeta in H. destruct H as [(st & Hd & B)|(msg & _ & B)]; rewrite B; [|discriminate].
    cbn [result snd]. intros [= <- E].
    exists tmpdir, bytes, cfg, st. repeat split; auto.
    + rewrite (buildHandler_of B). cbn [result snd]. unfold resultOf. now rewrite !E.
    + apply drain_ok in Hd. destruct Hd as [_ Hd]. exact Hd.
Qed.

Lemma build_success_witness :
  exists st : BuildLog.buildLog * nat,
    result (buildHandler (Sample.builder Sample.someRef Cases.completedSolve) "archive") =
      Ok {| StatusCode := 200;
            Body := Some {| Log := BuildLog.Line (fst st);
                            ImageName := "registry:5000/alexellis/kubecon-tester";
                            Status := "success" |} |} /\
    List.length (BuildLog.Line (fst st)) = 3.
Proof.
  destruct (@build_success (Sample.builder Sample.someRef Cases.completedSolve) "archive"
              _ eq_refl)
    as (tmpdir & bytes & cfg & st & _ & _ & Hc & _ & _ & _ & Hb & Hl).
  injection Hc as <-. exists st. split; [exact Hb | exact Hl].
Defined.

(** X14: a solve request that [build] submits is the one built from the
    parsed configuration of the archive, whose target reference is not
    empty: it exports under the lower-cased reference, always pushes, and
    marks the registry insecure only when the variable [insecure] is set to
    [true]. *)
Theorem build_solve_request w body opt :
  In (EvSolve opt) (trace (build w body)) ->
  exists tmpdir bytes cfg,
    TempDir w = inr tmpdir /\
    ReadFile w (filepath_Join tmpdir "config") = inr bytes /\
    unmarshalConfig w bytes = inr cfg /\
    Ref cfg <> "" /\
    opt = solveOptOf w tmpdir cfg /\
    In ("name", ToLower w (Ref cfg)) (ExporterAttrs opt) /\
    In ("push", "true") (ExporterAttrs opt) /\
    (forall v, In ("registry.insecure", v) (ExporterAttrs opt) ->
               v = "true" /\ LookupEnv w "insecure" = Some "true").
Proof.
  destruct (build_paths w body)
    as [(msg & _ & B)|(tmpdir & Ht & [(msg & t & B & T)|(bytes & cfg & Hr & Hc & Hn & H)])].
  - rewrite B. intros [H|[]]. discriminate.
  - rewrite B. cbn [trace fst]. intros H. exfalso.
    destruct T as [-> | [-> | ->]]; simpl in H; intuition discriminate.
  - assert (I : In (EvSolve opt)
                  [EvTempDir; EvUntar tmpdir (negb (lchownEnabled w));
                   EvReadFile (filepath_Join tmpdir "config");
                   EvDial "tcp://of-buildkit:1234";
                   EvSolve (solveOptOf w tmpdir cfg); EvRemoveAll tmpdir] ->
                opt = solveOptOf w tmpdir cfg).
    { simpl. intros [X|[X|[X|[X|[X|[X|[]]]]]]]; try discriminate. now injection X. }
    cbv zeta in H.
    intros Hin. assert (O : opt = solveOptOf w tmpdir cfg).
    { destruct H as [(st & _ & B)|(msg & _ & B)]; rewrite B in Hin; cbn [trace fst] in Hin.
      - now apply I.
      - apply I. simpl in *. intuition. }
    exists tmpdir, bytes, cfg. rewrite O.
    split; [exact Ht|]. split; [exact Hr|]. split; [exact Hc|]. split; [exact Hn|].
    split; [reflexivity|]. split; [simpl; now left|]. split; [simpl; now right; left|].
    intros v Hv. unfold solveOptOf, ExporterAttrs in Hv. simpl in Hv.
    destruct Hv as [X|[X|X]]; try discriminate.
    destruct (LookupEnv w "insecure") as [val|]; [|contradiction].
    destruct (String.eqb_spec val "true") as [E|_]; [|contradiction].
    destruct X as [X|[]]. injection X as <-. now rewrite E.
Qed.

Lemma build_solve_request_witness :
  exists tmpdir bytes cfg,
    TempDir (Sample.builder Sample.someRef Sample.failingSolve) = inr tmpdir /\
    ReadFile (Sample.builder Sample.someRef Sample.failingSolve)
      (filepath_Join tmpdir "config") = inr bytes /\
    unmarshalConfig (Sample.builder Sample.someRef Sample.failingSolve) bytes = inr cfg /\
    Ref cfg <> "".
Proof.
  destruct (@build_solve_request (Sample.builder Sample.someRef Sample.failingSolve)
              "archive"
              (solveOptOf (Sample.builder Sample.someRef Sample.failingSolve)
                 "/tmp/buildctx1" Sample.someRef)
              (or_intror (or_intror (or_intror (or_intror (or_introl eq_refl))))))
    as (tmpdir & bytes & cfg & Ht & Hr & Hc & Hn & _).
  exists tmpdir, bytes, cfg. repeat split; assumption.
Defined.

(** X15: a call of [build] that returns has created at most one temporary
    directory; when the directory was created its removal is the last
    effect of the call, whatever [build] returns, and everything else (the
    unpacking, the read of the configuration, the connection, the solve)
    happens between the two. *)
Theorem build_removes_directory w body r :
  result (build w body) = Ok r ->
  (exists msg, TempDir w = inl msg /\ trace (build w body) = [EvTempDir]) \/
  (exists tmpdir t,
     TempDir w = inr tmpdir /\
     trace (build w body) = (EvTempDir :: t ++ [EvRemoveAll tmpdir])%list /\
     Forall scoped t).
Proof.
  destruct (build_paths w body)
    as [(msg & Ht & B)|(tmpdir & Ht & [(msg & t & B & T)|(bytes & cfg & _ & _ & _ & H)])].
  - intros _. left. exists msg. now rewrite B.
  - intros _. right. exists tmpdir, t. rewrite B. repeat split; auto.
    destruct T as [-> | [-> | ->]]; repeat constructor.
  - cbv zeta in H. destruct H as [(st & _ & B)|(msg & _ & B)]; rewrite B; [|discriminate].
    intros _. right. eexists tmpdir, _. split; [exact Ht|].
    split; [reflexivity|]. repeat constructor.
Qed.

Lemma build_removes_directory_witness :
  (exists msg, TempDir (Sample.builder Sample.noRef ([], None)) = inl msg /\
               trace (build (Sample.builder Sample.noRef ([], None)) "archive")
               = [EvTempDir]) \/
  (exists tmpdir t,
     TempDir (Sample.builder Sample.noRef ([], None)) = inr tmpdir /\
     trace (build (Sample.builder Sample.noRef ([], None)) "archive") =
       (EvTempDir :: t ++ [EvRemoveAll tmpdir])%list /\
     Forall scoped t).
Proof.
  exact (@build_removes_directory (Sample.builder Sample.noRef ([], None)) "archive"
           _ eq_refl).
Defined.

(** X16: when every vertex the engine sends has its start time set, the
    log of the build result [build] returns holds the lines of the statuses
    in the order the engine sent them: for each status its vertexes, then its
    status events, then its log events. *)
Theorem build_log_in_order w body r err :
  result (build w body) = Ok (Some r, err) ->
  (forall opt, Forall allStarted (fst (Solve w opt))) ->
  exists tmpdir bytes cfg,
    TempDir w = inr tmpdir /\
    ReadFile w (filepath_Join tmpdir "config") = inr bytes /\
    unmarshalConfig w bytes = inr cfg /\
    Log r = flat_map (statusLines w) (fst (Solve w (solveOptOf w tmpdir cfg))).
Proof.
  destruct (build_paths w body)
    as [(msg & _ & B)|(tmpdir & Ht & [(msg & t & B & _)|(bytes & cfg & Hr & Hc & _ & H)])].
  - rewrite B. discriminate.
  - rewrite B. discriminate.
  - cbv zeta in H. destruct H as [(st & Hd & B)|(msg & _ & B)]; rewrite B; [|discriminate].
    cbn [result snd]. intros [= <- _] F.
    exists tmpdir, bytes, cfg. repeat split; auto.
    rewrite drain_lines in Hd by apply F. injection Hd as <-. reflexivity.
Qed.

Lemma build_log_in_order_witness :
  exists tmpdir bytes cfg,
    TempDir (Sample.builder Sample.someRef Cases.completedSolve) = inr tmpdir /\
    ReadFile (Sample.builder Sample.someRef Cases.completedSolve)
      (filepath_Join tmpdir "config") = inr bytes /\
    unmarshalConfig (Sample.builder Sample.someRef Cases.completedSolve) bytes = inr cfg /\
    ["v: exporting to image 0.50s"; "s: pushing layers"; "l: done"] =
      flat_map (statusLines (Sample.builder Sample.someRef Cases.completedSolve))
        (fst (Solve (Sample.builder Sample.someRef Cases.completedSolve)
                (solveOptOf (Sample.builder Sample.someRef Cases.completedSolve)
                   tmpdir cfg))).
Proof.
  apply (@build_log_in_order (Sample.builder Sample.someRef Cases.completedSolve) "archive"
           {| Log := ["v: exporting to image 0.50s"; "s: pushing layers"; "l: done"];
              ImageName := "registry:5000/alexellis/kubecon-tester";
              Status := "success" |} None eq_refl).
  intros opt. repeat constructor. discriminate.
Defined.

(** X17: when the engine sends a vertex that is completed and has no start
    time, the draining task dereferences a nil start time: the build service
    panics instead of answering, and the temporary directory of the request
    is not removed. *)
Theorem build_unstarted_vertex_panics w body tmpdir bytes cfg :
  TempDir w = inr tmpdir ->
  Untar w body tmpdir (negb (lchownEnabled w)) = None ->
  ReadFile w (filepath_Join tmpdir "config") = inr bytes ->
  unmarshalConfig w bytes = inr cfg ->
  Ref cfg <> "" ->
  clientNew w "tcp://of-buildkit:1234" = None ->
  Exists (fun s => Exists unstarted (Vertexes s)) (fst (Solve w (solveOptOf w tmpdir cfg))) ->
  exists msg,
    result (buildHandler w body) = Panic msg /\
    forall dir, ~ In (EvRemoveAll dir) (trace (buildHandler w body)).
Proof.
  intros Ht Hu Hr Hc Hn Hk Hx.
  destruct (drain_panics w (BuildLog.empty, 0) Hx) as [msg Hp].
  destruct (@build_at_solve w body tmpdir bytes cfg Ht Hu Hr Hc Hn Hk)
    as [(st & Hd & _)|(m & Hd & B)].
  - rewrite Hd in Hp. discriminate.
  - exists m. rewrite (buildHandler_panic B). split; [reflexivity|].
    cbn [trace fst]. intros dir [H|[H|[H|[H|[H|[]]]]]]; discriminate.
Qed.

Lemma build_unstarted_vertex_panics_witness :
  exists msg,
    result (buildHandler (Sample.builder Sample.someRef Cases.unstartedSolve) "archive")
    = Panic msg /\
    forall dir,
      ~ In (EvRemoveAll dir)
          (trace (buildHandler (Sample.builder Sample.someRef Cases.unstartedSolve)
                    "archive")).
Proof.
  assert (N : Ref Sample.someRef <> "") by discriminate.
  apply (@build_unstarted_vertex_panics (Sample.builder Sample.someRef Cases.unstartedSolve)
           "archive" "/tmp/buildctx1" "{config}" Sample.someRef
           eq_refl eq_refl eq_refl eq_refl N eq_refl).
  apply Exists_cons_hd. apply Exists_cons_hd. split; [discriminate | reflexivity].
Defined.

End BuildProperties.

(** ** More properties of the build log *)

Module BuildLogProperties.
Import BuildLog BuildLogFacts.

Lemma exec_line b p b' p' :
  fresh b p -> exec b p = Some (b', p') ->
  Line b' = Line b \/ Line b' = (Line b ++ [msg p])%list.
Proof.
  unfold exec, fresh. destruct (at_ p) as [| |line| |]; intros F E.
  - destruct (Sync b); [discriminate|]. injection E as <- <-. now left.
  - injection E as <- <-. now left.
  - injection E as <- <-. right. simpl. now rewrite F.
  - injection E as <- <-. now left.
  - discriminate.
Qed.

Lemma run_extends schedule : forall b ps b' ps',
  Inv b ps -> run schedule b ps = Some (b', ps') ->
  exists more, Line b' = (Line b ++ more)%list.
Proof.
  induction schedule as [|i rest IH]; intros b ps b' ps' I H; simpl in H.
  - injection H as <- <-. exists []. now rewrite app_nil_r.
  - destruct (step_at i b ps) as [[b1 ps1]|] eqn:E; [|discriminate].
    apply step_at_split in E. destruct E as (l1 & p & p' & l2 & -> & -> & E).
    assert (F : fresh b p).
    { destruct I as [_ _ HF]. apply Forall_app in HF. destruct HF as [_ HF].
      now inversion HF. }
    apply (IH _ _ _ _ (@exec_inv b l1 p l2 b1 p' E I)) in H. destruct H as [more H].
    destruct (@exec_line b p b1 p' F E) as [L|L]; rewrite L in H.
    + now exists more.
    + exists (msg p :: more). rewrite H, <- app_assoc. reflexivity.
Qed.

(** X18: at every point of every execution of producers that call
    [Append] on the empty log, at most one producer is between [Lock] and
    [Unlock], the mutex is held exactly when there is one, and the log holds
    exactly the messages of the producers that have written theirs, each one
    once. *)
Theorem Append_mutual_exclusion msgs schedule b ps :
  run schedule empty (start msgs) = Some (b, ps) ->
  holders ps <= 1 /\
  (holders ps = 1 <-> Sync b = true) /\
  Permutation (Line b) (flat_map written ps).
Proof.
  intros H. apply run_inv in H; [|apply start_inv].
  destruct H as [[HL HK _] _]. rewrite HK.
  destruct (Sync b); repeat split; auto; discriminate.
Qed.

Lemma Append_mutual_exclusion_witness :
  holders [{| msg := "a"; at_ := Calling |}; {| msg := "b"; at_ := Loaded [] |}] <= 1 /\
  Permutation [] (flat_map written
    [{| msg := "a"; at_ := Calling |}; {| msg := "b"; at_ := Loaded [] |}]).
Proof.
  pose proof (@Append_mutual_exclusion ["a"; "b"] [1; 1]
                {| Line := []; Sync := true |}
                [{| msg := "a"; at_ := Calling |}; {| msg := "b"; at_ := Loaded [] |}]
                eq_refl) as H.
  split; [exact (proj1 H) | exact (proj2 (proj2 H))].
Defined.

(** X19: the log only grows at its end: in every execution of producers
    that call [Append] on the empty log, the log at a later point is the log
    at an earlier point followed by the lines appended in between; no line
    is lost, overwritten or moved. *)
Theorem Append_only msgs before after b1 ps1 b2 ps2 :
  run before empty (start msgs) = Some (b1, ps1) ->
  run after b1 ps1 = Some (b2, ps2) ->
  exists more, Line b2 = (Line b1 ++ more)%list.
Proof.
  intros H1 H2. apply run_inv in H1; [|apply start_inv].
  destruct H1 as [I _]. exact (@run_extends after b1 ps1 b2 ps2 I H2).
Qed.

Lemma Append_only_witness :
  exists more, ["b"; "a"] = (["b"] ++ more)%list.
Proof.
  exact (@Append_only ["a"; "b"] [1; 1; 1; 1; 0] [0; 0; 0]
           {| Line := ["b"]; Sync := true |}
           [{| msg := "a"; at_ := Locked |}; {| msg := "b"; at_ := Returned |}]
           {| Line := ["b"; "a"]; Sync := false |}
           [{| msg := "a"; at_ := Returned |}; {| msg := "b"; at_ := Returned |}]
           eq_refl eq_refl).
Defined.

End BuildLogProperties.

(** ** Decimal numbers: [strconv.Atoi] reads what [Sprintf("%d")] writes *)

Module StrconvFacts.
Import StrFacts Strconv.

Ltac digit_step IH :=
  cbn [NilEmpty.string_of_uint digits Pos.of_uint_acc];
  match goal with
  | |- context [digit ?c] =>
      let v := eval vm_compute in (digit c) in change (digit c) with v
  end;
  cbv iota beta; rewrite <- IH; f_equal; lia.

Lemma digits_acc d : forall acc,
  digits (NilEmpty.string_of_uint d) (Zpos acc) = Some (Zpos (Pos.of_uint_acc d acc)).
Proof.
  induction d as [|d IH|d IH|d IH|d IH|d IH|d IH|d IH|d IH|d IH|d IH]; intros acc;
    [reflexivity | digit_step IH ..].
Qed.

Lemma digits_uint d :
  digits (NilEmpty.string_of_uint d) 0 = Some (Z.of_N (Pos.of_uint d)).
Proof.
  induction d as [|d IH|d IH|d IH|d IH|d IH|d IH|d IH|d IH|d IH|d IH];
    [reflexivity | exact IH | ..];
    cbn [NilEmpty.string_of_uint digits Pos.of_uint Z.of_N];
    match goal with
    | |- context [digit ?c] =>
        let v := eval vm_compute in (digit c) in change (digit c) with v
    end;
    cbv iota beta; apply digits_acc.
Qed.

Lemma string_of_uint_nonnil d :
  d <> Decimal.Nil -> NilZero.string_of_uint d = NilEmpty.string_of_uint d.
Proof. destruct d; [congruence | reflexivity..]. Qed.

Lemma Atoi_digits s n :
  s <> "" -> (forall t, s <> String "-" t) -> (forall t, s <> String "+" t) ->
  digits s 0 = Some n -> (0 <= n <= maxInt)%Z ->
  Atoi s = (n, None) /\ Atoi (String "-" s) = ((- n)%Z, None).
Proof.
  intros Hn Hm Hp D R. unfold Atoi. destruct s as [|c s]; [congruence|].
  destruct (Ascii.eqb_spec c "-") as [->|_]; [now elim (Hm s)|].
  destruct (Ascii.eqb_spec c "+") as [->|_]; [now elim (Hp s)|].
  cbn [orb Ascii.eqb Bool.eqb]. rewrite D. unfold maxInt, minInt in *.
  split.
  - destruct (Z.ltb_spec 9223372036854775807 n); [lia|].
    destruct (Z.ltb_spec n (-9223372036854775808)); [lia | reflexivity].
  - destruct (Z.ltb_spec 9223372036854775807 (- n)); [lia|].
    destruct (Z.ltb_spec (- n) (-9223372036854775808)); [lia | reflexivity].
Qed.

Lemma uint_string_plain p :
  let s := NilEmpty.string_of_uint (Pos.to_uint p) in
  s <> "" /\ (forall t, s <> String "-" t) /\ (forall t, s <> String "+" t).
Proof.
  pose proof (DecimalPos.Unsigned.to_uint_nonnil p) as NN.
  destruct (Pos.to_uint p); [congruence | ..]; simpl; repeat split; discriminate.
Qed.

(** [Atoi] reads back the decimal writing of an integer. *)
Lemma Atoi_decimal n :
  (- maxInt <= n <= maxInt)%Z -> Atoi (decimal n) = (n, None).
Proof.
  intros R. unfold decimal.
  destruct n as [|p|p]; [reflexivity| |];
    unfold Z.to_int, NilZero.string_of_int;
    rewrite string_of_uint_nonnil by apply DecimalPos.Unsigned.to_uint_nonnil;
    destruct (uint_string_plain p) as (Hn & Hm & Hp);
    assert (D : digits (NilEmpty.string_of_uint (Pos.to_uint p)) 0 = Some (Zpos p))
      by (rewrite digits_uint, DecimalPos.Unsigned.of_to; reflexivity);
    assert (B : (0 <= Zpos p <= maxInt)%Z) by lia;
    destruct (Atoi_digits Hn Hm Hp D B) as [A1 A2]; assumption.
Qed.

Lemma decimal_nonempty n :
  (- maxInt <= n <= maxInt)%Z -> (0 <? String.length (decimal n))%nat = true.
Proof.
  intros R. apply Atoi_decimal in R. destruct (decimal n); [discriminate | reflexivity].
Qed.

End StrconvFacts.

(** ** Properties of the configuration of the router *)

Module RouterProperties.
Import StrFacts ReplaceFacts Strconv StrconvFacts Router.

Lemma wrap64_small z : (- 2 ^ 63 <= z < 2 ^ 63)%Z -> wrap64 z = z.
Proof. intros H. unfold wrap64. rewrite Z.mod_small; lia. Qed.

Lemma wrap64_range z : (- 2 ^ 63 <= wrap64 z < 2 ^ 63)%Z.
Proof.
  unfold wrap64. pose proof (Z.mod_pos_bound (z + 2 ^ 63) (2 ^ 64)). lia.
Qed.

(** X20: the configuration of the router never has an empty port (8080
    when [port] is unset or empty), and its upstream URL is empty or ends
    with a slash: a non-empty [upstream_url] is kept as it is when it ends
    with a slash and gets one appended otherwise. *)
Theorem NewRouterConfig_normalised w :
  Port (NewRouterConfig w) <> "" /\
  (Port (NewRouterConfig w) = "8080" \/ LookupEnv w "port" = Some (Port (NewRouterConfig w))) /\
  (UpstreamURL (NewRouterConfig w) = "" \/
   strings_HasSuffix (UpstreamURL (NewRouterConfig w)) "/" = true) /\
  (forall up, LookupEnv w "upstream_url" = Some up -> up <> "" ->
     (strings_HasSuffix up "/" = true /\ UpstreamURL (NewRouterConfig w) = up) \/
     (strings_HasSuffix up "/" = false /\ UpstreamURL (NewRouterConfig w) = up ++ "/")).
Proof.
  unfold NewRouterConfig. cbn [Port UpstreamURL]. split; [|split; [|split]].
  - destruct (LookupEnv w "port") as [[|c p]|]; simpl; discriminate.
  - destruct (LookupEnv w "port") as [[|c p]|]; simpl; auto.
  - destruct (LookupEnv w "upstream_url") as [[|c up]|]; simpl; auto.
    destruct (strings_HasSuffix (String c up) "/") eqn:S; cbn [negb]; right; auto.
    change (String c (up ++ "/")) with (String c up ++ "/").
    apply HasSuffix_append.
  - intros up E N. rewrite E. destruct up as [|c up]; [congruence|].
    cbn [String.length Nat.ltb Nat.leb].
    destruct (strings_HasSuffix (String c up) "/"); cbn [negb]; auto.
Qed.

(** X21: a [timeout] written as a non-negative decimal number of seconds is
    read as that many seconds, whatever [time.ParseDuration] would make of
    it, as long as the number of nanoseconds fits 64 bits (up to 9223372036
    seconds); beyond that the product wraps around and the timeout is not
    the number of seconds asked for. *)
Theorem NewRouterConfig_timeout_seconds w n :
  LookupEnv w "timeout" = Some (decimal n) ->
  (0 <= n <= maxInt)%Z ->
  Timeout (NewRouterConfig w) = wrap64 (n * Second) /\
  ((n <= 9223372036)%Z -> Timeout (NewRouterConfig w) = (n * 1000000000)%Z) /\
  ((9223372036 < n)%Z -> Timeout (NewRouterConfig w) <> (n * 1000000000)%Z).
Proof.
  intros E R.
  assert (T : Timeout (NewRouterConfig w) = wrap64 (n * Second)).
  { unfold NewRouterConfig. cbn [Timeout]. unfold Getenv. rewrite E.
    unfold parseIntOrDurationValue.
    rewrite decimal_nonempty by (unfold maxInt in *; lia).
    rewrite Atoi_decimal by (unfold maxInt in *; lia).
    destruct (Z.leb_spec 0 n); [reflexivity | lia]. }
  rewrite T. unfold Second, maxInt in *. split; [reflexivity|]. split.
  - intros H. apply wrap64_small. lia.
  - intros H. pose proof (wrap64_range (n * 1000000000)). lia.
Qed.

Lemma NewRouterConfig_timeout_seconds_witness :
  Timeout (NewRouterConfig (Cases.router "30")) = 30000000000%Z.
Proof.
  assert (R : (0 <= 30 <= maxInt)%Z) by (unfold maxInt; lia).
  assert (S : (30 <= 9223372036)%Z) by lia.
  exact (proj1 (proj2 (@NewRouterConfig_timeout_seconds (Cases.router "30") 30 eq_refl R)) S).
Defined.

End RouterProperties.

(** ** The runs of the receiver of GitHub events *)

Module ReceiverFacts.
Import Eff EffFacts GithubEvent Receiver.
Local Open Scope eff_scope.

Lemma trace_bind_result {E A B : Type} (P : E -> Prop) (m : M E A) (f : A -> M E B) :
  Forall P (trace m) -> (forall a, result m = Ok a -> Forall P (trace (f a))) ->
  Forall P (trace (bind m f)).
Proof.
  unfold bind, trace, result. intros Hm Hf.
  destruct (snd m) eqn:R; simpl; auto. apply Forall_app. auto.
Qed.

(** [Handle] is made of its blocks. *)
Lemma Handle_blocks w req :
  Handle w req =
    let eventHeader := Getenv w "Http_X_Github_Event" in
    if negb (knownEvent eventHeader)
    then PostAudit {| Handler.Message := "bad event: " ++ eventHeader; Handler.Owner := "";
                      Handler.Repo := ""; Handler.Source := Source |} ;;
         ret (Source ++ " cannot handle event: " ++ eventHeader)
    else
      returned <- checkCustomer w req ;;
      match returned with
      | Some out => ret out
      | None =>
          if String.eqb eventHeader "push" then onPush w req
          else
            returned <- (if installationEvent eventHeader
                         then onInstallation w req else ret None) ;;
            match returned with
            | Some out => ret out
            | None => ret ("Message received with event: " ++ eventHeader)
            end
      end.
Proof.
  unfold Handle, knownEvent, installationEvent. cbv zeta.
  destruct (String.eqb (Getenv w "Http_X_Github_Event") "push") eqn:E1;
  destruct (String.eqb (Getenv w "Http_X_Github_Event") "installation_repositories") eqn:E2;
  destruct (String.eqb (Getenv w "Http_X_Github_Event") "integration_installation") eqn:E3;
  destruct (String.eqb (Getenv w "Http_X_Github_Event") "installation") eqn:E4;
  cbn [negb andb orb]; try reflexivity.
Qed.

(** The ways [getCustomers] goes. *)
Lemma getCustomers_cases w url :
  let get := EvHTTP Handler.MethodGet url [] None in
  (exists e, getCustomers w url = ([], Ok ([], Some e))) \/
  (exists e, getCustomers w url = ([get], Ok ([], Some e))) \/
  (exists res,
     Do w Handler.MethodGet url [] None = inr res /\ ReadErr res = None /\
     getCustomers w url = ([get], Ok (customersOf w res, None))).
Proof.
  intros get. subst get. unfold getCustomers.
  destruct (String.length url =? 0)%nat; [left; eexists; reflexivity|].
  destruct (NewRequest w url) as [e|]; [left; eexists; reflexivity|].
  right.
  destruct (Do w Handler.MethodGet url [] None) as [e|res] eqn:D;
    [left; eexists; reflexivity|].
  destruct (ReadErr res) as [e|] eqn:R; [left; eexists; reflexivity|].
  right. exists res. repeat split; auto.
Qed.

(** The ways the check of the customer goes. *)
Lemma checkCustomer_cases w req :
  let get := EvHTTP Handler.MethodGet (Getenv w "customers_url") [] None in
  (ValidateCustomers w = false /\ checkCustomer w req = ([], Ok None)) \/
  (ValidateCustomers w = true /\
   ((exists out t,
       checkCustomer w req = (t, Ok (Some out)) /\
       (t = [] \/ t = [get] \/ exists a, t = [get; EvAudit a])) \/
    (accepted w req /\ checkCustomer w req = ([get], Ok None)))).
Proof.
  intros get. subst get. unfold checkCustomer.
  destruct (ValidateCustomers w) eqn:V; [right; split; [reflexivity|] | left; now split].
  destruct (getCustomers_cases w (Getenv w "customers_url"))
    as [(e & ->)|[(e & ->)|(res & D & R & ->)]].
  - left. exists e, []. split; [reflexivity | now left].
  - left. eexists e, _. split; [reflexivity | right; now left].
  - cbn [bind fst snd]. destruct (unmarshalCustomer w req) as [e|login] eqn:U.
    + left. eexists _, _. split; [reflexivity | right; now left].
    + destruct (validCustomer w (customersOf w res) login) eqn:C; cbn [negb].
      * right. split; [|reflexivity]. intros _. exists res, login. auto.
      * left. eexists _, _. split; [reflexivity|]. right. right. eexists. reflexivity.
Qed.

(** The ways [forward] goes. *)
Lemma forward_cases w req function headers :
  let url := Getenv w "gateway_url" ++ "function/" ++ function in
  (exists err, ReadSecret w "payload-secret" = inl err /\
               forward w req function headers = ([], Ok ("", 500%Z, Some err))) \/
  (exists payloadSecret,
     ReadSecret w "payload-secret" = inr payloadSecret /\
     let post := EvHTTP Handler.MethodPost url (signature w req payloadSecret :: headers)
                   (Some req) in
     (NewRequest w url <> None /\
      forward w req function headers =
        ([], Panic "invalid memory address or nil pointer dereference")) \/
     (NewRequest w url = None /\
      exists err,
        Do w Handler.MethodPost url (signature w req payloadSecret :: headers) (Some req)
          = inl err /\
        forward w req function headers =
          ([post;
            EvAudit {| Handler.Message := "cannot post to " ++ function ++ ": " ++ err;
                       Handler.Owner := ""; Handler.Repo := "";
                       Handler.Source := Source |}],
           Ok ("", 500%Z, Some (Errorf w ("cannot post to " ++ function ++ ": " ++ err))))) \/
     (NewRequest w url = None /\
      exists res,
        Do w Handler.MethodPost url (signature w req payloadSecret :: headers) (Some req)
          = inr res /\
        forward w req function headers =
          ([post],
           Ok (Body res, StatusCode res,
               if negb (StatusCode res =? 200)%Z then Some (Errorf w (Body res))
               else None)))).
Proof.
  intros url. subst url. unfold forward.
  destruct (ReadSecret w "payload-secret") as [err|payloadSecret];
    [left; exists err; split; reflexivity|].
  right. exists payloadSecret. split; [reflexivity|]. cbv zeta.
  destruct (NewRequest w _) as [e|]; [left; split; [discriminate | reflexivity]|].
  right.
  destruct (Do w Handler.MethodPost _ _ _) as [err|res].
  - left. split; [reflexivity|]. exists err. split; reflexivity.
  - right. split; [reflexivity|]. exists res. split; reflexivity.
Qed.

(** The loop of [garbageCollect] sends the requests of a prefix of the
    list, in order. *)
Lemma each_prefix w payloadSecret rs :
  exists k r,
    garbageCollect_each w (Getenv w "gateway_url") payloadSecret rs =
      (map (collectRequest w payloadSecret) (firstn k rs), r).
Proof.
  induction rs as [|g rs IH]; cbn [garbageCollect_each].
  - exists 0, (Ok None). reflexivity.
  - destruct (NewRequest w _) as [e|]; [exists 0; eexists; reflexivity|].
    destruct (Do w Handler.MethodPost _ _ _) as [err|res].
    + exists 1. eexists. reflexivity.
    + destruct IH as (k & r & IH). exists (S k), r. rewrite IH. reflexivity.
Qed.

Lemma each_all w payloadSecret rs :
  NewRequest w (Getenv w "gateway_url" ++ "async-function/garbage-collect") = None ->
  (forall g, In g rs -> ~ refused w payloadSecret g) ->
  garbageCollect_each w (Getenv w "gateway_url") payloadSecret rs =
    (map (collectRequest w payloadSecret) rs, Ok None).
Proof.
  intros N. induction rs as [|g rs IH]; intros H; cbn [garbageCollect_each].
  - reflexivity.
  - rewrite N.
    destruct (Do w Handler.MethodPost _ _ _) as [err|res] eqn:D.
    + elim (H g (or_introl eq_refl)). exists err. exact D.
    + rewrite IH by (intros x Hx; apply H; now right). reflexivity.
Qed.

Lemma each_stops w payloadSecret pre g rest err :
  NewRequest w (Getenv w "gateway_url" ++ "async-function/garbage-collect") = None ->
  (forall x, In x pre -> ~ refused w payloadSecret x) ->
  Do w Handler.MethodPost (Getenv w "gateway_url" ++ "async-function/garbage-collect")
    [signature w (marshalGarbageRequest w g) payloadSecret]
    (Some (marshalGarbageRequest w g)) = inl err ->
  garbageCollect_each w (Getenv w "gateway_url") payloadSecret (pre ++ g :: rest) =
    (map (collectRequest w payloadSecret) (pre ++ [g]), Ok (Some err)).
Proof.
  intros N. induction pre as [|x pre IH]; intros H D; cbn [garbageCollect_each app].
  - rewrite N, D. reflexivity.
  - rewrite N.
    destruct (Do w Handler.MethodPost _ _ (Some (marshalGarbageRequest w x)))
      as [e|res] eqn:Dx.
    + elim (H x (or_introl eq_refl)). exists e. exact Dx.
    + rewrite IH by (try (intros y Hy; apply H; now right); assumption). reflexivity.
Qed.

(** [garbageCollect] returns, or panics on a nil request; it never exits. *)
Lemma garbageCollect_prefix w rs :
  (exists err, ReadSecret w "payload-secret" = inl err /\
               garbageCollect w rs = ([], Ok (Some err))) \/
  (exists payloadSecret k r,
     ReadSecret w "payload-secret" = inr payloadSecret /\
     garbageCollect w rs = (map (collectRequest w payloadSecret) (firstn k rs), r)).
Proof.
  unfold garbageCollect.
  destruct (ReadSecret w "payload-secret") as [err|payloadSecret];
    [left; exists err; split; reflexivity|].
  right. destruct (each_prefix w payloadSecret rs) as (k & r & E).
  exists payloadSecret, k, r. now split.
Qed.

Lemma each_returns w payloadSecret rs :
  NewRequest w (Getenv w "gateway_url" ++ "async-function/garbage-collect") = None ->
  exists r, result (garbageCollect_each w (Getenv w "gateway_url") payloadSecret rs) = Ok r.
Proof.
  intros N. induction rs as [|g rs IH]; cbn [garbageCollect_each].
  - eexists. reflexivity.
  - rewrite N. destruct (Do w Handler.MethodPost _ _ _) as [err|res].
    + eexists. reflexivity.
    + destruct IH as [r IH]. exists r. unfold result, bind in *. cbn [emit fst snd].
      exact IH.
Qed.

(** The ways the check of the signature goes: it sends nothing. *)
Lemma checkHmac_cases w req :
  (exists out, checkHmac w req = ([], Ok (Some out))) \/
  checkHmac w req = ([], Exit 1) \/
  (validated w req /\ checkHmac w req = ([], Ok None)).
Proof.
  unfold checkHmac, validated.
  destruct (HmacEnabled w); [|right; right; split; [discriminate | reflexivity]].
  destruct (ReadSecret w "github-webhook-secret") as [e|key];
    [left; eexists; reflexivity|].
  destruct (hmac_Validate w req _ key) as [e|] eqn:V.
  - right. left. reflexivity.
  - right. right. split; [|reflexivity]. intros _. exists key. now split.
Qed.

Lemma onAction_trace w event :
  (exists a, onAction w event = ([EvAudit a], Ok tt)) \/
  (exists payloadSecret k r,
     ReadSecret w "payload-secret" = inr payloadSecret /\
     onAction w event =
       (map (collectRequest w payloadSecret) (firstn k (garbageOf event)), r)) \/
  (exists r, onAction w event = ([], r)).
Proof.
  unfold onAction, garbageOf.
  destruct (String.eqb (Action event) "created" || String.eqb (Action event) "added").
  { left. eexists. reflexivity. }
  right.
  destruct (String.eqb (Action event) "removed").
  { match goal with |- context [garbageCollect w ?l] =>
      destruct (garbageCollect_prefix w l) as [(err & _ & ->)|(s & k & r & S & ->)] end.
    - right. eexists. reflexivity.
    - left. exists s, k.
      destruct r; eexists; (split; [exact S|]); unfold bind; cbn [ret fst snd];
        rewrite ?app_nil_r; reflexivity. }
  destruct (String.eqb (Action event) "deleted").
  { match goal with |- context [garbageCollect w ?l] =>
      destruct (garbageCollect_prefix w l) as [(err & _ & ->)|(s & k & r & S & ->)] end.
    - right. eexists. reflexivity.
    - left. exists s, k.
      destruct r; eexists; (split; [exact S|]); unfold bind; cbn [ret fst snd];
        rewrite ?app_nil_r; reflexivity. }
  right. eexists. reflexivity.
Qed.

Lemma In_firstn {A : Type} (x : A) k : forall l, In x (firstn k l) -> In x l.
Proof.
  induction k as [|k IH]; intros [|y l]; simpl; try contradiction.
  intros [H|H]; [now left | right; now apply IH].
Qed.

Ltac each_event :=
  cbn [trace fst];
  repeat match goal with
         | |- Forall _ [] => apply Forall_nil
         | |- Forall _ (_ :: _) => apply Forall_cons
         end;
  try exact I.

(** Every event of a run of [Handle] is an audit event or an expected
    request. *)
Lemma Handle_expected w req : Forall (expected w req) (trace (Handle w req)).
Proof.
  rewrite Handle_blocks. cbv zeta.
  destruct (knownEvent (Getenv w "Http_X_Github_Event")) eqn:K; cbn [negb].
  2:{ cbn [bind PostAudit emit ret fst snd app]. each_event. }
  apply trace_bind_result.
  { destruct (checkCustomer_cases w req)
      as [[_ ->]|[V [(out & t & -> & [->|[->|[a ->]]])|[_ ->]]]];
      each_event; left; repeat split; auto. }
  intros [out|] R; [constructor|].
  assert (A : accepted w req).
  { destruct (checkCustomer_cases w req)
      as [[V _]|[V [(out & t & E & _)|[A _]]]]; auto.
    - intros V'. congruence.
    - rewrite E in R. discriminate. }
  destruct (String.eqb_spec (Getenv w "Http_X_Github_Event") "push") as [P|P].
  - unfold onPush. apply trace_bind_result.
    + destruct (forward_cases w req "github-push" (pushHeaders w))
        as [(err & _ & ->)|(s & S & [[_ ->]|[(_ & err & _ & ->)|(_ & res & _ & ->)]])];
        each_event;
        right; (split; [exact A|]); exists s; (split; [exact S|]); left; now split.
    + intros [[body statusCode] err] _.
      destruct (statusCode =? 200)%Z; [|destruct err]; constructor.
  - assert (I : installationEvent (Getenv w "Http_X_Github_Event") = true).
    { unfold knownEvent in K. apply orb_true_iff in K. destruct K as [K|K]; [|exact K].
      apply String.eqb_eq in K. contradiction. }
    rewrite I. apply trace_bind_result.
    2:{ intros [out|] _; constructor. }
    unfold onInstallation. apply trace_bind_result.
    { destruct (checkHmac_cases w req) as [(out & ->)|[->|[_ ->]]]; constructor. }
    intros [out|] Rh; [constructor|].
    assert (V : validated w req).
    { destruct (checkHmac_cases w req) as [(out & E)|[E|[V _]]]; auto;
        rewrite E in Rh; discriminate. }
    destruct (unmarshalEvent w req) as [err|event] eqn:U; [constructor|].
    apply trace_bind_result; [|intros; constructor].
    destruct (onAction_trace w event) as [(a & ->)|[(s & k & r & S & ->)|(r & ->)]];
      cbn [trace fst]; [each_event | | each_event].
    apply Forall_forall. intros e He. apply in_map_iff in He.
    destruct He as (g & <- & Hg). apply In_firstn in Hg.
    right. split; [exact A|]. exists s. split; [exact S|]. right.
    split; [exact I|]. split; [exact V|]. exists event, g. auto.
Qed.

End ReceiverFacts.

(** ** Properties of the receiver of GitHub events *)

Module ReceiverProperties.
Import Eff EffFacts GithubEvent Receiver ReceiverFacts.
Local Open Scope eff_scope.

Lemma checkHmac_validated w req : validated w req -> checkHmac w req = ([], Ok None).
Proof.
  unfold validated, checkHmac. intros V. destruct (HmacEnabled w); [|reflexivity].
  destruct (V eq_refl) as (key & S & H). now rewrite S, H.
Qed.

Lemma installation_not_push eventHeader :
  installationEvent eventHeader = true ->
  String.eqb eventHeader "push" = false /\ knownEvent eventHeader = true.
Proof.
  unfold knownEvent. intros I. rewrite I, orb_true_r. split; [|reflexivity].
  unfold installationEvent in I.
  destruct (String.eqb_spec eventHeader "installation") as [E|_];
    [rewrite E; reflexivity|].
  destruct (String.eqb_spec eventHeader "installation_repositories") as [E|_];
    [rewrite E; reflexivity|].
  destruct (String.eqb_spec eventHeader "integration_installation") as [E|_];
    [rewrite E; reflexivity | discriminate].
Qed.

(** What the [switch] on the action does once the payload secret is read
    and the request can be made. *)
Lemma onAction_collects w event payloadSecret :
  ReadSecret w "payload-secret" = inr payloadSecret ->
  NewRequest w (Getenv w "gateway_url" ++ "async-function/garbage-collect") = None ->
  exists t,
    onAction w event = (t, Ok tt) /\
    ((forall g, In g (garbageOf event) -> ~ refused w payloadSecret g) ->
     Action event <> "created" -> Action event <> "added" ->
     t = map (collectRequest w payloadSecret) (garbageOf event)).
Proof.
  intros S N. unfold onAction, garbageOf, garbageCollect. rewrite S.
  destruct (String.eqb_spec (Action event) "created") as [C|C]; cbn [orb].
  { eexists. split; [reflexivity|]. intros _ H. contradiction. }
  destruct (String.eqb_spec (Action event) "added") as [A|A].
  { eexists. split; [reflexivity|]. intros _ _ H. contradiction. }
  destruct (String.eqb (Action event) "removed").
  { match goal with |- context [garbageCollect_each w _ _ ?l] =>
      destruct (each_returns w payloadSecret l N) as [r R];
      destruct (garbageCollect_each w (Getenv w "gateway_url") payloadSecret l)
        as [t x] eqn:E end.
    cbn [result snd] in R. subst x. exists t. split.
    - unfold bind. cbn [ret fst snd]. now rewrite app_nil_r.
    - intros H _ _. rewrite each_all in E by assumption. now injection E as <-. }
  destruct (String.eqb (Action event) "deleted").
  { match goal with |- context [garbageCollect_each w _ _ ?l] =>
      destruct (each_returns w payloadSecret l N) as [r R];
      destruct (garbageCollect_each w (Getenv w "gateway_url") payloadSecret l)
        as [t x] eqn:E end.
    cbn [result snd] in R. subst x. exists t. split.
    - unfold bind. cbn [ret fst snd]. now rewrite app_nil_r.
    - intros H _ _. rewrite each_all in E by assumption. now injection E as <-. }
  exists []. split; [reflexivity|]. reflexivity.
Qed.

(** X22: every POST request a run of [Handle] sends carries the signature
    of its own body under the payload secret, in the signature header of the
    platform; nothing is posted when the payload secret cannot be read. *)
Theorem Handle_posts_signed w req url headers body :
  In (EvHTTP Handler.MethodPost url headers body) (trace (Handle w req)) ->
  exists payloadSecret b,
    ReadSecret w "payload-secret" = inr payloadSecret /\
    body = Some b /\
    In (CloudSignatureHeader w,
        "sha1=" ++ hex_EncodeToString w (hmac_Sign w b payloadSecret)) headers.
Proof.
  intros H. pose proof (Handle_expected w req) as F.
  rewrite Forall_forall in F. apply F in H. cbn [expected] in H.
  destruct H as [(M & _)|(_ & s & S & [(_ & E)|(_ & _ & event & g & _ & _ & E)])].
  - discriminate.
  - injection E as -> -> ->. exists s, req. repeat split; auto. now left.
  - injection E as -> -> ->. exists s, (marshalGarbageRequest w g).
    repeat split; auto. now left.
Qed.

Lemma Handle_posts_signed_witness :
  exists payloadSecret b,
    ReadSecret (Hooks.world "push" false true "alexellis" Hooks.accepted202)
      "payload-secret" = inr payloadSecret /\
    Some "{push}" = Some b /\
    In ("X-Cloud-Signature", "sha1=" ++ "digest")
       [("X-Cloud-Signature", "sha1=digest"); ("X-Hub-Signature", "sha1=5e9c");
        ("X-GitHub-Event", "push"); ("Content-Type", "application/json")].
Proof.
  exact (@Handle_posts_signed (Hooks.world "push" false true "alexellis" Hooks.accepted202)
           "{push}" "http://gateway:8080/function/github-push"
           [("X-Cloud-Signature", "sha1=digest"); ("X-Hub-Signature", "sha1=5e9c");
            ("X-GitHub-Event", "push"); ("Content-Type", "application/json")]
           (Some "{push}") (or_introl eq_refl)).
Defined.

(** X23: when the customers are validated, [Handle] posts an event to the
    gateway only after it has read the list of the customers and found the
    sender of the event in it: an event of a sender that is not listed, or
    whose list cannot be read, is neither forwarded nor acted upon. *)
Theorem Handle_customers_gate w req url headers body :
  ValidateCustomers w = true ->
  In (EvHTTP Handler.MethodPost url headers body) (trace (Handle w req)) ->
  exists res login,
    Do w Handler.MethodGet (Getenv w "customers_url") [] None = inr res /\
    ReadErr res = None /\
    unmarshalCustomer w req = inr login /\
    validCustomer w (customersOf w res) login = true.
Proof.
  intros V H. pose proof (Handle_expected w req) as F.
  rewrite Forall_forall in F. apply F in H. cbn [expected] in H.
  destruct H as [(M & _)|(A & _)]; [discriminate|]. exact (A V).
Qed.

Lemma Handle_customers_gate_witness :
  exists res login,
    Do (Hooks.world "installation" true true "alexellis" Hooks.accepted202)
      Handler.MethodGet "https://example.com/CUSTOMERS" [] None = inr res /\
    ReadErr res = None /\
    unmarshalCustomer (Hooks.world "installation" true true "alexellis" Hooks.accepted202)
      "{event}" = inr login /\
    validCustomer (Hooks.world "installation" true true "alexellis" Hooks.accepted202)
      (customersOf (Hooks.world "installation" true true "alexellis" Hooks.accepted202) res)
      login = true.
Proof.
  exact (@Handle_customers_gate
           (Hooks.world "installation" true true "alexellis" Hooks.accepted202)
           "{event}" "http://gateway:8080/async-function/garbage-collect"
           [("X-Cloud-Signature", "sha1=digest")] (Some "alexellis/kubecon-tester")
           eq_refl (or_intror (or_introl eq_refl))).
Defined.

(** X24: the only POST requests of a run of [Handle] are the push event
    forwarded as it came to [function/github-push], for a push event, and
    the garbage requests of the decoded event to
    [async-function/garbage-collect], for an installation event whose
    signature is valid when signatures are checked: one request per removed
    repository for the action [removed], one for all the repositories of the
    account for [deleted], none for any other action. *)
Theorem Handle_routes w req url headers body :
  In (EvHTTP Handler.MethodPost url headers body) (trace (Handle w req)) ->
  (Getenv w "Http_X_Github_Event" = "push" /\
   url = Getenv w "gateway_url" ++ "function/github-push" /\
   body = Some req) \/
  (installationEvent (Getenv w "Http_X_Github_Event") = true /\
   url = Getenv w "gateway_url" ++ "async-function/garbage-collect" /\
   validated w req /\
   exists event,
     unmarshalEvent w req = inr event /\
     ((Action event = "removed" /\
       exists repo, In repo (RepositoriesRemoved event) /\
         body = Some (marshalGarbageRequest w
                        {| Owner := Login event; Repo := Name repo; Functions := [] |})) \/
      (Action event = "deleted" /\
       body = Some (marshalGarbageRequest w
                      {| Owner := Login event; Repo := "*"; Functions := [] |})))).
Proof.
  intros H. pose proof (Handle_expected w req) as F.
  rewrite Forall_forall in F. apply F in H. cbn [expected] in H.
  destruct H as [(M & _)|(_ & s & S & [(P & E)|(I & V & event & g & U & G & E)])].
  - discriminate.
  - left. injection E as -> -> ->. auto.
  - right. injection E as -> -> ->. repeat split; auto. exists event.
    split; [exact U|]. unfold garbageOf in G.
    destruct (String.eqb_spec (Action event) "removed") as [R|_].
    + left. split; [exact R|]. apply in_map_iff in G. destruct G as (repo & <- & G).
      exists repo. now split.
    + destruct (String.eqb_spec (Action event) "deleted") as [D|_]; [|contradiction].
      right. split; [exact D|]. destruct G as [<-|[]]. reflexivity.
Qed.

Lemma Handle_routes_witness :
  installationEvent
    (Getenv (Hooks.world "installation" true true "alexellis" Hooks.accepted202)
       "Http_X_Github_Event") = true /\
  exists event,
    unmarshalEvent (Hooks.world "installation" true true "alexellis" Hooks.accepted202)
      "{event}" = inr event /\
    Action event = "removed".
Proof.
  destruct (@Handle_routes
              (Hooks.world "installation" true true "alexellis" Hooks.accepted202)
              "{event}" "http://gateway:8080/async-function/garbage-collect"
              [("X-Cloud-Signature", "sha1=digest")] (Some "alexellis/fn2")
              (or_intror (or_intror (or_introl eq_refl))))
    as [(P & _)|(I & _ & _ & event & U & [(R & _)|(D & _)])].
  - discriminate P.
  - split; [exact I|]. exists event. now split.
  - injection U as <-. discriminate D.
Defined.

(** X25: once the payload secret is read, [garbageCollect] sends the
    garbage requests in order, each one signed, and goes on whatever status
    code the gateway answers; it stops at the first request that fails in
    transport and returns its error: the requests after it are not sent. *)
Theorem garbageCollect_stops_at_error w payloadSecret sent :
  ReadSecret w "payload-secret" = inr payloadSecret ->
  NewRequest w (Getenv w "gateway_url" ++ "async-function/garbage-collect") = None ->
  (forall g, In g sent -> ~ refused w payloadSecret g) ->
  garbageCollect w sent = (map (collectRequest w payloadSecret) sent, Ok None) /\
  forall g err rest,
    Do w Handler.MethodPost (Getenv w "gateway_url" ++ "async-function/garbage-collect")
      [signature w (marshalGarbageRequest w g) payloadSecret]
      (Some (marshalGarbageRequest w g)) = inl err ->
    garbageCollect w (sent ++ g :: rest) =
      (map (collectRequest w payloadSecret) (sent ++ [g]), Ok (Some err)).
Proof.
  intros S N H. unfold garbageCollect. rewrite S. split.
  - now apply each_all.
  - intros g err rest D. now apply each_stops.
Qed.

Lemma garbageCollect_stops_at_error_witness :
  garbageCollect (Hooks.world "installation" false true "alexellis" Hooks.accepted202)
    (garbageOf Hooks.removed) =
  (map (collectRequest (Hooks.world "installation" false true "alexellis" Hooks.accepted202)
          "secret of payload-secret") (garbageOf Hooks.removed),
   Ok None).
Proof.
  refine (proj1 (@garbageCollect_stops_at_error
                   (Hooks.world "installation" false true "alexellis" Hooks.accepted202)
                   "secret of payload-secret" (garbageOf Hooks.removed)
                   eq_refl eq_refl _)).
  intros g _ [err H]. discriminate H.
Defined.

(** X26: when the customers are validated and the sender of a known event
    is not in the list read from [customers_url], [Handle] reads the list,
    posts one audit event [Customer not found] for the sender and returns
    [Customer: <login> not found in CUSTOMERS file via <url>]; it does
    nothing else. *)
Theorem Handle_unknown_customer w req res login :
  knownEvent (Getenv w "Http_X_Github_Event") = true ->
  ValidateCustomers w = true ->
  Getenv w "customers_url" <> "" ->
  NewRequest w (Getenv w "customers_url") = None ->
  Do w Handler.MethodGet (Getenv w "customers_url") [] None = inr res ->
  ReadErr res = None ->
  unmarshalCustomer w req = inr login ->
  validCustomer w (customersOf w res) login = false ->
  Handle w req =
    ([EvHTTP Handler.MethodGet (Getenv w "customers_url") [] None;
      EvAudit {| Handler.Message := "Customer not found"; Handler.Owner := login;
                 Handler.Repo := ""; Handler.Source := "github-event" |}],
     Ok ("Customer: " ++ login ++ " not found in CUSTOMERS file via "
         ++ Getenv w "customers_url")).
Proof.
  intros K V Hu N D R U C. rewrite Handle_blocks. cbv zeta. rewrite K. cbn [negb].
  unfold checkCustomer, getCustomers.
  rewrite V, (HandlerFacts.length_eqb_0 Hu), N, D, R.
  cbn [bind emit ret fst snd app]. rewrite U.
  unfold customersOf in C. rewrite C. reflexivity.
Qed.

Lemma Handle_unknown_customer_witness :
  Handle (Hooks.world "push" true true "mallory" Hooks.accepted202) "{push}" =
    ([EvHTTP Handler.MethodGet "https://example.com/CUSTOMERS" [] None;
      EvAudit {| Handler.Message := "Customer not found"; Handler.Owner := "mallory";
                 Handler.Repo := ""; Handler.Source := "github-event" |}],
     Ok ("Customer: " ++ "mallory" ++ " not found in CUSTOMERS file via "
         ++ "https://example.com/CUSTOMERS")).
Proof.
  assert (N : Getenv (Hooks.world "push" true true "mallory" Hooks.accepted202)
                "customers_url" <> "") by discriminate.
  exact (@Handle_unknown_customer (Hooks.world "push" true true "mallory" Hooks.accepted202)
           "{push}" {| StatusCode := 200; Body := Hooks.customers; ReadErr := None |}
           "mallory" eq_refl eq_refl N eq_refl eq_refl eq_refl eq_refl eq_refl).
Defined.

(** X27: a push event (customers not validated) is forwarded as it came,
    with the signature header of GitHub passed on and not checked here; when
    the gateway answers 200 [Handle] returns
    [Forwarded to function: 200, <body>], for any other status code it
    returns the error made of the body of the answer. *)
Theorem Handle_push_forwarded w req payloadSecret res :
  Getenv w "Http_X_Github_Event" = "push" ->
  ValidateCustomers w = false ->
  ReadSecret w "payload-secret" = inr payloadSecret ->
  NewRequest w (Getenv w "gateway_url" ++ "function/github-push") = None ->
  Do w Handler.MethodPost (Getenv w "gateway_url" ++ "function/github-push")
    (signature w req payloadSecret :: pushHeaders w) (Some req) = inr res ->
  trace (Handle w req) = [pushRequest w payloadSecret req] /\
  (StatusCode res = 200%Z ->
   result (Handle w req) = Ok ("Forwarded to function: 200, " ++ Body res)) /\
  (StatusCode res <> 200%Z -> result (Handle w req) = Ok (Errorf w (Body res))).
Proof.
  intros P V S N D. rewrite Handle_blocks. cbv zeta.
  unfold knownEvent. rewrite P. cbn [String.eqb Ascii.eqb Bool.eqb orb negb].
  unfold checkCustomer. rewrite V. cbn [bind ret fst snd app].
  unfold onPush, forward. rewrite S.
  change (Getenv w "gateway_url" ++ "function/" ++ "github-push")
    with (Getenv w "gateway_url" ++ "function/github-push").
  rewrite N, D. cbn [bind emit ret fst snd app trace result].
  destruct (Z.eqb_spec (StatusCode res) 200) as [E|E]; cbn [negb fst snd].
  - split; [reflexivity|]. split; [intros _; now rewrite E | intros H; contradiction].
  - split; [reflexivity|]. split; [intros H; contradiction | reflexivity].
Qed.

Lemma Handle_push_forwarded_witness :
  trace (Handle (Hooks.world "push" false false "alexellis"
                   (inr {| StatusCode := 200; Body := "accepted"; ReadErr := None |}))
           "{push}") =
    [pushRequest (Hooks.world "push" false false "alexellis"
                    (inr {| StatusCode := 200; Body := "accepted"; ReadErr := None |}))
       "secret of payload-secret" "{push}"] /\
  result (Handle (Hooks.world "push" false false "alexellis"
                    (inr {| StatusCode := 200; Body := "accepted"; ReadErr := None |}))
            "{push}") = Ok ("Forwarded to function: 200, " ++ "accepted").
Proof.
  pose proof (@Handle_push_forwarded
                (Hooks.world "push" false false "alexellis"
                   (inr {| StatusCode := 200; Body := "accepted"; ReadErr := None |}))
                "{push}" "secret of payload-secret"
                {| StatusCode := 200; Body := "accepted"; ReadErr := None |}
                eq_refl eq_refl eq_refl eq_refl eq_refl) as H.
  split; [exact (proj1 H) | exact (proj1 (proj2 H) eq_refl)].
Defined.

(** X28: an installation event (customers not validated) whose signature
    is valid when signatures are checked, and whose body decodes, is always
    answered [Message received with event: <kind>]: the errors of the
    garbage collection are dropped.  When no garbage request fails in
    transport and the action is not [created] or [added], the run sends
    exactly the garbage requests of the event, in order. *)
Theorem Handle_installation_collects w req event payloadSecret :
  installationEvent (Getenv w "Http_X_Github_Event") = true ->
  ValidateCustomers w = false ->
  validated w req ->
  unmarshalEvent w req = inr event ->
  ReadSecret w "payload-secret" = inr payloadSecret ->
  NewRequest w (Getenv w "gateway_url" ++ "async-function/garbage-collect") = None ->
  result (Handle w req) =
    Ok ("Message received with event: " ++ Getenv w "Http_X_Github_Event") /\
  ((forall g, In g (garbageOf event) -> ~ refused w payloadSecret g) ->
   Action event <> "created" -> Action event <> "added" ->
   trace (Handle w req) = map (collectRequest w payloadSecret) (garbageOf event)).
Proof.
  intros I V Hv U S N. rewrite Handle_blocks. cbv zeta.
  destruct (installation_not_push _ I) as [P K]. rewrite K, P, I. cbn [negb].
  unfold checkCustomer. rewrite V. cbn [bind ret fst snd app].
  unfold onInstallation. rewrite (checkHmac_validated Hv), U.
  cbn [bind ret fst snd app].
  destruct (@onAction_collects w event payloadSecret S N) as (t & -> & T).
  cbn [bind ret fst snd app trace result]. split; [reflexivity|].
  intros H C A. rewrite !app_nil_r. now apply T.
Qed.

Lemma Handle_installation_collects_witness :
  result (Handle (Hooks.world "installation" false true "alexellis" (inl "timeout"))
            "{event}") =
    Ok ("Message received with event: " ++ "installation").
Proof.
  assert (V : validated (Hooks.world "installation" false true "alexellis" (inl "timeout"))
                "{event}").
  { intros _. exists "secret of github-webhook-secret". split; reflexivity. }
  exact (proj1 (@Handle_installation_collects
                  (Hooks.world "installation" false true "alexellis" (inl "timeout"))
                  "{event}" Hooks.removed "secret of payload-secret"
                  eq_refl eq_refl V eq_refl eq_refl eq_refl)).
Defined.

(** X29: an installation event (customers not validated) whose signature
    does not validate, when signatures are checked, makes the process exit
    with code 1 before the event is decoded: nothing is sent and no audit
    event is posted. *)
Theorem Handle_invalid_signature w req webhookSecretKey validateErr :
  installationEvent (Getenv w "Http_X_Github_Event") = true ->
  ValidateCustomers w = false ->
  HmacEnabled w = true ->
  ReadSecret w "github-webhook-secret" = inr webhookSecretKey ->
  hmac_Validate w req (Getenv w "Http_X_Hub_Signature") webhookSecretKey
    = Some validateErr ->
  Handle w req = ([], Exit 1).
Proof.
  intros I V H S E. rewrite Handle_blocks. cbv zeta.
  destruct (installation_not_push _ I) as [P K]. rewrite K, P, I. cbn [negb].
  unfold checkCustomer. rewrite V. cbn [bind ret fst snd app].
  unfold onInstallation, checkHmac. rewrite H, S, E. reflexivity.
Qed.

Lemma Handle_invalid_signature_witness :
  Handle (Hooks.world "installation" false false "alexellis" Hooks.accepted202) "{event}"
  = ([], Exit 1).
Proof.
  exact (@Handle_invalid_signature
           (Hooks.world "installation" false false "alexellis" Hooks.accepted202)
           "{event}" "secret of github-webhook-secret" "invalid hmac"
           eq_refl eq_refl eq_refl eq_refl eq_refl).
Defined.

End ReceiverProperties.

(** ** The runs of the orchestrator with requests that cannot be built *)

Module RequestsFacts.
Import Eff EffFacts Handler HandlerFacts StrFacts Run RunFacts Requests.
Local Open Scope eff_scope.

(** [deployFunction] panics on the first request it cannot build, and is
    the [deployFunction] of [Handler] when it can build both. *)
Lemma deployFunction_cases w deploy gatewayURL :
  let url := gatewayURL ++ "system/functions" in
  let method := upsertMethod (outside w) deploy gatewayURL in
  deployFunction w deploy gatewayURL =
    match NewRequest w MethodGet url with
    | Some _ => ([], Panic nilDereference)
    | None =>
        match NewRequest w method url with
        | Some _ => ([EvHTTP MethodGet url NoBody], Panic nilDereference)
        | None => Handler.deployFunction (outside w) deploy gatewayURL
        end
    end.
Proof.
  intros url method. subst url method.
  unfold deployFunction, functionExists, Handler.deployFunction, Handler.functionExists,
    upsertMethod, listedFunctions.
  destruct (NewRequest w MethodGet _); [reflexivity|].
  destruct (Do (outside w) MethodGet _ NoBody) as [err|res];
    [|destruct (functionListed _ _)];
    cbn [bind emit ret panic fst snd app];
    destruct (NewRequest w _ _); reflexivity.
Qed.

Lemma getEvent_owner w : owner (fst (getEvent w)) = Getenv w "Http_Owner".
Proof.
  unfold getEvent. destruct (if (0 <? _)%nat then Atoi w _ else _) as [i e]. reflexivity.
Qed.

(** A run of [Handle] panics on a request it cannot build, after the
    requests it has sent before; otherwise it is the run of [Handler]. *)
Lemma Handle_cases w req :
  (snd (getEvent (outside w)) = None /\ unbuildable w req /\
   result (Handle w req) = Panic nilDereference /\
   (trace (Handle w req) = [] \/
    trace (Handle w req) = [EvHTTP MethodPost (buildURL w) (Raw req)] \/
    trace (Handle w req) =
      [EvHTTP MethodPost (buildURL w) (Raw req);
       EvHTTP MethodGet (functionsURL w) NoBody])) \/
  ((snd (getEvent (outside w)) <> None \/ ~ unbuildable w req) /\
   Handle w req = Handler.Handle (outside w) req).
Proof.
  unfold unbuildable, buildURL, functionsURL.
  unfold Handle, Handler.Handle.
  destruct (getEvent (outside w)) as [event eventErr]. cbn [fst snd].
  destruct eventErr as [e|].
  { right. split; [left; discriminate | reflexivity]. }
  destruct (NewRequest w MethodPost (Getenv (outside w) "builder_url" ++ "build"))
    as [e|] eqn:N.
  { left. split; [reflexivity|]. split; [left; discriminate|].
    split; [reflexivity | left; reflexivity]. }
  destruct (Do (outside w) MethodPost (Getenv (outside w) "builder_url" ++ "build")
              (Raw req)) as [err|res] eqn:D.
  { right. split; [|reflexivity]. right.
    intros [H|(res & _ & H & _)]; [now apply H | discriminate]. }
  destruct (string_dec (Getenv (outside w) "repository_url") "") as [Hr|Hr].
  { right. split.
    - right. intros [H|(r & _ & _ & H & _)]; [now apply H | contradiction].
    - rewrite Hr. reflexivity. }
  destruct (string_dec (Getenv (outside w) "push_repository_url") "") as [Hp|Hp].
  { right. split.
    - right. intros [H|(r & _ & _ & _ & H & _)]; [now apply H | contradiction].
    - rewrite Hp, (length_eqb_0 Hr). reflexivity. }
  rewrite (length_eqb_0 Hr), (length_eqb_0 Hp).
  destruct (Image.validImage (Trim.TrimSpace (Body res))) eqn:Hv; cbn [negb].
  2:{ right. split; [|reflexivity]. right.
      intros [H|(r & _ & [= <-] & _ & _ & H & _)]; [now apply H | congruence]. }
  destruct (string_dec (Trim.TrimSpace (Body res)) "") as [Hn|Hn].
  { right. split.
    - right. intros [H|(r & _ & [= <-] & _ & _ & _ & H & _)];
        [now apply H | contradiction].
    - rewrite Hn. reflexivity. }
  assert (L : (0 <? String.length (Trim.TrimSpace (Body res)))%nat = true).
  { destruct (Trim.TrimSpace (Body res)); [congruence | reflexivity]. }
  rewrite L.
  change (deployFunction w _ (Getenv (outside w) "gateway_url"))
    with (deployFunction w (deploymentOf (outside w) event (Trim.TrimSpace (Body res)))
            (Getenv (outside w) "gateway_url")).
  rewrite deployFunction_cases.
  destruct (NewRequest w MethodGet (Getenv (outside w) "gateway_url" ++ "system/functions"))
    as [e|] eqn:N1.
  { left. split; [reflexivity|]. split.
    - right. exists res. repeat split; auto. left. discriminate.
    - split; [reflexivity | right; left; reflexivity]. }
  destruct (NewRequest w
              (upsertMethod (outside w)
                 (deploymentOf (outside w) event (Trim.TrimSpace (Body res)))
                 (Getenv (outside w) "gateway_url"))
              (Getenv (outside w) "gateway_url" ++ "system/functions")) as [e|] eqn:N2.
  { left. split; [reflexivity|]. split.
    - right. exists res. repeat split; auto. right. cbv zeta. rewrite N2. discriminate.
    - split; [reflexivity | right; right; reflexivity]. }
  right. split; [|reflexivity]. right.
  intros [H|(r & _ & Dr & _ & _ & _ & _ & H)]; [now apply H|].
  injection Dr as <-. cbv zeta in H.
  destruct H as [H|H]; apply H; solve [reflexivity | assumption].
Qed.

(** When every request can be built the run is the run of [Handler]. *)
Lemma Handle_built w req : Handle (built w) req = Handler.Handle w req.
Proof.
  destruct (Handle_cases (built w) req) as [(_ & U & _)|[_ E]]; [|exact E].
  unfold unbuildable in U. cbn [built NewRequest] in U.
  destruct U as [H|(res & _ & _ & _ & _ & _ & _ & H)]; [now elim H|].
  cbv zeta in H. destruct H as [H|H]; now elim H.
Qed.

(** A run of [Handler] panics on the error of the conversion only. *)
Lemma Handle_panic_event w req e :
  result (Handler.Handle w req) = Panic e ->
  snd (getEvent w) = Some e /\ trace (Handler.Handle w req) = [].
Proof.
  destruct (Handle_paths w req)
    as [(e' & He & ->)|[(err & ->)|[->|[->|[(res & ->)|(res & _ & _ & _ & H)]]]]];
    cbn [result trace fst snd]; try discriminate.
  - intros [= ->]. now split.
  - cbv zeta in H. destruct H as [(err & ->)| ->]; discriminate.
Qed.

End RequestsFacts.

(** ** Properties of the orchestrator that hold whatever can be built *)

Module RequestsClaims.
Import Eff EffFacts Handler HandlerFacts StrFacts Run RunFacts Requests RequestsFacts.
Local Open Scope eff_scope.

(** C4: [deployFunction] sends at most two requests, in this order: the
    list of the existing functions (GET), then the deployment itself, as an
    update (PUT) when the service name is in the list that was returned and
    as a creation (POST) when it is not.  The deployment is never sent
    before the list: when the request for the list cannot be built the call
    panics before it has sent anything, and when the request for the
    deployment cannot be built it panics after the list. *)
Theorem deployFunction_upsert w deploy gatewayURL :
  let url := gatewayURL ++ "system/functions" in
  let list := EvHTTP MethodGet url NoBody in
  exists method,
    (In (Service deploy) (map Name (listedFunctions (outside w) gatewayURL)) ->
     method = MethodPut) /\
    (~ In (Service deploy) (map Name (listedFunctions (outside w) gatewayURL)) ->
     method = MethodPost) /\
    match NewRequest w MethodGet url with
    | Some _ => deployFunction w deploy gatewayURL = ([], Panic nilDereference)
    | None =>
        match NewRequest w method url with
        | Some _ => deployFunction w deploy gatewayURL = ([list], Panic nilDereference)
        | None =>
            trace (deployFunction w deploy gatewayURL) =
              [list; EvHTTP method url (JSON deploy)] /\
            exists r, result (deployFunction w deploy gatewayURL) = Ok r
        end
    end.
Proof.
  intros url list. subst url list.
  exists (upsertMethod (outside w) deploy gatewayURL). split; [|split].
  - intros H. apply functionListed_In in H. unfold upsertMethod. now rewrite H.
  - intros H. unfold upsertMethod.
    destruct (functionListed _ _) eqn:L; [|reflexivity].
    apply functionListed_In in L. contradiction.
  - rewrite deployFunction_cases. cbv zeta.
    destruct (NewRequest w MethodGet _); [reflexivity|].
    destruct (NewRequest w (upsertMethod _ _ _) _); [reflexivity|].
    rewrite deployFunction_eq. split; [reflexivity|]. eexists. reflexivity.
Qed.

(** A gateway URL that does not parse: nothing is sent. *)
Example deployFunction_unparseable :
  let deploy :=
    {| Service := "alexellis-kubecon-tester"; Image := "img";
       Network := "func_functions"; Labels := [];
       Limits_ := {| Memory := "20m" |}; EnvVars := []; Secrets := [] |} in
  deployFunction (unparseable "http://[::1" (Sample.world "")) deploy "http://[::1/" =
    ([], Panic nilDereference) /\
  trace (deployFunction (built (Sample.world "")) deploy "http://gateway:8080/") =
    [EvHTTP "GET" "http://gateway:8080/system/functions" NoBody;
     EvHTTP "PUT" "http://gateway:8080/system/functions" (JSON deploy)].
Proof. split; reflexivity. Qed.

(** C7: the secrets of the event built by [getEvent] are the names decoded
    from [Http_Secrets], in their order, each one with the login of the
    owner and a dash put before it, and every deployment descriptor [Handle]
    sends carries exactly this list. *)
Theorem secrets_owner_prefixed w req :
  let login := Getenv (outside w) "Http_Owner" in
  let prefixed := map (fun name => login ++ "-" ++ name) (decodedSecrets (outside w)) in
  secrets (fst (getEvent (outside w))) = prefixed /\
  Forall (fun s => prefix (login ++ "-") s = true) prefixed /\
  forall method url d,
    In (EvHTTP method url (JSON d)) (trace (Handle w req)) ->
    Secrets d = prefixed.
Proof.
  intros login prefixed.
  assert (S : secrets (fst (getEvent (outside w))) = prefixed).
  { rewrite getEvent_secrets, getEvent_owner. reflexivity. }
  split; [exact S|]. split.
  - subst prefixed. apply Forall_map, Forall_forall.
    intros x _. rewrite <- append_assoc. apply prefix_append.
  - intros method url d H. rewrite <- S.
    destruct (Handle_cases w req) as [(_ & _ & _ & [T|[T|T]])|[_ E]].
    + rewrite T in H. destruct H.
    + rewrite T in H. destruct H as [H|[]]. discriminate.
    + rewrite T in H. destruct H as [H|[H|[]]]; discriminate.
    + rewrite E in H.
      pose proof (Handle_carries (outside w) req) as F. rewrite Forall_forall in F.
      exact (F _ H).
Qed.

(** The sample event, whose secret is [secret-a], on a gateway every
    request to which can be built. *)
Example secrets_prefixed_and_sent :
  secrets (fst (getEvent (Sample.world ""))) = ["alexellis-secret-a"] /\
  exists d,
    In (EvHTTP "PUT" "http://gateway:8080/system/functions" (JSON d))
       (trace (Handle (built (Sample.world "registry:5000/alexellis/kubecon-tester"))
                 "archive")) /\
    Secrets d = ["alexellis-secret-a"].
Proof.
  split; [reflexivity|].
  eexists. split; [right; right; left; reflexivity | reflexivity].
Qed.

(** X1: [Handle] panics in two cases only.  When the installation id of the
    request is not empty and is not a number ([strconv.Atoi] fails on it) it
    panics with the error of the conversion, before anything is sent.  When
    the event is read and a request cannot be built, it panics with a nil
    dereference: before anything is sent for the request to the builder,
    after the build request (and the list request, if that one could be
    built) for a request of the deployment.  No audit event is posted and no
    commit status is set in a run that panics. *)
Theorem Handle_panic_iff w req msg :
  (result (Handle w req) = Panic msg <->
   (Getenv (outside w) "Http_Installation_id" <> "" /\
    snd (Atoi (outside w) (Getenv (outside w) "Http_Installation_id")) = Some msg) \/
   (snd (getEvent (outside w)) = None /\ unbuildable w req /\ msg = nilDereference)) /\
  (result (Handle w req) = Panic msg ->
   (snd (getEvent (outside w)) <> None -> trace (Handle w req) = []) /\
   (trace (Handle w req) = [] \/
    trace (Handle w req) = [EvHTTP MethodPost (buildURL w) (Raw req)] \/
    trace (Handle w req) =
      [EvHTTP MethodPost (buildURL w) (Raw req);
       EvHTTP MethodGet (functionsURL w) NoBody])).
Proof.
  assert (G : forall e, snd (getEvent (outside w)) = Some e <->
                        Getenv (outside w) "Http_Installation_id" <> "" /\
                        snd (Atoi (outside w) (Getenv (outside w) "Http_Installation_id"))
                        = Some e).
  { intros e. rewrite getEvent_error.
    destruct (Getenv (outside w) "Http_Installation_id") as [|c s];
      cbn [String.length Nat.ltb Nat.leb].
    - split; [discriminate | intros [H _]; congruence].
    - split; [intros H; split; [discriminate | exact H] | intros [_ H]; exact H]. }
  destruct (Handle_cases w req) as [(He & U & R & T)|[C E]].
  - split.
    + rewrite R. split.
      * intros [= <-]. right. auto.
      * intros [H|(_ & _ & ->)]; [|reflexivity].
        apply (proj2 (G msg)) in H. congruence.
    + intros _. split; [congruence | exact T].
  - rewrite E. split.
    + split.
      * intros H. apply Handle_panic_event in H. left. apply G. exact (proj1 H).
      * intros [H|(He & U & _)].
        -- apply G in H. now rewrite (@Handle_event_error (outside w) req msg H).
        -- destruct C as [C|C]; contradiction.
    + intros H. apply Handle_panic_event in H. destruct H as [_ H].
      split; [intros _; exact H | left; exact H].
Qed.

(** A builder URL that does not parse: the run panics before it has sent
    anything. *)
Example Handle_unparseable_builder :
  Handle (unparseable "http://of-builder" (Sample.world "")) "archive" =
    ([], Panic nilDereference).
Proof. reflexivity. Qed.

(** X7: [deployFunction] panics exactly when one of its two requests cannot
    be built.  Otherwise it returns, with no error exactly when the gateway
    answers the deployment request with a status code in 200..299, and then
    with the body of the answer; on an error the returned string is empty,
    and for a status code outside of 200..299 the error is
    [http status code <code>]. *)
Theorem deployFunction_outcome w deploy gatewayURL :
  let url := gatewayURL ++ "system/functions" in
  let method := upsertMethod (outside w) deploy gatewayURL in
  let answer := Do (outside w) method url (JSON deploy) in
  ((exists msg, result (deployFunction w deploy gatewayURL) = Panic msg) <->
   NewRequest w MethodGet url <> None \/ NewRequest w method url <> None) /\
  (NewRequest w MethodGet url = None -> NewRequest w method url = None ->
   exists body err,
     result (deployFunction w deploy gatewayURL) = Ok (body, err) /\
     (err = None <->
      exists res, answer = inr res /\ (200 <= StatusCode res <= 299)%Z /\ body = Body res) /\
     (err <> None -> body = "") /\
     (forall res, answer = inr res ->
                  ((StatusCode res < 200)%Z \/ (299 < StatusCode res)%Z) ->
                  err = Some ("http status code " ++ decimal (StatusCode res)))).
Proof.
  intros url method answer. rewrite deployFunction_cases. fold url method.
  split.
  - destruct (NewRequest w MethodGet url) as [e|].
    { split; [intros _; left; discriminate | intros _; eexists; reflexivity]. }
    destruct (NewRequest w method url) as [e|].
    { split; [intros _; right; discriminate | intros _; eexists; reflexivity]. }
    rewrite deployFunction_eq. cbn [result snd].
    split; [intros [msg H]; discriminate | intros [H|H]; now elim H].
  - intros -> ->. rewrite deployFunction_eq. fold url method answer. cbn [result snd].
    destruct (deployOutcome answer) as [body err] eqn:O.
    exists body, err. split; [reflexivity|]. split; [|split].
    + split.
      * intros ->. now apply deployOutcome_ok.
      * intros H. apply deployOutcome_ok in H. congruence.
    + unfold deployOutcome in O. destruct answer as [e|res].
      * now injection O as <- <-.
      * destruct (_ || _); injection O as <- <-; congruence.
    + intros res E H. rewrite E in O. unfold deployOutcome in O.
      assert (B : ((StatusCode res <? 200)%Z || (299 <? StatusCode res)%Z) = true).
      { apply orb_true_iff.
        destruct H; [left; now apply Z.ltb_lt | right; now apply Z.ltb_lt]. }
      rewrite B in O. now injection O as <- <-.
Qed.

End RequestsClaims.
